(** * torchani-service: the GPU memory-aware model manager

    A shallow embedding of [app/core/model_manager.py] (class [ModelManager])
    and of the settings it reads from [app/config.py], followed by the
    properties of the model cache and of the model selector.

    Conventions of the embedding.
    - The two bookkeeping dictionaries [models_in_memory] and
      [model_last_used] are Python dicts: insertion-ordered, keyed by model
      name.  They are association lists here, because [min] over
      [model_last_used] breaks ties by iteration order.
    - Floats ([time.time()], the GPU usage fraction, the pressure threshold)
      are only stored and compared, never computed with; every finite float
      is a rational, so they are values of [Q] compared with [Qle_bool].
    - The outside world (clock, GPU gauge, Redis, the TorchANI loader) is a
      family of oracles [Env], each indexed by the number of earlier reads
      of that device; the cursors live in the state.
    - Exceptions are an explicit outcome; the two [while] loops of
      [_load_model] take fuel, and [OutOfFuel] stands for a call that has
      not completed.
    - [async with self.lock] makes [get_model] atomic with respect to other
      coroutines; a sequential run of calls is what the embedding describes. *)

From Stdlib Require Import QArith.
From stdpp Require Import base strings list gmap pretty.

Local Open Scope string_scope.

(** ** Python dictionaries keyed by strings *)

Module Dict.

Definition dict (V : Type) : Type := list (string * V).

(** [list(d.keys())] *)
Definition keys {V} (d : dict V) : list string := d.*1.

(** [d.get(k)] *)
Fixpoint get {V} (k : string) (d : dict V) : option V :=
  match d with
  | [] => None
  | (k', v) :: d' => if String.eqb k k' then Some v else get k d'
  end.

(** [k in d] *)
Definition mem {V} (k : string) (d : dict V) : bool :=
  match get k d with Some _ => true | None => false end.

(** [d[k] = v]: an existing key keeps its position, a new one goes last. *)
Fixpoint set {V} (k : string) (v : V) (d : dict V) : dict V :=
  match d with
  | [] => [(k, v)]
  | (k', v') :: d' =>
      if String.eqb k k' then (k, v) :: d' else (k', v') :: set k v d'
  end.

(** [del d[k]] for a key that is present (the caller raises [KeyError]
    otherwise).  Keys of a dict are unique, so at most one entry goes. *)
Fixpoint del {V} (k : string) (d : dict V) : dict V :=
  match d with
  | [] => []
  | (k', v') :: d' =>
      if String.eqb k k' then del k d' else (k', v') :: del k d'
  end.

(** [len(d)] *)
Definition len {V} (d : dict V) : Z := Z.of_nat (length d).

End Dict.

Import Dict.

Arguments mem : simpl never.
Arguments len : simpl never.
Arguments keys : simpl never.

(** ** Floats that are only compared *)

(** [x < y] on finite floats. *)
Definition Qltb (x y : Q) : bool := negb (Qle_bool y x).

(** [min(d, key=d.get)]: the first key, in iteration order, whose value is
    minimal.  [d.get] of a key of [d] is the value of its entry, so the scan
    runs over the entries; [best] is replaced only by a strictly smaller
    value. *)
Fixpoint min_scan (best : string * Q) (rest : dict Q) : string * Q :=
  match rest with
  | [] => best
  | e :: rest' => min_scan (if Qltb e.2 best.2 then e else best) rest'
  end.

Definition min_by_value (d : dict Q) : option string :=
  match d with
  | [] => None
  | e :: rest => Some (min_scan e rest).1
  end.

(** ** Settings ([app/config.py]) *)

Record Settings := mkSettings {
  redis_model_ttl : Z;
  gpu_memory_threshold : Q;
  model_max_loaded : Z;
}.

Definition default_settings : Settings :=
  {| redis_model_ttl := 300;
     gpu_memory_threshold := 7 # 10;
     model_max_loaded := 2 |}.

(** ** Exceptions, outcomes, observable events *)

Inductive exn :=
| ValueError (msg : string)
| KeyError (key : string)
| LoaderError (model_name : string)  (* raised by torchani or by [.to(device)] *)
| RedisError.                        (* raised by the Redis client *)

Inductive outcome (A : Type) :=
| Returned (a : A)
| Raised (e : exn)
| OutOfFuel.
Arguments Returned {A} a.
Arguments Raised {A} e.
Arguments OutOfFuel {A}.

(** The commands sent to Redis.  SETEX and EXPIRE carry the time to live
    they are given, in seconds. *)
Inductive redis_cmd :=
| GET
| SETEX (ttl : Z)
| EXPIRE (ttl : Z)
| DELETE
| CLOSE.

Inductive event :=
| ERedis (cmd : redis_cmd) (key : string)     (* a command sent to Redis *)
| ELoader (model_name : string) (ok : bool)   (* a loader call and whether it returned *)
| EFree (model_name : string)                 (* [del model], then [empty_cache()] under CUDA *)
| ELogInfo (msg : string)
| ELogError (msg : string) (e : exn).

(** ** The outside world *)

(** A model handle is the identity of the object the loader returned: the
    index of the loader call that built it. *)
Definition handle := nat.

Record Env := mkEnv {
  time_time : nat → Q;          (* successive values of [time.time()] *)
  cuda_available : bool;        (* [torch.cuda.is_available()] *)
  gpu_fraction : nat → Q;       (* successive values of allocated / total *)
  redis_up : nat → bool;        (* does the n-th Redis command return? *)
  redis_truthy : nat → bool;    (* is the reply of the n-th command truthy? *)
  loader_ok : nat → bool;       (* does the n-th loader call return? *)
}.

(** ** The manager's state *)

Record State := mkState {
  models_in_memory : dict handle;
  model_last_used : dict Q;
  clock_i : nat;
  gauge_i : nat;
  redis_i : nat;
  loader_i : nat;
  trace : list event;
}.

(** [ModelManager.__init__] *)
Definition init_state : State :=
  {| models_in_memory := []; model_last_used := [];
     clock_i := 0; gauge_i := 0; redis_i := 0; loader_i := 0; trace := [] |}.

Definition with_models (f : dict handle → dict handle) (s : State) : State :=
  mkState (f (models_in_memory s)) (model_last_used s)
          (clock_i s) (gauge_i s) (redis_i s) (loader_i s) (trace s).

Definition with_last_used (f : dict Q → dict Q) (s : State) : State :=
  mkState (models_in_memory s) (f (model_last_used s))
          (clock_i s) (gauge_i s) (redis_i s) (loader_i s) (trace s).

Definition with_event (e : event) (s : State) : State :=
  mkState (models_in_memory s) (model_last_used s)
          (clock_i s) (gauge_i s) (redis_i s) (loader_i s) (trace s ++ [e]).

Definition tick_clock (s : State) : State :=
  mkState (models_in_memory s) (model_last_used s)
          (S (clock_i s)) (gauge_i s) (redis_i s) (loader_i s) (trace s).

Definition tick_gauge (s : State) : State :=
  mkState (models_in_memory s) (model_last_used s)
          (clock_i s) (S (gauge_i s)) (redis_i s) (loader_i s) (trace s).

Definition tick_redis (s : State) : State :=
  mkState (models_in_memory s) (model_last_used s)
          (clock_i s) (gauge_i s) (S (redis_i s)) (loader_i s) (trace s).

Definition tick_loader (s : State) : State :=
  mkState (models_in_memory s) (model_last_used s)
          (clock_i s) (gauge_i s) (redis_i s) (S (loader_i s)) (trace s).

(** ** The monad of the manager's methods: state and exceptions *)

Definition M (A : Type) : Type := State → outcome A * State.

Global Instance M_ret : MRet M := λ A a s, (Returned a, s).

Global Instance M_bind : MBind M := λ A B k m s,
  match m s with
  | (Returned a, s') => k a s'
  | (Raised e, s') => (Raised e, s')
  | (OutOfFuel, s') => (OutOfFuel, s')
  end.

(** [raise e] *)
Global Instance M_throw : MThrow exn M := λ A e s, (Raised e, s).

Definition gets {A} (f : State → A) : M A := λ s, (Returned (f s), s).
Definition modify (f : State → State) : M unit := λ s, (Returned tt, f s).
Definition emit (e : event) : M unit := modify (with_event e).
Definition out_of_fuel {A} : M A := λ s, (OutOfFuel, s).

(** [try: body except Exception as e: handler e] *)
Definition try_except {A} (body : M A) (handler : exn → M A) : M A := λ s,
  match body s with
  | (Raised e, s') => handler e s'
  | r => r
  end.

(** [try: body finally: final] *)
Definition try_finally {A} (body : M A) (final : M unit) : M A := λ s,
  match body s with
  | (OutOfFuel, s') => (OutOfFuel, s')
  | (r, s') =>
      match final s' with
      | (Returned _, s'') => (r, s'')
      | (Raised e, s'') => (Raised e, s'')
      | (OutOfFuel, s'') => (OutOfFuel, s'')
      end
  end.

(** [for x in xs: body x] *)
Fixpoint for_each {A} (xs : list A) (body : A → M unit) : M unit :=
  match xs with
  | [] => mret tt
  | x :: xs' => body x ;; for_each xs' body
  end.

(** ** ModelManager *)

Section ModelManager.

Variable settings : Settings.
Variable env : Env.

(** *** External calls *)

Definition now : M Q := λ s,
  (Returned (time_time env (clock_i s)), tick_clock s).

(** The Redis key [f"model:{model_name}:metadata"]. *)
Definition metadata_key (model_name : string) : string :=
  "model:" ++ model_name ++ ":metadata".

(** One awaited command on [self.redis_client]: it returns the reply
    (only its truthiness is ever inspected) or raises.  The event records
    the command with its time to live and the key; the text that SETEX
    stores is not recorded. *)
Definition redis_call (cmd : redis_cmd) (key : string) : M bool := λ s,
  let s' := with_event (ERedis cmd key) (tick_redis s) in
  if redis_up env (redis_i s)
  then (Returned (redis_truthy env (redis_i s)), s')
  else (Raised RedisError, s').

(** [torchani.models.<name>(periodic_table_index=True)] followed by
    [.to(self.device).double()]: one external step that returns a fresh
    handle or raises. *)
Definition torchani_load (model_name : string) : M handle := λ s,
  let ok := loader_ok env (loader_i s) in
  let s' := with_event (ELoader model_name ok) (tick_loader s) in
  if ok then (Returned (loader_i s), s')
  else (Raised (LoaderError model_name), s').

(** *** Methods *)

Definition _get_gpu_memory_usage : M Q :=
  if negb (cuda_available env) then mret 0%Q
  else λ s, (Returned (gpu_fraction env (gauge_i s)), tick_gauge s).

Definition _check_memory_pressure : M bool :=
  usage ← _get_gpu_memory_usage;
  mret (Qltb (gpu_memory_threshold settings) usage).

Definition _unload_model (model_name : string) : M unit :=
  resident ← gets (λ s, mem model_name (models_in_memory s));
  if negb resident then mret tt
  else
    emit (ELogInfo ("Unloading model " ++ model_name ++ " from GPU memory"));;
    modify (with_models (del model_name));;
    timed ← gets (λ s, mem model_name (model_last_used s));
    (if (timed : bool) then modify (with_last_used (del model_name))
     else mthrow (KeyError model_name));;
    emit (EFree model_name);;
    redis_call DELETE (metadata_key model_name);;
    mret tt.

Definition _evict_oldest_model : M unit :=
  models ← gets models_in_memory;
  match models with
  | [] => mret tt
  | _ :: _ =>
      last_used ← gets model_last_used;
      match min_by_value last_used with
      | None => mthrow (ValueError "min() arg is an empty sequence")
      | Some oldest_model =>
          emit (ELogInfo ("Evicting model " ++ oldest_model
                          ++ " due to memory pressure"));;
          _unload_model oldest_model
      end
  end.

(** [while await self._check_memory_pressure() and self.models_in_memory] *)
Fixpoint pressure_loop (fuel : nat) : M unit :=
  match fuel with
  | O => out_of_fuel
  | S fuel' =>
      pressure ← _check_memory_pressure;
      models ← gets models_in_memory;
      match pressure, models with
      | true, _ :: _ => _evict_oldest_model;; pressure_loop fuel'
      | _, _ => mret tt
      end
  end.

(** [while len(self.models_in_memory) >= settings.model_max_loaded] *)
Fixpoint limit_loop (fuel : nat) : M unit :=
  match fuel with
  | O => out_of_fuel
  | S fuel' =>
      n ← gets (λ s, len (models_in_memory s));
      if (model_max_loaded settings <=? n)%Z
      then _evict_oldest_model;; limit_loop fuel'
      else mret tt
  end.

(** Lines 91-124 of [_load_model]: the [try] statement that builds the
    model, stores it in both dictionaries and publishes its metadata; the
    [except] clause logs and re-raises. *)
Definition loading (model_name : string) : M handle :=
  try_except
    (model ←
       (if String.eqb model_name "ANI1ccx" then torchani_load "ANI1ccx"
        else if String.eqb model_name "ANI2x" then torchani_load "ANI2x"
        else if String.eqb model_name "ANI1x" then torchani_load "ANI1x"
        else mthrow (ValueError ("Unknown model: " ++ model_name)));
     modify (with_models (set model_name model));;
     t ← now;
     modify (with_last_used (set model_name t));;
     loaded_at ← now;
     memory_usage ← _get_gpu_memory_usage;
     redis_call (SETEX (redis_model_ttl settings))
       (metadata_key model_name);;
     emit (ELogInfo ("Model " ++ model_name ++ " loaded successfully"));;
     mret model)
    (λ e,
       emit (ELogError ("Failed to load model " ++ model_name) e);;
       mthrow e).

Definition _load_model (fuel : nat) (model_name : string) : M handle :=
  emit (ELogInfo ("Loading model " ++ model_name ++ " into GPU memory"));;
  pressure_loop fuel;;
  limit_loop fuel;;
  loading model_name.

Definition get_model (fuel : nat) (model_name : string) : M handle :=
  models ← gets models_in_memory;
  if mem model_name models then
    t ← now;
    modify (with_last_used (set model_name t));;
    redis_call (EXPIRE (redis_model_ttl settings))
      (metadata_key model_name);;
    models ← gets models_in_memory;
    match get model_name models with
    | Some model => mret model
    | None => mthrow (KeyError model_name)
    end
  else
    metadata ← redis_call GET (metadata_key model_name);
    if (metadata : bool) then _load_model fuel model_name
    else _load_model fuel model_name.

(** The [finally] block of [get_model_context]: what the specification
    calls releasing a model. *)
Definition release (model_name : string) : M unit :=
  resident ← gets (λ s, mem model_name (models_in_memory s));
  if (resident : bool) then
    t ← now;
    modify (with_last_used (set model_name t))
  else mret tt.

(** [async with get_model_context(model_name) as model: body model] *)
Definition get_model_context {A} (fuel : nat) (model_name : string)
    (body : handle → M A) : M A :=
  model ← get_model fuel model_name;
  try_finally (body model) (release model_name).

(** [close], on an initialised manager ([self.redis_client] is set); the
    CLOSE command carries no key. *)
Definition close : M unit :=
  redis_call CLOSE "";;
  names ← gets (λ s, keys (models_in_memory s));
  for_each names _unload_model.

End ModelManager.

Definition get_supported_elements (model_name : string) : gset Z :=
  if String.eqb model_name "ANI1ccx" then {[1; 6; 7; 8]}%Z
  else if String.eqb model_name "ANI1x" then {[1; 6; 7; 8]}%Z
  else if String.eqb model_name "ANI2x" then {[1; 6; 7; 8; 9; 16; 17]}%Z
  else ∅.

(** The loop of [select_best_model], over any preference order. *)
Fixpoint select_first (preference : list string) (elements : gset Z)
    : option string :=
  match preference with
  | [] => None
  | model_name :: rest =>
      if bool_decide (elements ⊆ get_supported_elements model_name)
      then Some model_name
      else select_first rest elements
  end.

Definition model_preference : list string := ["ANI2x"; "ANI1ccx"; "ANI1x"].

Definition select_best_model (elements : gset Z) : option string :=
  select_first model_preference elements.

(** ** Sequences of calls on the cache *)

(** The three calls of the cache's contract: [get_model] (acquire), the
    [finally] block of [get_model_context] (release) and [_unload_model]
    (evict). *)
Inductive call :=
| Acquire (fuel : nat) (model_name : string)
| Release (model_name : string)
| Evict (model_name : string).

Definition run_call (settings : Settings) (env : Env) (c : call) (s : State)
    : State :=
  match c with
  | Acquire fuel model_name => (get_model settings env fuel model_name s).2
  | Release model_name => (release env model_name s).2
  | Evict model_name => (_unload_model env model_name s).2
  end.

Definition run_calls (settings : Settings) (env : Env) (cs : list call)
    (s : State) : State :=
  foldl (λ s c, run_call settings env c s) s cs.

(** ** Predicates on states and on methods *)

(** The names the loader knows (the [if]/[elif] chain of [_load_model]). *)
Definition registered (model_name : string) : bool :=
  String.eqb model_name "ANI1ccx" || String.eqb model_name "ANI2x"
  || String.eqb model_name "ANI1x".

(** The two dictionaries have the same key set: a model has a last-used
    time exactly when it is resident. *)
Definition consistent (s : State) : Prop :=
  ∀ k, mem k (models_in_memory s) = mem k (model_last_used s).

Definition within_capacity (settings : Settings) (s : State) : Prop :=
  (len (models_in_memory s) ≤ model_max_loaded settings)%Z.

Definition is_loader_event (e : event) : bool :=
  match e with ELoader _ _ => true | _ => false end.

(** The events a run from [s] to [s'] appended to the trace. *)
Definition new_events (s s' : State) : list event :=
  drop (length (trace s)) (trace s').

(** [steps R m]: whatever the outcome, a run of [m] relates its initial
    state to its final state by [R]. *)
Definition steps {A} (R : relation State) (m : M A) : Prop :=
  ∀ s, R s (m s).2.

(** Both dictionaries are untouched. *)
Definition same_books : relation State := λ s s',
  models_in_memory s' = models_in_memory s ∧
  model_last_used s' = model_last_used s.

(** No loader call happened. *)
Definition quiet : relation State := λ s s',
  loader_i s' = loader_i s ∧
  ∃ evs, trace s' = (trace s ++ evs)%list ∧
         Forall (λ e, is_loader_event e = false) evs.

(** Entries were at most removed, and no loader call happened. *)
Definition shrinks : relation State := λ s s',
  (∀ k, mem k (models_in_memory s') = true → mem k (models_in_memory s) = true) ∧
  (∀ k, mem k (model_last_used s') = true → mem k (model_last_used s) = true) ∧
  (length (models_in_memory s') ≤ length (models_in_memory s))%nat ∧
  quiet s s'.

Definition keeps_consistent : relation State := λ s s',
  consistent s → consistent s'.

Definition extends_trace : relation State := λ s s',
  trace s `prefix_of` trace s'.

(** Nothing but [model_name] became resident, and the trace only grew. *)
Definition loads_only (model_name : string) : relation State := λ s s',
  extends_trace s s' ∧
  ∀ k, k ≠ model_name →
       mem k (models_in_memory s') = true → mem k (models_in_memory s) = true.

(** Only the outside world moved: the dictionaries are untouched and no
    loader call happened. *)
Definition idle : relation State := λ s s', same_books s s' ∧ quiet s s'.

(** The dictionary of resident models did not grow. *)
Definition no_growth : relation State := λ s s',
  (length (models_in_memory s') ≤ length (models_in_memory s))%nat.

(** The models a run from [s] to [s'] freed, in the order in which it
    freed them. *)
Definition freed (s s' : State) : list string :=
  omap (λ e, match e with EFree k => Some k | _ => None end) (new_events s s').

(** [del d[k]] for every [k] of [ks], in this order. *)
Definition del_all {V} (ks : list string) (d : dict V) : dict V :=
  foldl (λ d k, del k d) d ks.

(** A run that only evicted: no loader call happened, and both dictionaries
    are what they were with the entries of the freed models deleted; every
    freed model took an entry of [models_in_memory] with it, exactly one
    when the keys are pairwise distinct. *)
Definition evicts : relation State := λ s s',
  consistent s →
  consistent s' ∧
  quiet s s' ∧
  models_in_memory s' = del_all (freed s s') (models_in_memory s) ∧
  model_last_used s' = del_all (freed s s') (model_last_used s) ∧
  (length (models_in_memory s') + length (freed s s')
   ≤ length (models_in_memory s))%nat ∧
  (NoDup (keys (models_in_memory s)) →
   NoDup (keys (models_in_memory s')) ∧
   (length (models_in_memory s') + length (freed s s')
    = length (models_in_memory s))%nat).

(** ** Sample worlds and states *)

(** A clock that advances by one second per reading, no CUDA device, Redis
    and the loader always answering. *)
Definition env_steady : Env :=
  {| time_time := λ n, inject_Z (Z.of_nat n);
     cuda_available := false;
     gpu_fraction := λ _, 0%Q;
     redis_up := λ _, true;
     redis_truthy := λ _, false;
     loader_ok := λ _, true |}.

(** The same world with Redis unreachable: every command raises. *)
Definition env_redis_down : Env :=
  {| time_time := time_time env_steady;
     cuda_available := false;
     gpu_fraction := λ _, 0%Q;
     redis_up := λ _, false;
     redis_truthy := λ _, false;
     loader_ok := λ _, true |}.

(** The same world with a CUDA device whose memory is 90% allocated. *)
Definition env_pressure : Env :=
  {| time_time := time_time env_steady;
     cuda_available := true;
     gpu_fraction := λ _, (9 # 10)%Q;
     redis_up := λ _, true;
     redis_truthy := λ _, false;
     loader_ok := λ _, true |}.

(** The same world with a loader that always raises. *)
Definition env_loader_fails : Env :=
  {| time_time := time_time env_steady;
     cuda_available := false;
     gpu_fraction := λ _, 0%Q;
     redis_up := λ _, true;
     redis_truthy := λ _, false;
     loader_ok := λ _, false |}.

(** The same world with a Redis that answers two commands and is
    unreachable from then on. *)
Definition env_redis_drops : Env :=
  {| time_time := time_time env_steady;
     cuda_available := false;
     gpu_fraction := λ _, 0%Q;
     redis_up := λ n, (n <? 2)%nat;
     redis_truthy := λ _, false;
     loader_ok := λ _, true |}.

(** The manager after loading ANI2x and then ANI1x with the default
    settings: both slots are taken. *)
Definition two_resident : State :=
  Eval vm_compute in
    run_calls default_settings env_steady
      [Acquire 1 "ANI2x"; Acquire 1 "ANI1x"] init_state.

(** Three resident models last used at times 10, 5 and 20. *)
Definition three_resident : State :=
  {| models_in_memory := [("ANI1x", 0); ("ANI2x", 1); ("ANI1ccx", 2)];
     model_last_used := [("ANI1x", 10%Q); ("ANI2x", 5%Q); ("ANI1ccx", 20%Q)];
     clock_i := 3; gauge_i := 0; redis_i := 6; loader_i := 3; trace := [] |}.

(** ** The rest of ModelManager: [initialize] and [list_models] *)

(** The loop of [initialize] (lines 37-43) over [settings.model_preload],
    given here as the argument [model_preload].  The construction of the
    Redis client that precedes it (lines 31-35) sends no command and has no
    effect on the dictionaries. *)
Definition initialize (settings : Settings) (env : Env) (fuel : nat)
    (model_preload : list string) : M unit :=
  for_each model_preload (λ model_name,
    try_except
      (get_model settings env fuel model_name;;
       emit (ELogInfo ("Preloaded model: " ++ model_name)))
      (λ e, emit (ELogError ("Failed to preload model " ++ model_name) e))).

(** One entry of the dictionary [list_models] returns.  [metadata] is
    [json.loads] of the reply to the GET, which is what [_load_model] stored
    with [json.dumps]; it is identified by the index of that GET. *)
Record ModelInfo := mkModelInfo {
  available : bool;
  loaded : bool;
  last_used : option Q;
  metadata : option nat;
}.

(** The entry ["gpu_stats"]. *)
Record GpuStats := mkGpuStats {
  device : string;
  memory_usage : Q;
  memory_threshold : Q;
  models_loaded : Z;
  max_models : Z;
}.

(** The [for] loop of [list_models] (lines 174-182). *)
Fixpoint list_models_loop (env : Env) (available_models : list string)
    (result : dict ModelInfo) : M (dict ModelInfo) :=
  match available_models with
  | [] => mret result
  | model_name :: rest =>
      i ← gets redis_i;
      reply ← redis_call env GET (metadata_key model_name);
      is_loaded ← gets (λ s, mem model_name (models_in_memory s));
      used ← gets (λ s, get model_name (model_last_used s));
      list_models_loop env rest
        (set model_name
           {| available := true;
              loaded := is_loaded;
              last_used := used;
              metadata := if (reply : bool) then Some i else None |}
           result)
  end.

(** [list_models]; [gpu_device] is [settings.gpu_device], from which
    [self.device] is built.  The model entries and the ["gpu_stats"] entry
    of the returned dictionary are the two components of the pair. *)
Definition list_models (settings : Settings) (env : Env) (gpu_device : string)
    : M (dict ModelInfo * GpuStats) :=
  result ← list_models_loop env ["ANI1ccx"; "ANI2x"; "ANI1x"] [];
  usage ← _get_gpu_memory_usage env;
  n ← gets (λ s, len (models_in_memory s));
  mret (result,
        {| device := if cuda_available env then gpu_device else "cpu";
           memory_usage := usage;
           memory_threshold := gpu_memory_threshold settings;
           models_loaded := n;
           max_models := model_max_loaded settings |}).

(** A world in which Redis and the loader always answer. *)
Definition answering (env : Env) : Prop :=
  (∀ n, redis_up env n = true) ∧ (∀ n, loader_ok env n = true).

(** A body that fails: the engine raises while the model is in use. *)
Definition failing_body : handle → M unit :=
  λ _, mthrow (ValueError "Unknown optimizer: SGD").

(** Every resident model is one the loader knows. *)
Definition only_registered (s : State) : Prop :=
  ∀ k, mem k (models_in_memory s) = true → registered k = true.

(** The keys of [models_in_memory] are pairwise distinct, as the keys of a
    Python dict are. *)
Definition unique_keys (s : State) : Prop := NoDup (keys (models_in_memory s)).

Definition keeps_unique : relation State := λ s s',
  unique_keys s → unique_keys s'.

(** The same for the keys of [model_last_used]. *)
Definition unique_times (s : State) : Prop := NoDup (keys (model_last_used s)).

Definition keeps_unique_times : relation State := λ s s',
  unique_times s → unique_times s'.

(** The number of entries of a [list_models] answer that are reported as
    loaded. *)
Definition count_loaded (models : dict ModelInfo) : Z :=
  Z.of_nat (length (List.filter (λ e, loaded e.2) models)).

(** ** The optimizer ([app/core/optimizer.py]) *)

(** The calls into ASE are external.  The embedding keeps them abstract:
    [Coordinates] is the array of positions, [Molecule] the [ase.Atoms]
    object with its calculator, [Engine] what the engine computes (energy,
    positions, forces, step count, convergence flag).  [repr_set] is
    Python's rendering of a set, whose element order is not specified. *)
Section MolecularOptimizer.

Variable settings : Settings.
Variable env : Env.
Variables Coordinates Molecule Engine : Type.
Variable repr_set : gset Z → string.

(** [ase.Atoms(numbers=elements, positions=coordinates)] followed by
    [molecule.set_calculator(model.ase())]. *)
Variable ase_atoms : handle → Coordinates → list Z → M Molecule.

(** For [optimizer] one of LBFGS, BFGS, FIRE: the construction of that
    optimizer, [opt.run(fmax=fmax, steps=max_steps)] and the reading of
    positions, energy and forces (lines 64-78). *)
Variable ase_optimize : string → Z → Q → Molecule → M Engine.

(** [get_potential_energy()] and [get_forces()] (lines 129-130). *)
Variable ase_energy : Molecule → M Engine.

(** The dictionary [optimize_structure] returns. *)
Record OptimizeResult := mkOptimizeResult {
  model_used : string;
  engine_output : Engine;
  charge : Z;
  elements : list Z;
}.

(** The dictionary [calculate_energy] returns. *)
Record EnergyResult := mkEnergyResult {
  energy_model_used : string;
  energy_output : Engine;
  energy_elements : list Z;
}.

(** Lines 48-52 and 116-120: the model every call works with. *)
Definition auto_select (elems : list Z) (model_name : option string)
    : M string :=
  match model_name with
  | None =>
      let element_set : gset Z := list_to_set elems in
      match select_best_model element_set with
      | None =>
          mthrow (ValueError ("No model supports elements: "
                              ++ repr_set element_set))
      | Some name => mret name
      end
  | Some name => mret name
  end.

Definition optimize_structure (fuel : nat) (coordinates : Coordinates)
    (elems : list Z) (model_name : option string) (chg : Z) (max_steps : Z)
    (fmax : Q) (optimizer : string) : M OptimizeResult :=
  try_except
    (name ← auto_select elems model_name;
     get_model_context settings env fuel name (λ model,
       molecule ← ase_atoms model coordinates elems;
       (if String.eqb optimizer "LBFGS" then mret tt
        else if String.eqb optimizer "BFGS" then mret tt
        else if String.eqb optimizer "FIRE" then mret tt
        else mthrow (ValueError ("Unknown optimizer: " ++ optimizer)));;
       output ← ase_optimize optimizer max_steps fmax molecule;
       mret {| model_used := name; engine_output := output;
               charge := chg; elements := elems |}))
    (λ e, emit (ELogError "Optimization failed" e);; mthrow e).

Definition calculate_energy (fuel : nat) (coordinates : Coordinates)
    (elems : list Z) (model_name : option string) : M EnergyResult :=
  try_except
    (name ← auto_select elems model_name;
     get_model_context settings env fuel name (λ model,
       molecule ← ase_atoms model coordinates elems;
       output ← ase_energy molecule;
       mret {| energy_model_used := name; energy_output := output;
               energy_elements := elems |}))
    (λ e, emit (ELogError "Energy calculation failed" e);; mthrow e).

(** One entry of the list [batch_optimize] returns: the result of
    [optimize_structure], or the record
    [{"success": False, "error": str(e), "elements": elements}]. *)
Inductive BatchItem :=
| BatchDone (result : OptimizeResult)
| BatchFailed (error : exn) (elems : list Z).

(** The loop of [batch_optimize]; [results] is the list built so far. *)
Fixpoint batch_loop (fuel : nat) (structures : list (Coordinates * list Z))
    (model_name : option string) (chg : Z) (max_steps : Z) (fmax : Q)
    (optimizer : string) (results : list BatchItem) : M (list BatchItem) :=
  match structures with
  | [] => mret results
  | (coords, elems) :: rest =>
      item ← try_except
        (result ← optimize_structure fuel coords elems model_name chg
                    max_steps fmax optimizer;
         mret (BatchDone result))
        (λ e,
           emit (ELogError "Failed to optimize structure" e);;
           mret (BatchFailed e elems));
      batch_loop fuel rest model_name chg max_steps fmax optimizer
        (results ++ [item])%list
  end.

Definition batch_optimize (fuel : nat)
    (structures : list (Coordinates * list Z)) (model_name : option string)
    (chg : Z) (max_steps : Z) (fmax : Q) (optimizer : string)
    : M (list BatchItem) :=
  batch_loop fuel structures model_name chg max_steps fmax optimizer [].

End MolecularOptimizer.

Arguments mkOptimizeResult {Engine}.
Arguments model_used {Engine}.
Arguments engine_output {Engine}.
Arguments charge {Engine}.
Arguments elements {Engine}.
Arguments BatchDone {Engine}.
Arguments BatchFailed {Engine}.

(** A stand-in engine whose calls all return. *)
Definition sample_atoms : handle → unit → list Z → M unit := λ _ _ _, mret tt.
Definition sample_optimize : string → Z → Q → unit → M unit :=
  λ _ _ _ _, mret tt.
Definition sample_energy : unit → M unit := λ _, mret tt.
Definition sample_repr_set : gset Z → string := λ _, "{...}".

(** What a batch item says about the structure it comes from. *)
Definition item_matches {Coordinates Engine}
    (structure : Coordinates * list Z) (item : BatchItem Engine) : Prop :=
  match item with
  | BatchDone result => elements result = structure.2
  | BatchFailed _ elems => elems = structure.2
  end.

(** ** Writing a structure in XYZ format ([structure_to_xyz]) *)

(** The table [symbols]. *)
Definition symbols : list (Z * string) :=
  [(1, "H"); (6, "C"); (7, "N"); (8, "O"); (9, "F"); (16, "S"); (17, "Cl")]%Z.

(** [symbols.get(elem)] *)
Fixpoint symbols_get (elem : Z) (table : list (Z * string)) : option string :=
  match table with
  | [] => None
  | (z, symbol) :: table' =>
      if Z.eqb elem z then Some symbol else symbols_get elem table'
  end.

(** [symbols.get(elem, f"X{elem}")] *)
Definition symbol_of (elem : Z) : string :=
  match symbols_get elem symbols with
  | Some symbol => symbol
  | None => "X" ++ pretty elem
  end.

(** [f"{symbol:2s}"]: left-aligned in a field of at least two characters. *)
Definition pad2 (symbol : string) : string :=
  symbol ++ String.concat "" (replicate (2 - String.length symbol) " ").

(** The line feed ["\n"]. *)
Definition newline : string := String (Ascii.ascii_of_nat 10) "".

Section StructureToXyz.

(** A coordinate is a float; [fmt_12_6f x] is [f"{x:12.6f}"]. *)
Variable Coordinate : Type.
Variable fmt_12_6f : Coordinate → string.

(** The list [lines]; [coordinates] is the (N, 3) array, row by row. *)
Definition xyz_lines (coordinates : list (Coordinate * Coordinate * Coordinate))
    (elems : list Z) (comment : string) : list string :=
  [pretty (length elems); comment]
  ++ map (λ '(elem, (x, y, z)),
            pad2 (symbol_of elem) ++ " " ++ fmt_12_6f x ++ " "
            ++ fmt_12_6f y ++ " " ++ fmt_12_6f z)
         (zip elems coordinates).

Definition structure_to_xyz
    (coordinates : list (Coordinate * Coordinate * Coordinate))
    (elems : list Z) (comment : string) : string :=
  String.concat newline (xyz_lines coordinates elems comment).

End StructureToXyz.

(** ** The model routes ([app/api/routes.py]) *)

(** What a route hands to FastAPI: the dictionary it returns, or the
    [HTTPException] it raises. *)
Inductive HttpReply :=
| Reply (message : string)
| HTTPException (status_code : Z) (detail : string).

Section ModelRoutes.

Variable settings : Settings.
Variable env : Env.

(** The class of what the loader raises is not known: [loader_value_error]
    tells whether it is a [ValueError], [loader_error_text] is its [str]. *)
Variable loader_value_error : bool.
Variable loader_error_text : string → string.

(** [POST /models/{model_name}/load] *)
Definition load_model (fuel : nat) (model_name : string) : M HttpReply :=
  try_except
    (get_model settings env fuel model_name;;
     mret (Reply ("Model " ++ model_name ++ " loaded successfully")))
    (λ e,
       match e with
       | ValueError msg => mret (HTTPException 400 msg)
       | LoaderError name =>
           if loader_value_error
           then mret (HTTPException 400 (loader_error_text name))
           else emit (ELogError "Failed to load model" e);;
                mret (HTTPException 500 "Failed to load model")
       | KeyError _ | RedisError =>
           emit (ELogError "Failed to load model" e);;
           mret (HTTPException 500 "Failed to load model")
       end).

(** [DELETE /models/{model_name}/unload] *)
Definition unload_model (model_name : string) : M HttpReply :=
  try_except
    (_unload_model env model_name;;
     mret (Reply ("Model " ++ model_name ++ " unloaded successfully")))
    (λ e,
       emit (ELogError "Failed to unload model" e);;
       mret (HTTPException 500 "Failed to unload model")).

End ModelRoutes.

(** ** The job status route ([get_job_status]) *)

(** What the route reads from [celery_app.AsyncResult(job_id)]: the state,
    and the task's result or meta, which Celery exposes both as [result]
    and as [info].  [info_progress] is [info.get("progress")] when [info] is
    a dict, [info_str] is [str(info)]; [Payload] is the result itself. *)
Record AsyncResult (Payload : Type) := mkAsyncResult {
  state : string;
  result_payload : Payload;
  info_is_dict : bool;
  info_progress : option Q;
  info_str : string;
}.
Arguments state {Payload}.
Arguments result_payload {Payload}.
Arguments info_is_dict {Payload}.
Arguments info_progress {Payload}.
Arguments info_str {Payload}.

Record JobStatusResponse (Payload : Type) := mkJobStatusResponse {
  job_id : string;
  status : string;
  progress : Q;
  result : option Payload;
  error : option string;
  created_at : string;
  completed_at : option string;
}.
Arguments job_id {Payload}.
Arguments status {Payload}.
Arguments progress {Payload}.
Arguments result {Payload}.
Arguments error {Payload}.
Arguments created_at {Payload}.
Arguments completed_at {Payload}.

(** [status_map.get(state, "unknown")] *)
Definition status_map_get (celery_state : string) : string :=
  if String.eqb celery_state "PENDING" then "pending"
  else if String.eqb celery_state "STARTED" then "processing"
  else if String.eqb celery_state "SUCCESS" then "completed"
  else if String.eqb celery_state "FAILURE" then "failed"
  else if String.eqb celery_state "RETRY" then "retrying"
  else if String.eqb celery_state "REVOKED" then "cancelled"
  else "unknown".

(** Lines 298-331 of [get_job_status]: the response built from what the
    result backend answered. *)
Definition get_job_status {Payload} (id : string) (r : AsyncResult Payload)
    : JobStatusResponse Payload :=
  let job_status := status_map_get (state r) in
  if String.eqb job_status "completed" then
    {| job_id := id; status := job_status; progress := 100;
       result := Some (result_payload r); error := None;
       created_at := ""; completed_at := None |}
  else if String.eqb job_status "failed" then
    {| job_id := id; status := job_status; progress := 0;
       result := None; error := Some (info_str r);
       created_at := ""; completed_at := None |}
  else if String.eqb job_status "processing" then
    {| job_id := id; status := job_status;
       progress := if info_is_dict r
                   then match info_progress r with
                        | Some p => p
                        | None => 50
                        end
                   else 0;
       result := None; error := None;
       created_at := ""; completed_at := None |}
  else
    {| job_id := id; status := job_status; progress := 0;
       result := None; error := None;
       created_at := ""; completed_at := None |}.

(** The state under which the tasks of [app/tasks.py] publish their
    progress: [self.update_state(state="PROGRESS", meta={"progress": ...})]. *)
Definition task_progress_state : string := "PROGRESS".

(** * Properties *)

(** ** Dictionaries *)

Lemma mem_keys {V} (k : string) (d : dict V) : mem k d = true ↔ k ∈ keys d.
Proof.
  unfold mem, keys. induction d as [|[k' v] d IH]; cbn.
  - split; [discriminate | intros H; inversion H].
  - destruct (String.eqb_spec k k') as [->|Hne].
    + split; [intros _; left | reflexivity].
    + rewrite IH. split; [by right | intros H].
      apply elem_of_cons in H as [H|H]; [contradiction | exact H].
Qed.

Lemma length_del {V} (k : string) (d : dict V) :
  (length (del k d) ≤ length d)%nat.
Proof.
  induction d as [|[k' v'] d IH]; cbn; [lia|].
  destruct (String.eqb k k'); cbn; lia.
Qed.

Lemma length_del_mem {V} (k : string) (d : dict V) :
  mem k d = true → (length (del k d) < length d)%nat.
Proof.
  unfold mem. induction d as [|[k' v'] d IH]; cbn; [discriminate|].
  destruct (String.eqb k k'); cbn; intros H.
  - pose proof (length_del k d). lia.
  - specialize (IH H). lia.
Qed.

Lemma length_set {V} (k : string) (v : V) (d : dict V) :
  length (set k v d) = if mem k d then length d else S (length d).
Proof.
  unfold mem. induction d as [|[k' v'] d IH]; cbn; [reflexivity|].
  destruct (String.eqb k k'); cbn; [reflexivity|].
  rewrite IH. by destruct (get k d).
Qed.

Lemma mem_del_same {V} (k : string) (d : dict V) : mem k (del k d) = false.
Proof.
  unfold mem. induction d as [|[k' v'] d IH]; cbn; [reflexivity|].
  destruct (String.eqb k k') eqn:E; cbn; [exact IH|]. by rewrite E.
Qed.

Lemma get_del_other {V} (k k' : string) (d : dict V) :
  k ≠ k' → get k' (del k d) = get k' d.
Proof.
  intros Hne. induction d as [|[k1 v1] d IH]; cbn; [reflexivity|].
  destruct (String.eqb_spec k k1) as [->|Hk]; cbn.
  - destruct (String.eqb_spec k' k1) as [->|_]; [contradiction | exact IH].
  - by rewrite IH.
Qed.

Lemma mem_del {V} (k k' : string) (d : dict V) :
  mem k' (del k d) = true → mem k' d = true.
Proof.
  destruct (String.eqb_spec k k') as [->|Hne].
  - by rewrite mem_del_same.
  - unfold mem. by rewrite get_del_other.
Qed.

Lemma get_set_same {V} (k : string) (v : V) (d : dict V) :
  get k (set k v d) = Some v.
Proof.
  induction d as [|[k' v'] d IH]; cbn.
  - by rewrite String.eqb_refl.
  - destruct (String.eqb k k') eqn:E; cbn; [by rewrite String.eqb_refl|].
    by rewrite E.
Qed.

Lemma get_set_other {V} (k k' : string) (v : V) (d : dict V) :
  k ≠ k' → get k' (set k v d) = get k' d.
Proof.
  intros Hne. induction d as [|[k1 v1] d IH]; cbn.
  - by destruct (String.eqb_spec k' k) as [->|_].
  - destruct (String.eqb_spec k k1) as [->|Hk]; cbn.
    + by destruct (String.eqb_spec k' k1) as [->|_].
    + by rewrite IH.
Qed.

Lemma mem_del_eq {V} (k k' : string) (d : dict V) :
  mem k' (del k d) = if String.eqb k k' then false else mem k' d.
Proof.
  destruct (String.eqb_spec k k') as [->|Hne].
  - apply mem_del_same.
  - unfold mem. by rewrite get_del_other.
Qed.

Lemma mem_set_eq {V} (k k' : string) (v : V) (d : dict V) :
  mem k' (set k v d) = if String.eqb k k' then true else mem k' d.
Proof.
  destruct (String.eqb_spec k k') as [->|Hne]; unfold mem.
  - by rewrite get_set_same.
  - by rewrite get_set_other.
Qed.

Lemma keys_del_elem {V} (k x : string) (d : dict V) :
  x ∈ keys (del k d) → x ∈ keys d.
Proof. rewrite <- !mem_keys. apply mem_del. Qed.

Lemma keys_cons {V} (k : string) (v : V) (d : dict V) :
  keys ((k, v) :: d) = k :: keys d.
Proof. reflexivity. Qed.

Lemma NoDup_keys_del {V} (k : string) (d : dict V) :
  NoDup (keys d) → NoDup (keys (del k d)).
Proof.
  induction d as [|[k' v'] d IH]; [done|].
  rewrite keys_cons. intros [Hk' Hnd]%NoDup_cons. cbn [del].
  destruct (String.eqb k k'); [by apply IH|].
  rewrite keys_cons. apply NoDup_cons. split; [|by apply IH].
  intros Hin. by apply keys_del_elem in Hin.
Qed.

Lemma NoDup_keys_set {V} (k : string) (v : V) (d : dict V) :
  NoDup (keys d) → NoDup (keys (set k v d)).
Proof.
  induction d as [|[k' v'] d IH].
  - intros _. apply NoDup_singleton.
  - rewrite keys_cons. intros [Hk' Hnd]%NoDup_cons. cbn [set].
    destruct (String.eqb_spec k k') as [->|Hne]; rewrite keys_cons;
      apply NoDup_cons; [done|].
    split; [|by apply IH]. rewrite <- mem_keys, mem_set_eq.
    rewrite (proj2 (String.eqb_neq _ _) Hne). by rewrite mem_keys.
Qed.

(** ** The minimum scan *)

Lemma Qltb_false (x y : Q) : Qltb x y = false → (y <= x)%Q.
Proof.
  unfold Qltb. intros H. apply negb_false_iff in H. by apply Qle_bool_iff.
Qed.

Lemma Qltb_true (x y : Q) : Qltb x y = true ↔ (x < y)%Q.
Proof.
  unfold Qltb. rewrite negb_true_iff. split; intros H.
  - apply Qnot_le_lt. intros Hle. apply Qle_bool_iff in Hle. congruence.
  - destruct (Qle_bool y x) eqn:E; [|reflexivity].
    apply Qle_bool_iff in E. by apply Qlt_not_le in H.
Qed.

Lemma min_scan_in (best : string * Q) (rest : dict Q) :
  min_scan best rest ∈ best :: rest.
Proof.
  revert best. induction rest as [|e rest IH]; intros best; cbn.
  - left.
  - specialize (IH (if Qltb e.2 best.2 then e else best)).
    apply elem_of_cons in IH as [->|IH].
    + destruct (Qltb e.2 best.2); [right; left | left].
    + right; by right.
Qed.

Lemma min_scan_le_best (best : string * Q) (rest : dict Q) :
  ((min_scan best rest).2 <= best.2)%Q.
Proof.
  revert best. induction rest as [|e rest IH]; intros best; cbn.
  - apply Qle_refl.
  - eapply Qle_trans; [apply IH|].
    destruct (Qltb e.2 best.2) eqn:E; [|apply Qle_refl].
    apply Qlt_le_weak. by apply Qltb_true.
Qed.

Lemma min_scan_least (best : string * Q) (rest : dict Q) (e : string * Q) :
  e ∈ best :: rest → ((min_scan best rest).2 <= e.2)%Q.
Proof.
  revert best. induction rest as [|e' rest IH]; intros best He.
  - apply list_elem_of_singleton in He as ->. apply Qle_refl.
  - cbn. apply elem_of_cons in He as [->|He].
    + eapply Qle_trans; [apply min_scan_le_best|].
      destruct (Qltb e'.2 best.2) eqn:E; [|apply Qle_refl].
      apply Qlt_le_weak. by apply Qltb_true.
    + apply elem_of_cons in He as [->|He].
      * eapply Qle_trans; [apply min_scan_le_best|].
        destruct (Qltb e'.2 best.2) eqn:E; [apply Qle_refl|].
        by apply Qltb_false.
      * apply IH. by right.
Qed.

Lemma min_by_value_spec (d : dict Q) :
  d ≠ [] →
  ∃ k t, min_by_value d = Some k ∧ (k, t) ∈ d ∧
         ∀ k' t', (k', t') ∈ d → (t <= t')%Q.
Proof.
  destruct d as [|e rest]; [done|]. intros _.
  exists (min_scan e rest).1, (min_scan e rest).2. split; [reflexivity|].
  split.
  - rewrite <- surjective_pairing. apply min_scan_in.
  - intros k' t' H. apply (min_scan_least e rest (k', t') H).
Qed.

(** ** The selector *)

Lemma select_first_Some (preference : list string) (elements : gset Z)
    (model_name : string) :
  select_first preference elements = Some model_name ↔
  ∃ before after,
    preference = (before ++ model_name :: after)%list ∧
    elements ⊆ get_supported_elements model_name ∧
    ∀ m, m ∈ before → ¬ elements ⊆ get_supported_elements m.
Proof.
  induction preference as [|p rest IH]; cbn.
  - split; [discriminate | intros ([|??] & ? & ? & _); discriminate].
  - case_bool_decide as Hp.
    + split.
      * intros [= <-]. exists [], rest. split_and!; [done..|].
        intros m Hm. inversion Hm.
      * intros ([|b before] & after & Heq & Hsub & Hfirst); cbn in Heq.
        -- by injection Heq as ->.
        -- injection Heq as -> _. exfalso. apply (Hfirst b); [left | done].
    + rewrite IH. split.
      * intros (before & after & -> & Hsub & Hfirst).
        exists (p :: before), after. split_and!; [done..|].
        intros m Hm. apply elem_of_cons in Hm as [->|Hm]; auto.
      * intros ([|b before] & after & Heq & Hsub & Hfirst); cbn in Heq.
        -- injection Heq as -> _. contradiction.
        -- injection Heq as -> ->. exists before, after. split_and!; [done..|].
           intros m Hm. apply Hfirst. by right.
Qed.

Lemma select_first_None (preference : list string) (elements : gset Z) :
  select_first preference elements = None ↔
  ∀ m, m ∈ preference → ¬ elements ⊆ get_supported_elements m.
Proof.
  induction preference as [|p rest IH]; cbn.
  - split; [intros _ m Hm; inversion Hm | done].
  - case_bool_decide as Hp.
    + split; [discriminate | intros H]. exfalso. apply (H p); [left | done].
    + rewrite IH. split.
      * intros H m Hm. apply elem_of_cons in Hm as [->|Hm]; auto.
      * intros H m Hm. apply H. by right.
Qed.

(** C7. [select_best_model] walks the fixed preference order
    ["ANI2x"; "ANI1ccx"; "ANI1x"]: it returns [Some m] exactly when [m] is
    the first model of that order whose supported element set contains
    every required element, and it returns [None] (no exception) exactly
    when no model of the order qualifies. *)
Theorem select_best_model_first_superset (elements : gset Z) :
  (∀ model_name,
      select_best_model elements = Some model_name ↔
      ∃ before after,
        model_preference = (before ++ model_name :: after)%list ∧
        elements ⊆ get_supported_elements model_name ∧
        ∀ m, m ∈ before → ¬ elements ⊆ get_supported_elements m) ∧
  (select_best_model elements = None ↔
   ∀ m, m ∈ model_preference → ¬ elements ⊆ get_supported_elements m).
Proof.
  split.
  - intros model_name. apply select_first_Some.
  - apply select_first_None.
Qed.

(** C9. The supported set of ANI2x contains those of ANI1ccx and ANI1x and
    ANI2x comes first in the preference order, so [select_best_model]
    answers ["ANI2x"] or [None] and never one of the other two names. *)
Theorem select_best_model_only_ANI2x (elements : gset Z) :
  get_supported_elements "ANI1ccx" ⊆ get_supported_elements "ANI2x" ∧
  get_supported_elements "ANI1x" ⊆ get_supported_elements "ANI2x" ∧
  (select_best_model elements = Some "ANI2x" ∨
   select_best_model elements = None) ∧
  select_best_model elements ≠ Some "ANI1ccx" ∧
  select_best_model elements ≠ Some "ANI1x".
Proof.
  assert (H1 : get_supported_elements "ANI1ccx" ⊆ get_supported_elements "ANI2x")
    by (apply (bool_decide_unpack _); by vm_compute).
  assert (H2 : get_supported_elements "ANI1x" ⊆ get_supported_elements "ANI2x")
    by (apply (bool_decide_unpack _); by vm_compute).
  assert (H : select_best_model elements = Some "ANI2x" ∨
              select_best_model elements = None).
  { unfold select_best_model, model_preference, select_first.
    case_bool_decide as Ha; [by left|].
    case_bool_decide as Hb; [exfalso; apply Ha; by transitivity
      (get_supported_elements "ANI1ccx")|].
    case_bool_decide as Hc; [exfalso; apply Ha; by transitivity
      (get_supported_elements "ANI1x")|].
    by right. }
  split_and!; [done..| |]; destruct H as [-> | ->]; discriminate.
Qed.

(** ** Running the monad *)

Lemma run_bind {A B} (m : M A) (k : A → M B) (s : State) :
  (m ≫= k) s =
  match m s with
  | (Returned a, s') => k a s'
  | (Raised e, s') => (Raised e, s')
  | (OutOfFuel, s') => (OutOfFuel, s')
  end.
Proof. reflexivity. Qed.

Section StepRules.
Context (R : relation State) `{!PreOrder R}.

Lemma steps_ret {A} (a : A) : steps R (mret a : M A).
Proof. intros s. reflexivity. Qed.

Lemma steps_throw {A} (e : exn) : steps R (mthrow e : M A).
Proof. intros s. reflexivity. Qed.

Lemma steps_gets {A} (f : State → A) : steps R (gets f).
Proof. intros s. reflexivity. Qed.

Lemma steps_out_of_fuel {A} : steps R (out_of_fuel : M A).
Proof. intros s. reflexivity. Qed.

Lemma steps_bind {A B} (m : M A) (k : A → M B) :
  steps R m → (∀ a, steps R (k a)) → steps R (m ≫= k).
Proof.
  intros Hm Hk s. rewrite run_bind. specialize (Hm s).
  destruct (m s) as [[a|e|] s1]; cbn in *; [|done..].
  transitivity s1; [exact Hm | apply Hk].
Qed.

Lemma steps_try_except {A} (body : M A) (handler : exn → M A) :
  steps R body → (∀ e, steps R (handler e)) → steps R (try_except body handler).
Proof.
  intros Hb Hh s. unfold try_except. specialize (Hb s).
  destruct (body s) as [[a|e|] s1]; cbn in *; [done| |done].
  transitivity s1; [exact Hb | apply Hh].
Qed.

Lemma steps_try_finally {A} (body : M A) (final : M unit) :
  steps R body → steps R final → steps R (try_finally body final).
Proof.
  intros Hb Hf s. unfold try_finally. specialize (Hb s).
  destruct (body s) as [[a|e|] s1]; cbn in *; [| |done].
  all: specialize (Hf s1); destruct (final s1) as [[[]|e'|] s2]; cbn in *.
  all: by transitivity s1.
Qed.

Lemma steps_for_each {A} (xs : list A) (body : A → M unit) :
  (∀ x, steps R (body x)) → steps R (for_each xs body).
Proof.
  intros Hb. induction xs as [|x xs IH]; cbn.
  - apply steps_ret.
  - apply steps_bind; [apply Hb | intros _; exact IH].
Qed.

End StepRules.

Lemma steps_weaken {A} (R1 R2 : relation State) (m : M A) :
  (∀ s s', R1 s s' → R2 s s') → steps R1 m → steps R2 m.
Proof. intros H Hm s. apply H, Hm. Qed.

(** ** The relations are preorders *)

Global Instance same_books_preorder : PreOrder same_books.
Proof.
  split.
  - by intros s.
  - intros s1 s2 s3 [H1 H2] [H3 H4]. split; congruence.
Qed.

Global Instance quiet_preorder : PreOrder quiet.
Proof.
  split.
  - intros s. split; [done|]. exists []. by rewrite app_nil_r.
  - intros s1 s2 s3 [H1 (e1 & T1 & F1)] [H2 (e2 & T2 & F2)].
    split; [congruence|]. exists (e1 ++ e2)%list. split.
    + by rewrite T2, T1, app_assoc.
    + by apply Forall_app.
Qed.

Global Instance idle_preorder : PreOrder idle.
Proof.
  split.
  - intros s. split; reflexivity.
  - intros s1 s2 s3 [H1 H2] [H3 H4]. split; by etransitivity.
Qed.

Global Instance shrinks_preorder : PreOrder shrinks.
Proof.
  split.
  - intros s. split_and!; [done..|reflexivity].
  - intros s1 s2 s3 (A1 & B1 & C1 & D1) (A2 & B2 & C2 & D2).
    split_and!; [auto | auto | lia | by etransitivity].
Qed.

Global Instance keeps_consistent_preorder : PreOrder keeps_consistent.
Proof. split; unfold keeps_consistent; [by intros s | intros s1 s2 s3; auto]. Qed.

Global Instance extends_trace_preorder : PreOrder extends_trace.
Proof.
  split; unfold extends_trace; [by intros s | intros s1 s2 s3; apply transitivity].
Qed.

Global Instance no_growth_preorder : PreOrder no_growth.
Proof. split; unfold no_growth; [by intros s | intros s1 s2 s3; lia]. Qed.

Lemma idle_shrinks (s s' : State) : idle s s' → shrinks s s'.
Proof.
  intros [[Hm Hl] Hq]. split_and!; [| | |done]; rewrite ?Hm, ?Hl; auto.
Qed.

Lemma idle_keeps_consistent (s s' : State) : idle s s' → keeps_consistent s s'.
Proof. intros [[Hm Hl] _] H k. by rewrite Hm, Hl. Qed.

Lemma idle_no_growth (s s' : State) : idle s s' → no_growth s s'.
Proof. intros [[Hm _] _]. unfold no_growth. by rewrite Hm. Qed.

Lemma shrinks_no_growth (s s' : State) : shrinks s s' → no_growth s s'.
Proof. by intros (_ & _ & H & _). Qed.

(** ** The external calls touch neither dictionary *)

Lemma idle_event (e : event) (s : State) :
  is_loader_event e = false → idle s (with_event e s).
Proof.
  intros He. split; [done|]. split; [done|]. exists [e]. split; [done|].
  by apply Forall_singleton.
Qed.

Lemma idle_tick_clock (s : State) : idle s (tick_clock s).
Proof. split; [done|]. split; [done|]. exists []. cbn. by rewrite app_nil_r. Qed.

Lemma idle_tick_gauge (s : State) : idle s (tick_gauge s).
Proof. split; [done|]. split; [done|]. exists []. cbn. by rewrite app_nil_r. Qed.

Lemma idle_tick_redis (s : State) : idle s (tick_redis s).
Proof. split; [done|]. split; [done|]. exists []. cbn. by rewrite app_nil_r. Qed.

Lemma steps_emit (e : event) : is_loader_event e = false → steps idle (emit e).
Proof. intros He s. by apply idle_event. Qed.

Lemma steps_now (env : Env) : steps idle (now env).
Proof. intros s. apply idle_tick_clock. Qed.

Lemma steps_gpu_memory_usage (env : Env) : steps idle (_get_gpu_memory_usage env).
Proof.
  intros s. unfold _get_gpu_memory_usage.
  destruct (cuda_available env); cbn; [apply idle_tick_gauge | reflexivity].
Qed.

Lemma steps_check_memory_pressure (settings : Settings) (env : Env) :
  steps idle (_check_memory_pressure settings env).
Proof.
  apply (steps_bind idle); [apply steps_gpu_memory_usage |].
  intros usage. apply (steps_ret idle).
Qed.

Lemma steps_redis_call (env : Env) (cmd : redis_cmd) (key : string) :
  steps idle (redis_call env cmd key).
Proof.
  intros s. unfold redis_call.
  assert (idle s (with_event (ERedis cmd key) (tick_redis s))).
  { transitivity (tick_redis s); [apply idle_tick_redis | by apply idle_event]. }
  by destruct (redis_up env (redis_i s)).
Qed.

(** ** What [_unload_model] computes *)

Lemma unload_run (env : Env) (model_name : string) (s : State) :
  _unload_model env model_name s =
  if mem model_name (models_in_memory s) then
    let s1 :=
      with_models (del model_name)
        (with_event
           (ELogInfo ("Unloading model " ++ model_name ++ " from GPU memory")) s) in
    if mem model_name (model_last_used s) then
      (if redis_up env (redis_i s) then Returned tt else Raised RedisError,
       with_event (ERedis DELETE (metadata_key model_name))
         (tick_redis
            (with_event (EFree model_name)
               (with_last_used (del model_name) s1))))
    else (Raised (KeyError model_name), s1)
  else (Returned tt, s).
Proof.
  unfold _unload_model, mbind, M_bind, gets, emit, modify, redis_call,
    mret, M_ret, mthrow, M_throw. cbn.
  destruct (mem model_name (models_in_memory s)); [|reflexivity]. cbn.
  destruct (mem model_name (model_last_used s)); [|reflexivity]. cbn.
  by destruct (redis_up env (redis_i s)).
Qed.

(** ** Methods that only evict *)

Section Eviction.
Context (settings : Settings) (env : Env).
Context (R : relation State) `{!PreOrder R}.
Hypothesis R_idle : ∀ s s', idle s s' → R s s'.
Hypothesis R_del : ∀ n s,
  mem n (models_in_memory s) = true → mem n (model_last_used s) = true →
  R s (with_last_used (del n) (with_models (del n) s)).
Hypothesis R_del_untimed : ∀ n s,
  mem n (models_in_memory s) = true → mem n (model_last_used s) = false →
  R s (with_models (del n) s).

Lemma steps_unload_model (model_name : string) :
  steps R (_unload_model env model_name).
Proof.
  intros s. rewrite unload_run.
  destruct (mem model_name (models_in_memory s)) eqn:Hm; [|reflexivity].
  set (s0 := with_event (ELogInfo _) s).
  assert (H0 : R s s0) by (by apply R_idle, idle_event).
  destruct (mem model_name (model_last_used s)) eqn:Hl; cbn [snd].
  - transitivity s0; [exact H0|].
    transitivity (with_last_used (del model_name) (with_models (del model_name) s0));
      [by apply R_del|].
    apply R_idle.
    etransitivity; [|apply idle_event; reflexivity].
    etransitivity; [|apply idle_tick_redis].
    by apply idle_event.
  - transitivity s0; [exact H0 | by apply R_del_untimed].
Qed.

Lemma steps_evict_oldest_model : steps R (_evict_oldest_model env).
Proof.
  unfold _evict_oldest_model.
  apply (steps_bind R); [apply (steps_gets R)|]. intros [|entry models].
  { apply (steps_ret R). }
  apply (steps_bind R); [apply (steps_gets R)|]. intros last_used.
  destruct (min_by_value last_used) as [oldest_model|].
  - apply (steps_bind R); [|intros _; apply steps_unload_model].
    eapply steps_weaken; [exact R_idle | by apply steps_emit].
  - apply (steps_throw R).
Qed.

Lemma steps_pressure_loop (fuel : nat) : steps R (pressure_loop settings env fuel).
Proof.
  induction fuel as [|fuel IH]; cbn [pressure_loop].
  - apply (steps_out_of_fuel R).
  - apply (steps_bind R).
    { eapply steps_weaken; [exact R_idle | apply steps_check_memory_pressure]. }
    intros pressure. apply (steps_bind R); [apply (steps_gets R)|].
    intros [|entry models]; destruct pressure; try apply (steps_ret R).
    apply (steps_bind R); [apply steps_evict_oldest_model | intros _; exact IH].
Qed.

Lemma steps_limit_loop (fuel : nat) : steps R (limit_loop settings env fuel).
Proof.
  induction fuel as [|fuel IH]; cbn [limit_loop].
  - apply (steps_out_of_fuel R).
  - apply (steps_bind R); [apply (steps_gets R)|]. intros n.
    destruct (model_max_loaded settings <=? n)%Z; [|apply (steps_ret R)].
    apply (steps_bind R); [apply steps_evict_oldest_model | intros _; exact IH].
Qed.

Lemma steps_close : steps R (close env).
Proof.
  unfold close. apply (steps_bind R).
  { eapply steps_weaken; [exact R_idle | apply steps_redis_call]. }
  intros _. apply (steps_bind R); [apply (steps_gets R)|]. intros names.
  apply (steps_for_each R). apply steps_unload_model.
Qed.

End Eviction.

Lemma quiet_same_world (s s' : State) :
  loader_i s' = loader_i s → trace s' = trace s → quiet s s'.
Proof. intros Hl Ht. split; [done|]. exists []. by rewrite app_nil_r. Qed.

Lemma shrinks_del (n : string) (s : State) :
  shrinks s (with_last_used (del n) (with_models (del n) s)).
Proof.
  split_and!; cbn;
    [intros k; apply mem_del.. | apply length_del | by apply quiet_same_world].
Qed.

Lemma shrinks_del_untimed (n : string) (s : State) :
  shrinks s (with_models (del n) s).
Proof.
  split_and!; cbn;
    [intros k; apply mem_del | done | apply length_del | by apply quiet_same_world].
Qed.

Lemma keeps_consistent_del (n : string) (s : State) :
  keeps_consistent s (with_last_used (del n) (with_models (del n) s)).
Proof. intros H k. cbn. by rewrite !mem_del_eq, H. Qed.

Lemma keeps_consistent_del_untimed (n : string) (s : State) :
  mem n (models_in_memory s) = true → mem n (model_last_used s) = false →
  keeps_consistent s (with_models (del n) s).
Proof. intros Hm Hl H. rewrite H in Hm. congruence. Qed.

Lemma keeps_consistent_store (n : string) (h : handle) (t : Q) (s : State) :
  keeps_consistent s
    (with_last_used (set n t) (tick_clock (with_models (set n h) s))).
Proof. intros H k. cbn. by rewrite !mem_set_eq, H. Qed.

Lemma keeps_consistent_touch (n : string) (t : Q) (s : State) :
  mem n (models_in_memory s) = true →
  keeps_consistent s (with_last_used (set n t) s).
Proof.
  intros Hm H k. cbn. rewrite mem_set_eq, H.
  destruct (String.eqb_spec n k) as [<-|_]; [|done]. by rewrite <- H.
Qed.

Lemma quiet_extends_trace (s s' : State) : quiet s s' → extends_trace s s'.
Proof.
  intros [_ (evs & Ht & _)]. unfold extends_trace. rewrite Ht.
  by apply prefix_app_r.
Qed.

Lemma shrinks_extends_trace (s s' : State) : shrinks s s' → extends_trace s s'.
Proof. intros (_ & _ & _ & H). by apply quiet_extends_trace. Qed.

(** ** What the straight-line parts of the methods compute *)

Lemma store_run {A} (env : Env) (f : dict handle → dict handle)
    (g : Q → dict Q → dict Q) (k : M A) (s : State) :
  (modify (with_models f);; t ← now env; modify (with_last_used (g t));; k) s =
  k (with_last_used (g (time_time env (clock_i s))) (tick_clock (with_models f s))).
Proof. reflexivity. Qed.

Lemma release_run (env : Env) (model_name : string) (s : State) :
  release env model_name s =
  if mem model_name (models_in_memory s)
  then (Returned tt,
        with_last_used (set model_name (time_time env (clock_i s))) (tick_clock s))
  else (Returned tt, s).
Proof.
  unfold release, mbind, M_bind, gets. cbn.
  by destruct (mem model_name (models_in_memory s)).
Qed.

Lemma get_model_hit (settings : Settings) (env : Env) (fuel : nat)
    (model_name : string) (s : State) :
  mem model_name (models_in_memory s) = true →
  get_model settings env fuel model_name s =
  (if redis_up env (redis_i s)
   then match get model_name (models_in_memory s) with
        | Some model => Returned model
        | None => Raised (KeyError model_name)
        end
   else Raised RedisError,
   with_event
     (ERedis (EXPIRE (redis_model_ttl settings)) (metadata_key model_name))
     (tick_redis
        (with_last_used (set model_name (time_time env (clock_i s)))
           (tick_clock s)))).
Proof.
  intros Hm. unfold get_model, mbind, M_bind, gets, modify, redis_call, now,
    mret, M_ret, mthrow, M_throw. cbn.
  rewrite Hm. cbn. destruct (redis_up env (redis_i s)); [|reflexivity].
  simpl. by destruct (get model_name (models_in_memory s)).
Qed.

Lemma get_model_miss (settings : Settings) (env : Env) (fuel : nat)
    (model_name : string) (s : State) :
  mem model_name (models_in_memory s) = false →
  get_model settings env fuel model_name s =
  (redis_call env GET (metadata_key model_name);;
   _load_model settings env fuel model_name) s.
Proof.
  intros Hm. unfold get_model. rewrite run_bind. cbn [gets]. rewrite Hm.
  rewrite !run_bind.
  destruct (redis_call env GET (metadata_key model_name) s) as [[[]|e|] s'];
    reflexivity.
Qed.

(** ** Methods that may also load *)

Section Loading.
Context (settings : Settings) (env : Env).
Context (R : relation State) `{!PreOrder R}.
Hypothesis R_idle : ∀ s s', idle s s' → R s s'.
Hypothesis R_del : ∀ n s,
  mem n (models_in_memory s) = true → mem n (model_last_used s) = true →
  R s (with_last_used (del n) (with_models (del n) s)).
Hypothesis R_del_untimed : ∀ n s,
  mem n (models_in_memory s) = true → mem n (model_last_used s) = false →
  R s (with_models (del n) s).
Hypothesis R_loader : ∀ n ok s, R s (with_event (ELoader n ok) (tick_loader s)).
Hypothesis R_store : ∀ n h t s,
  R s (with_last_used (set n t) (tick_clock (with_models (set n h) s))).
Hypothesis R_touch : ∀ n t s,
  mem n (models_in_memory s) = true → R s (with_last_used (set n t) s).

Lemma steps_torchani_load (model_name : string) :
  steps R (torchani_load env model_name).
Proof.
  intros s. unfold torchani_load.
  destruct (loader_ok env (loader_i s)); apply R_loader.
Qed.

Lemma steps_loading (model_name : string) : steps R (loading settings env model_name).
Proof.
  assert (Hrest : ∀ model : handle, steps R
    (loaded_at ← now env;
     memory_usage ← _get_gpu_memory_usage env;
     redis_call env (SETEX (redis_model_ttl settings))
       (metadata_key model_name);;
     emit (ELogInfo ("Model " ++ model_name ++ " loaded successfully"));;
     mret model)).
  { intros model. eapply steps_weaken; [exact R_idle|].
    apply (steps_bind idle); [apply steps_now|]. intros _.
    apply (steps_bind idle); [apply steps_gpu_memory_usage|]. intros _.
    apply (steps_bind idle); [apply steps_redis_call|]. intros _.
    apply (steps_bind idle); [by apply steps_emit|]. intros _.
    apply (steps_ret idle). }
  unfold loading. apply (steps_try_except R).
  - apply (steps_bind R).
    { repeat case_match; first [apply steps_torchani_load | apply (steps_throw R)]. }
    intros model s. rewrite store_run.
    etransitivity; [apply (R_store model_name model (time_time env (clock_i s)))|].
    apply (Hrest model).
  - intros e. apply (steps_bind R).
    + eapply steps_weaken; [exact R_idle | by apply steps_emit].
    + intros _. apply (steps_throw R).
Qed.

Lemma steps_load_model (fuel : nat) (model_name : string) :
  steps R (_load_model settings env fuel model_name).
Proof.
  unfold _load_model. apply (steps_bind R).
  { eapply steps_weaken; [exact R_idle | by apply steps_emit]. }
  intros _. apply (steps_bind R); [by apply steps_pressure_loop|].
  intros _. apply (steps_bind R); [by apply steps_limit_loop|].
  intros _. apply steps_loading.
Qed.

Lemma steps_get_model (fuel : nat) (model_name : string) :
  steps R (get_model settings env fuel model_name).
Proof.
  intros s. destruct (mem model_name (models_in_memory s)) eqn:Hm.
  - rewrite get_model_hit by done. cbn [snd].
    transitivity (tick_clock s); [apply R_idle, idle_tick_clock|].
    etransitivity; [by apply (R_touch model_name (time_time env (clock_i s)))|].
    apply R_idle. etransitivity; [apply idle_tick_redis | by apply idle_event].
  - rewrite get_model_miss by done. revert s Hm.
    assert (H : steps R (redis_call env GET (metadata_key model_name);;
                         _load_model settings env fuel model_name)).
    { apply (steps_bind R); [|intros _; apply steps_load_model].
      eapply steps_weaken; [exact R_idle | apply steps_redis_call]. }
    intros s _. apply H.
Qed.

Lemma steps_release (model_name : string) : steps R (release env model_name).
Proof.
  intros s. rewrite release_run.
  destruct (mem model_name (models_in_memory s)) eqn:Hm; [|reflexivity].
  cbn [snd]. transitivity (tick_clock s); [apply R_idle, idle_tick_clock|].
  by apply (R_touch model_name (time_time env (clock_i s))).
Qed.

Lemma steps_get_model_context {A} (fuel : nat) (model_name : string)
    (body : handle → M A) :
  (∀ model, steps R (body model)) →
  steps R (get_model_context settings env fuel model_name body).
Proof.
  intros Hbody. unfold get_model_context.
  apply (steps_bind R); [apply steps_get_model|]. intros model.
  apply (steps_try_finally R); [apply Hbody | apply steps_release].
Qed.

End Loading.

(** ** Every method keeps the two key sets equal *)

Lemma consistent_init : consistent init_state.
Proof. by intros k. Qed.

Lemma keeps_consistent_loader (n : string) (ok : bool) (s : State) :
  keeps_consistent s (with_event (ELoader n ok) (tick_loader s)).
Proof. by intros H k. Qed.

(** C10. Every cache operation ([get_model], [_load_model],
    [_unload_model], the release block and the whole of
    [get_model_context], [close]) started in a state where the key set of
    [models_in_memory] equals the key set of [model_last_used] ends,
    whatever its outcome, in a state where they are equal again.  The body
    run inside [get_model_context] is any code that keeps them equal. *)
Theorem operations_keep_key_sets_equal (settings : Settings) (env : Env)
    (s : State) :
  consistent s →
  (∀ fuel model_name,
      consistent (get_model settings env fuel model_name s).2) ∧
  (∀ fuel model_name,
      consistent (_load_model settings env fuel model_name s).2) ∧
  (∀ model_name, consistent (_unload_model env model_name s).2) ∧
  (∀ model_name, consistent (release env model_name s).2) ∧
  (∀ A fuel model_name (body : handle → M A),
      (∀ model s1, consistent s1 → consistent (body model s1).2) →
      consistent (get_model_context settings env fuel model_name body s).2) ∧
  consistent (close env s).2.
Proof.
  intros Hs.
  pose proof idle_keeps_consistent as H1.
  pose proof (λ n s (_ : mem n (models_in_memory s) = true)
                (_ : mem n (model_last_used s) = true),
              keeps_consistent_del n s) as H2.
  pose proof keeps_consistent_del_untimed as H3.
  pose proof keeps_consistent_loader as H4.
  pose proof keeps_consistent_store as H5.
  pose proof keeps_consistent_touch as H6.
  split_and!.
  - intros fuel n.
    by apply (steps_get_model settings env keeps_consistent H1 H2 H3 H4 H5 H6).
  - intros fuel n.
    by apply (steps_load_model settings env keeps_consistent H1 H2 H3 H4 H5).
  - intros n. by apply (steps_unload_model env keeps_consistent H1 H2 H3).
  - intros n. by apply (steps_release env keeps_consistent H1 H6).
  - intros A fuel n body Hbody.
    by apply (steps_get_model_context settings env keeps_consistent
                H1 H2 H3 H4 H5 H6 fuel n body).
  - by apply (steps_close env keeps_consistent H1 H2 H3).
Qed.

Lemma operations_keep_key_sets_equal_witness :
  consistent two_resident ∧
  consistent (get_model default_settings env_steady 2 "ANI1ccx" two_resident).2.
Proof.
  assert (H : consistent two_resident).
  { intros k. unfold mem. cbn.
    by destruct (String.eqb k "ANI2x"), (String.eqb k "ANI1x"). }
  split; [exact H|].
  exact (proj1 (operations_keep_key_sets_equal default_settings env_steady
                  two_resident H) 2%nat "ANI1ccx").
Defined.

(** ** What [loading] computes *)

Lemma registered_cases (model_name : string) :
  registered model_name = true →
  model_name = "ANI1ccx" ∨ model_name = "ANI2x" ∨ model_name = "ANI1x".
Proof.
  unfold registered. rewrite !orb_true_iff, !String.eqb_eq. tauto.
Qed.

Lemma loading_run (settings : Settings) (env : Env) (model_name : string)
    (s : State) :
  loading settings env model_name s =
  if registered model_name then
    if loader_ok env (loader_i s) then
      let s1 :=
        with_last_used (set model_name (time_time env (clock_i s)))
          (tick_clock
             (with_models (set model_name (loader_i s))
                (with_event (ELoader model_name true) (tick_loader s)))) in
      let s2 :=
        with_event
          (ERedis (SETEX (redis_model_ttl settings))
             (metadata_key model_name))
          (tick_redis
             ((if cuda_available env then tick_gauge else id) (tick_clock s1))) in
      if redis_up env (redis_i s)
      then (Returned (loader_i s),
            with_event
              (ELogInfo ("Model " ++ model_name ++ " loaded successfully")) s2)
      else (Raised RedisError,
            with_event
              (ELogError ("Failed to load model " ++ model_name) RedisError) s2)
    else
      (Raised (LoaderError model_name),
       with_event
         (ELogError ("Failed to load model " ++ model_name)
            (LoaderError model_name))
         (with_event (ELoader model_name false) (tick_loader s)))
  else
    (Raised (ValueError ("Unknown model: " ++ model_name)),
     with_event
       (ELogError ("Failed to load model " ++ model_name)
          (ValueError ("Unknown model: " ++ model_name))) s).
Proof.
  destruct (registered model_name) eqn:Hreg.
  - unfold loading, try_except, mbind, M_bind, torchani_load, modify, now,
      _get_gpu_memory_usage, redis_call, emit, mret, M_ret, mthrow, M_throw.
    apply registered_cases in Hreg as [-> | [-> | ->]]; cbn;
      destruct (loader_ok env (loader_i s)); try reflexivity;
      destruct (cuda_available env); cbn;
      destruct (redis_up env (redis_i s)); reflexivity.
  - unfold registered in Hreg. apply orb_false_iff in Hreg as [Hreg H3].
    apply orb_false_iff in Hreg as [H1 H2].
    unfold loading, try_except, mbind, M_bind. rewrite H1, H2, H3. reflexivity.
Qed.

(** ** The slot limit *)

Lemma limit_loop_returns (settings : Settings) (env : Env) (fuel : nat)
    (s : State) :
  (limit_loop settings env fuel s).1 = Returned tt →
  (len (models_in_memory (limit_loop settings env fuel s).2)
   < model_max_loaded settings)%Z.
Proof.
  revert s. induction fuel as [|fuel IH]; intros s; cbn [limit_loop].
  - discriminate.
  - rewrite run_bind. cbn [gets].
    destruct (Z.leb_spec (model_max_loaded settings) (len (models_in_memory s)))
      as [Hle|Hlt].
    + rewrite run_bind.
      destruct (_evict_oldest_model env s) as [[[]|e|] s1]; cbn; try discriminate.
      apply IH.
    + intros _. exact Hlt.
Qed.

Lemma steps_shrinks_unload (env : Env) (model_name : string) :
  steps shrinks (_unload_model env model_name).
Proof.
  apply (steps_unload_model env shrinks idle_shrinks).
  - intros n s _ _. apply shrinks_del.
  - intros n s _ _. apply shrinks_del_untimed.
Qed.

Lemma steps_shrinks_pressure_loop (settings : Settings) (env : Env) (fuel : nat) :
  steps shrinks (pressure_loop settings env fuel).
Proof.
  apply (steps_pressure_loop settings env shrinks idle_shrinks).
  - intros n s _ _. apply shrinks_del.
  - intros n s _ _. apply shrinks_del_untimed.
Qed.

Lemma steps_shrinks_limit_loop (settings : Settings) (env : Env) (fuel : nat) :
  steps shrinks (limit_loop settings env fuel).
Proof.
  apply (steps_limit_loop settings env shrinks idle_shrinks).
  - intros n s _ _. apply shrinks_del.
  - intros n s _ _. apply shrinks_del_untimed.
Qed.

(** [_load_model] first only evicts, reaching some state [s1]; either it
    stops there without returning, or a slot is free in [s1] and the rest of
    the call is [loading] run from [s1]. *)
Lemma load_model_run (settings : Settings) (env : Env) (fuel : nat)
    (model_name : string) (s : State) :
  ∃ s1, shrinks s s1 ∧
    (((_load_model settings env fuel model_name s).2 = s1 ∧
      ∀ model, (_load_model settings env fuel model_name s).1 ≠ Returned model) ∨
     ((len (models_in_memory s1) < model_max_loaded settings)%Z ∧
      _load_model settings env fuel model_name s = loading settings env model_name s1)).
Proof.
  unfold _load_model. rewrite run_bind. cbn [emit modify].
  set (s0 := with_event _ s).
  assert (H0 : shrinks s s0) by (by apply idle_shrinks, idle_event).
  rewrite run_bind.
  pose proof (steps_shrinks_pressure_loop settings env fuel s0) as H1.
  destruct (pressure_loop settings env fuel s0) as [[[]|e|] s1] eqn:E1;
    cbn [snd] in H1.
  2,3: exists s1; split; [by transitivity s0|]; left; by cbn.
  rewrite run_bind.
  pose proof (steps_shrinks_limit_loop settings env fuel s1) as H2.
  pose proof (limit_loop_returns settings env fuel s1) as H3.
  destruct (limit_loop settings env fuel s1) as [[[]|e|] s2] eqn:E2;
    cbn [fst snd] in H2, H3.
  2,3: exists s2; split; [by transitivity s0; [|transitivity s1]|]; left; by cbn.
  exists s2. split; [by transitivity s0; [|transitivity s1]|].
  right. split; [by apply H3 | reflexivity].
Qed.

(** ** The resident count never exceeds the capacity *)

Lemma within_capacity_no_growth (settings : Settings) (s s' : State) :
  no_growth s s' → within_capacity settings s → within_capacity settings s'.
Proof. unfold no_growth, within_capacity, len. lia. Qed.

Lemma within_capacity_loading (settings : Settings) (env : Env)
    (model_name : string) (s : State) :
  (len (models_in_memory s) < model_max_loaded settings)%Z →
  within_capacity settings (loading settings env model_name s).2.
Proof.
  intros Hlt. rewrite loading_run. unfold within_capacity, len in *.
  destruct (registered model_name); [|cbn; lia].
  destruct (loader_ok env (loader_i s)); [|cbn; lia].
  destruct (redis_up env (redis_i s)), (cuda_available env); simpl;
    rewrite length_set;
    destruct (mem model_name (models_in_memory s)); lia.
Qed.

Lemma within_capacity_load_model (settings : Settings) (env : Env)
    (fuel : nat) (model_name : string) (s : State) :
  within_capacity settings s →
  within_capacity settings (_load_model settings env fuel model_name s).2.
Proof.
  intros Hs.
  destruct (load_model_run settings env fuel model_name s)
    as (s1 & Hshr & [[-> _] | [Hlt ->]]).
  - eapply within_capacity_no_growth; [by apply shrinks_no_growth | done].
  - by apply within_capacity_loading.
Qed.

Lemma within_capacity_get_model (settings : Settings) (env : Env)
    (fuel : nat) (model_name : string) (s : State) :
  within_capacity settings s →
  within_capacity settings (get_model settings env fuel model_name s).2.
Proof.
  intros Hs. destruct (mem model_name (models_in_memory s)) eqn:Hm.
  - by rewrite get_model_hit.
  - rewrite get_model_miss, run_bind by done.
    pose proof (steps_redis_call env GET (metadata_key model_name) s) as Hr.
    destruct (redis_call env GET (metadata_key model_name) s) as [[b|e|] s0];
      cbn [snd] in Hr.
    1: apply within_capacity_load_model.
    all: eapply within_capacity_no_growth; [by apply idle_no_growth | done].
Qed.

Lemma within_capacity_release (settings : Settings) (env : Env)
    (model_name : string) (s : State) :
  within_capacity settings s →
  within_capacity settings (release env model_name s).2.
Proof.
  intros Hs. rewrite release_run.
  by destruct (mem model_name (models_in_memory s)).
Qed.

Lemma within_capacity_unload_model (settings : Settings) (env : Env)
    (model_name : string) (s : State) :
  within_capacity settings s →
  within_capacity settings (_unload_model env model_name s).2.
Proof.
  apply within_capacity_no_growth, shrinks_no_growth, steps_shrinks_unload.
Qed.

Lemma within_capacity_run_calls (settings : Settings) (env : Env)
    (calls : list call) (s : State) :
  within_capacity settings s →
  within_capacity settings (run_calls settings env calls s).
Proof.
  revert s. induction calls as [|c calls IH]; intros s Hs; [exact Hs|].
  cbn. apply IH. destruct c; cbn.
  - by apply within_capacity_get_model.
  - by apply within_capacity_release.
  - by apply within_capacity_unload_model.
Qed.

(** C1. Start from a fresh manager with a capacity [model_max_loaded] that
    is not negative and run any sequence of [get_model] (acquire), release
    and [_unload_model] (evict) calls, in any world and with any outcome of
    each call: after each call of the sequence the number of resident
    models is at most [model_max_loaded]. *)
Theorem resident_count_within_capacity (settings : Settings) (env : Env)
    (calls : list call) (n : nat) :
  (0 ≤ model_max_loaded settings)%Z →
  (len (models_in_memory (run_calls settings env (take n calls) init_state))
   ≤ model_max_loaded settings)%Z.
Proof.
  intros Hcap. by apply (within_capacity_run_calls settings env).
Qed.

Lemma resident_count_within_capacity_witness :
  (0 ≤ model_max_loaded default_settings)%Z ∧
  (len (models_in_memory
          (run_calls default_settings env_steady
             (take 3 [Acquire 1 "ANI2x"; Acquire 1 "ANI1x"; Acquire 1 "ANI1ccx";
                      Release "ANI1x"; Evict "ANI1ccx"])
             init_state))
   ≤ model_max_loaded default_settings)%Z.
Proof.
  assert (H : (0 ≤ model_max_loaded default_settings)%Z) by (cbn; lia).
  split; [exact H|].
  exact (resident_count_within_capacity default_settings env_steady
           [Acquire 1 "ANI2x"; Acquire 1 "ANI1x"; Acquire 1 "ANI1ccx";
            Release "ANI1x"; Evict "ANI1ccx"] 3 H).
Defined.

(** ** Eviction removes the least recently used entry *)

Lemma nonempty_mem {V} (d : dict V) : d ≠ [] → ∃ k, mem k d = true.
Proof.
  destruct d as [|[k v] d]; [done|]. intros _. exists k.
  unfold mem. cbn. by rewrite String.eqb_refl.
Qed.

Lemma mem_nonempty {V} (k : string) (d : dict V) : mem k d = true → d ≠ [].
Proof. by destruct d. Qed.

Lemma elem_mem {V} (k : string) (v : V) (d : dict V) :
  (k, v) ∈ d → mem k d = true.
Proof.
  intros H. apply mem_keys. unfold keys.
  apply (list_elem_of_fmap_2 fst) in H. exact H.
Qed.

Lemma consistent_nonempty (s : State) :
  consistent s → models_in_memory s ≠ [] → model_last_used s ≠ [].
Proof.
  intros Hc Hne. apply nonempty_mem in Hne as [k Hk]. rewrite Hc in Hk.
  by apply mem_nonempty in Hk.
Qed.

Lemma evict_oldest_run (env : Env) (s : State) (oldest_model : string) :
  models_in_memory s ≠ [] →
  min_by_value (model_last_used s) = Some oldest_model →
  _evict_oldest_model env s =
  _unload_model env oldest_model
    (with_event
       (ELogInfo ("Evicting model " ++ oldest_model ++ " due to memory pressure"))
       s).
Proof.
  intros Hne Hmin. unfold _evict_oldest_model. rewrite run_bind. cbn [gets].
  destruct (models_in_memory s) as [|entry models]; [done|].
  rewrite run_bind. cbn [gets]. by rewrite Hmin.
Qed.

(** The state in which an eviction of [victim] leaves the manager. *)
Lemma evict_oldest_state (env : Env) (s : State) (victim : string) :
  models_in_memory s ≠ [] →
  min_by_value (model_last_used s) = Some victim →
  mem victim (models_in_memory s) = true →
  mem victim (model_last_used s) = true →
  _evict_oldest_model env s =
  (if redis_up env (redis_i s) then Returned tt else Raised RedisError,
   with_event (ERedis DELETE (metadata_key victim))
     (tick_redis
        (with_event (EFree victim)
           (with_last_used (del victim)
              (with_models (del victim)
                 (with_event
                    (ELogInfo ("Unloading model " ++ victim ++ " from GPU memory"))
                    (with_event
                       (ELogInfo ("Evicting model " ++ victim
                                  ++ " due to memory pressure")) s))))))).
Proof.
  intros Hne Hmin Hm Hl. rewrite (evict_oldest_run env s victim Hne Hmin).
  rewrite unload_run. simpl. by rewrite Hm, Hl.
Qed.

Lemma oldest_exists (s : State) :
  consistent s → models_in_memory s ≠ [] →
  ∃ oldest t,
    min_by_value (model_last_used s) = Some oldest ∧
    (oldest, t) ∈ model_last_used s ∧
    (∀ k' t', (k', t') ∈ model_last_used s → (t <= t')%Q) ∧
    mem oldest (models_in_memory s) = true ∧
    mem oldest (model_last_used s) = true.
Proof.
  intros Hc Hne.
  destruct (min_by_value_spec (model_last_used s)) as (k & t & Hmin & Hin & Hle).
  { by apply consistent_nonempty. }
  exists k, t. pose proof (elem_mem k t _ Hin) as Hl.
  split_and!; try done. by rewrite Hc.
Qed.

(** C4. An eviction performed on a non-empty resident set removes, from
    both dictionaries, one entry whose last-used time is minimal among all
    resident entries, and frees that model ([EFree]); this holds whether or
    not the Redis delete that follows succeeds. *)
Theorem evict_oldest_removes_minimum (env : Env) (s : State) :
  consistent s →
  models_in_memory s ≠ [] →
  ∃ oldest t,
    (oldest, t) ∈ model_last_used s ∧
    (∀ k' t', (k', t') ∈ model_last_used s → (t <= t')%Q) ∧
    mem oldest (models_in_memory s) = true ∧
    models_in_memory (_evict_oldest_model env s).2
      = del oldest (models_in_memory s) ∧
    model_last_used (_evict_oldest_model env s).2
      = del oldest (model_last_used s) ∧
    mem oldest (models_in_memory (_evict_oldest_model env s).2) = false ∧
    EFree oldest ∈ new_events s (_evict_oldest_model env s).2.
Proof.
  intros Hc Hne.
  destruct (oldest_exists s Hc Hne) as (k & t & Hmin & Hin & Hle & Hm & Hl).
  exists k, t. rewrite (evict_oldest_state env s k Hne Hmin Hm Hl).
  split_and!; try done.
  - apply mem_del_same.
  - unfold new_events. simpl. rewrite <- !app_assoc, drop_app_length. simpl.
    do 2 right. left.
Qed.

Lemma evict_oldest_removes_minimum_witness :
  consistent three_resident ∧
  models_in_memory three_resident ≠ [] ∧
  ∃ oldest t,
    (oldest, t) ∈ model_last_used three_resident ∧
    (∀ k' t', (k', t') ∈ model_last_used three_resident → (t <= t')%Q) ∧
    mem oldest (models_in_memory three_resident) = true ∧
    models_in_memory (_evict_oldest_model env_steady three_resident).2
      = del oldest (models_in_memory three_resident) ∧
    model_last_used (_evict_oldest_model env_steady three_resident).2
      = del oldest (model_last_used three_resident) ∧
    mem oldest (models_in_memory (_evict_oldest_model env_steady three_resident).2)
      = false ∧
    EFree oldest ∈ new_events three_resident
                     (_evict_oldest_model env_steady three_resident).2.
Proof.
  assert (Hc : consistent three_resident).
  { intros k. unfold mem. cbn.
    by destruct (String.eqb k "ANI1x"), (String.eqb k "ANI2x"),
                (String.eqb k "ANI1ccx"). }
  assert (Hne : models_in_memory three_resident ≠ []) by done.
  split; [exact Hc|]. split; [exact Hne|].
  exact (evict_oldest_removes_minimum env_steady three_resident Hc Hne).
Defined.

(** The example of the specification: with last-used times 10, 5 and 20
    the entry with time 5 goes. *)
Example evict_oldest_10_5_20 :
  (_evict_oldest_model env_steady three_resident).1 = Returned tt ∧
  models_in_memory (_evict_oldest_model env_steady three_resident).2
    = [("ANI1x", 0%nat); ("ANI1ccx", 2%nat)] ∧
  model_last_used (_evict_oldest_model env_steady three_resident).2
    = [("ANI1x", 10%Q); ("ANI1ccx", 20%Q)].
Proof. by vm_compute. Qed.

(** ** Acquiring a resident model *)

Lemma new_events_app (s s' : State) (evs : list event) :
  trace s' = (trace s ++ evs)%list → new_events s s' = evs.
Proof. intros H. unfold new_events. by rewrite H, drop_app_length. Qed.

Lemma get_mem {V} (k : string) (v : V) (d : dict V) :
  get k d = Some v → mem k d = true.
Proof. unfold mem. by intros ->. Qed.

Lemma get_model_returned (settings : Settings) (env : Env) (fuel : nat)
    (model_name : string) (s : State) (model : handle) :
  (get_model settings env fuel model_name s).1 = Returned model →
  get model_name (models_in_memory (get_model settings env fuel model_name s).2)
  = Some model.
Proof.
  destruct (mem model_name (models_in_memory s)) eqn:Hm.
  - rewrite get_model_hit by done. simpl.
    destruct (redis_up env (redis_i s)); [|discriminate].
    destruct (get model_name (models_in_memory s)); [|discriminate].
    by intros [= ->].
  - rewrite get_model_miss, run_bind by done.
    destruct (redis_call env GET (metadata_key model_name) s) as [[b|e|] s0];
      [|discriminate..].
    destruct (load_model_run settings env fuel model_name s0)
      as (s1 & _ & [[_ Hno] | [_ ->]]).
    { intros H. by apply Hno in H. }
    rewrite loading_run.
    destruct (registered model_name); [|discriminate].
    destruct (loader_ok env (loader_i s1)); [|discriminate].
    destruct (redis_up env (redis_i s1)); [|discriminate].
    destruct (cuda_available env); simpl; intros [= <-]; apply get_set_same.
Qed.

(** What an acquire of a resident model does. *)
Lemma get_model_resident (settings : Settings) (env : Env) (fuel : nat)
    (model_name : string) (s : State) (model : handle) :
  get model_name (models_in_memory s) = Some model →
  (get_model settings env fuel model_name s).1
    = (if redis_up env (redis_i s) then Returned model else Raised RedisError) ∧
  loader_i (get_model settings env fuel model_name s).2 = loader_i s ∧
  new_events s (get_model settings env fuel model_name s).2
    = [ERedis (EXPIRE (redis_model_ttl settings)) (metadata_key model_name)] ∧
  models_in_memory (get_model settings env fuel model_name s).2
    = models_in_memory s ∧
  model_last_used (get_model settings env fuel model_name s).2
    = set model_name (time_time env (clock_i s)) (model_last_used s).
Proof.
  intros Hget. rewrite get_model_hit by (by eapply get_mem).
  rewrite Hget. split_and!; try done. by apply new_events_app.
Qed.

(** C6, as stated, fails: the second acquire does not always return the
    resident handle.  In a world whose Redis answers the GET and the SETEX of
    the first acquire of ANI2x and is unreachable afterwards, the first
    acquire returns the handle and leaves ANI2x resident; the second acquire,
    with nothing evicted in between, raises the Redis error of its EXPIRE. *)
Lemma second_acquire_raises_when_expire_raises :
  registered "ANI2x" = true ∧
  (get_model default_settings env_redis_drops 1 "ANI2x" init_state).1
    = Returned 0%nat ∧
  get "ANI2x"
    (models_in_memory
       (get_model default_settings env_redis_drops 1 "ANI2x" init_state).2)
    = Some 0%nat ∧
  (get_model default_settings env_redis_drops 1 "ANI2x"
     (get_model default_settings env_redis_drops 1 "ANI2x" init_state).2).1
    = Raised RedisError.
Proof. by vm_compute. Qed.

(** C6, amended. Once [get_model] has returned a handle for a name, the
    entry is resident; and from any later state in which that entry is still
    resident (it was not evicted in between), [get_model] calls no loader:
    it leaves [models_in_memory] as it is, sets the last-used time of the
    name to the current time and sends exactly one command to Redis, the
    EXPIRE of the metadata key with [settings.redis_model_ttl].  It returns
    the resident handle when that EXPIRE returns, and raises the Redis error
    when that EXPIRE raises. *)
Theorem second_acquire_does_not_reload (settings : Settings) (env : Env)
    (fuel : nat) (model_name : string) (s : State) (model : handle) :
  (get_model settings env fuel model_name s).1 = Returned model →
  get model_name (models_in_memory (get_model settings env fuel model_name s).2)
    = Some model ∧
  ∀ (fuel' : nat) (s' : State),
    get model_name (models_in_memory s') = Some model →
    loader_i (get_model settings env fuel' model_name s').2 = loader_i s' ∧
    new_events s' (get_model settings env fuel' model_name s').2
      = [ERedis (EXPIRE (redis_model_ttl settings)) (metadata_key model_name)] ∧
    models_in_memory (get_model settings env fuel' model_name s').2
      = models_in_memory s' ∧
    model_last_used (get_model settings env fuel' model_name s').2
      = set model_name (time_time env (clock_i s')) (model_last_used s') ∧
    (get_model settings env fuel' model_name s').1
      = (if redis_up env (redis_i s') then Returned model
         else Raised RedisError).
Proof.
  intros Hret. split; [by apply get_model_returned|].
  intros fuel' s' Hget.
  destruct (get_model_resident settings env fuel' model_name s' model Hget)
    as (Hout & Hload & Hev & Hm & Hl).
  by split_and!.
Qed.

Lemma second_acquire_does_not_reload_witness :
  (get_model default_settings env_steady 1 "ANI2x" init_state).1 = Returned 0%nat ∧
  new_events (get_model default_settings env_steady 1 "ANI2x" init_state).2
    (get_model default_settings env_steady 1 "ANI2x"
       (get_model default_settings env_steady 1 "ANI2x" init_state).2).2
  = [ERedis (EXPIRE 300) "model:ANI2x:metadata"] ∧
  (get_model default_settings env_steady 1 "ANI2x"
     (get_model default_settings env_steady 1 "ANI2x" init_state).2).1
  = Returned 0%nat.
Proof.
  assert (H : (get_model default_settings env_steady 1 "ANI2x" init_state).1
              = Returned 0%nat) by reflexivity.
  split; [exact H|].
  destruct (second_acquire_does_not_reload default_settings env_steady 1
              "ANI2x" init_state 0%nat H) as [Hres Hagain].
  split.
  - exact (proj1 (proj2 (Hagain 1%nat _ Hres))).
  - exact (proj2 (proj2 (proj2 (proj2 (Hagain 1%nat _ Hres))))).
Defined.

(** ** An unreachable Redis *)




(** ** An unknown model name *)

(** C3 at a failing input: both slots are taken and Redis answers; asking
    for the unknown name "foo" raises [ValueError], but only after the least
    recently used model, ANI2x, has been evicted. *)
Theorem unknown_model_evicts_before_raising :
  registered "foo" = false ∧
  (get_model default_settings env_steady 2 "foo" two_resident).1
    = Raised (ValueError "Unknown model: foo") ∧
  models_in_memory two_resident = [("ANI2x", 0%nat); ("ANI1x", 1%nat)] ∧
  models_in_memory (get_model default_settings env_steady 2 "foo" two_resident).2
    = [("ANI1x", 1%nat)] ∧
  EFree "ANI2x"
    ∈ new_events two_resident
        (get_model default_settings env_steady 2 "foo" two_resident).2.
Proof.
  split_and!; try by vm_compute.
  apply (list_elem_of_lookup_2 _ 4). by vm_compute.
Qed.

(** ** Loader calls in the trace *)

Lemma loader_event_after_quiet (s s1 s' : State) (evs : list event) (e : event) :
  quiet s s1 → trace s' = (trace s1 ++ evs)%list →
  is_loader_event e = true → e ∈ new_events s s' → e ∈ evs.
Proof.
  intros [_ (evs0 & Ht & Hf)] Ht' He.
  rewrite (new_events_app s s' (evs0 ++ evs)) by (by rewrite Ht', Ht, app_assoc).
  intros [Hin|Hin]%elem_of_app; [|done].
  rewrite Forall_forall in Hf. apply Hf in Hin. congruence.
Qed.

Lemma loader_event_not_quiet (s s' : State) (e : event) :
  quiet s s' → is_loader_event e = true → e ∉ new_events s s'.
Proof.
  intros Hq He Hin.
  apply (loader_event_after_quiet s s' s' [] e) in Hin; [|done| |done].
  - by apply elem_of_nil in Hin.
  - by rewrite app_nil_r.
Qed.

(** [H] says that a failed loader call is among the events of a run that
    was quiet up to [s1] and then appended a known list of events, none of
    which is a failed loader call. *)
Ltac absurd_loader_event H s s1 :=
  eapply (loader_event_after_quiet s s1) in H;
    [| done | simpl; rewrite <- ?app_assoc; reflexivity | done];
  simpl in H;
  repeat (apply elem_of_cons in H as [H|H]; [discriminate H|]);
  by apply elem_of_nil in H.

(** ** Memory pressure *)

Global Instance loads_only_preorder (model_name : string) :
  PreOrder (loads_only model_name).
Proof.
  split.
  - intros s. split; [reflexivity | auto].
  - intros s1 s2 s3 [T1 M1] [T2 M2]. split; [by transitivity s2 | auto].
Qed.

Lemma shrinks_loads_only (model_name : string) (s s' : State) :
  shrinks s s' → loads_only model_name s s'.
Proof.
  intros H. split; [by apply shrinks_extends_trace|].
  intros k _. by apply H.
Qed.

Lemma steps_loads_only_loading (settings : Settings) (env : Env)
    (model_name : string) :
  steps (loads_only model_name) (loading settings env model_name).
Proof.
  intros s. rewrite loading_run.
  destruct (registered model_name), (loader_ok env (loader_i s)),
    (redis_up env (redis_i s)), (cuda_available env); simpl.
  all: split;
    [ unfold extends_trace; simpl; rewrite <- ?app_assoc; by apply prefix_app_r
    | intros k Hk; simpl; rewrite ?mem_set_eq;
      try destruct (String.eqb_spec model_name k); done ].
Qed.

Lemma check_memory_pressure_run (settings : Settings) (env : Env) (s : State) :
  _check_memory_pressure settings env s =
  (Returned
     (Qltb (gpu_memory_threshold settings)
        (if cuda_available env then gpu_fraction env (gauge_i s) else 0%Q)),
   (if cuda_available env then tick_gauge else id) s).
Proof.
  unfold _check_memory_pressure, _get_gpu_memory_usage, mbind, M_bind.
  by destruct (cuda_available env).
Qed.

Lemma prefix_before_event {A} (p more before after : list A) (x : A) :
  (p ++ more = before ++ x :: after)%list → x ∉ p → p `prefix_of` before.
Proof.
  revert before. induction p as [|a p IH]; intros before Heq Hx.
  - apply prefix_nil.
  - destruct before as [|b before]; cbn in Heq.
    + injection Heq as -> _. exfalso. apply Hx. left.
    + injection Heq as -> Heq. apply prefix_cons, (IH before Heq).
      intros Hin. apply Hx. by right.
Qed.

(** The first round of the pressure loop inside an acquire: the least
    recently used model is evicted, and whatever follows only extends the
    trace and makes nothing but the requested model resident. *)
Lemma get_model_under_pressure (settings : Settings) (env : Env) (fuel : nat)
    (model_name : string) (s : State) :
  consistent s →
  models_in_memory s ≠ [] →
  mem model_name (models_in_memory s) = false →
  (_check_memory_pressure settings env s).1 = Returned true →
  redis_up env (redis_i s) = true →
  ∃ victim s_ev,
    mem victim (models_in_memory s) = true ∧
    trace s_ev =
      (trace s ++
       [ERedis GET (metadata_key model_name);
        ELogInfo ("Loading model " ++ model_name ++ " into GPU memory");
        ELogInfo ("Evicting model " ++ victim ++ " due to memory pressure");
        ELogInfo ("Unloading model " ++ victim ++ " from GPU memory");
        EFree victim;
        ERedis DELETE (metadata_key victim)])%list ∧
    mem victim (models_in_memory s_ev) = false ∧
    loads_only model_name s_ev
      (get_model settings env (S fuel) model_name s).2.
Proof.
  intros Hc Hne Hm Hp Hup.
  destruct (oldest_exists s Hc Hne) as (victim & t & Hmin & _ & _ & Hvm & Hvl).
  rewrite check_memory_pressure_run in Hp. cbn [fst] in Hp.
  injection Hp as Hp.
  rewrite get_model_miss, run_bind by done.
  unfold redis_call at 1. rewrite Hup.
  set (s0 := with_event (ERedis GET _) (tick_redis s)).
  unfold _load_model. rewrite run_bind. cbn [emit modify].
  set (s1 := with_event (ELogInfo _) s0).
  set (K := λ _ : (), limit_loop settings env (S fuel);; loading settings env model_name).
  rewrite run_bind. cbn [pressure_loop].
  rewrite run_bind, check_memory_pressure_run.
  change (gauge_i s1) with (gauge_i s). rewrite Hp.
  set (s2 := (if cuda_available env then tick_gauge else id) s1).
  assert (Hbooks : models_in_memory s2 = models_in_memory s ∧
                   model_last_used s2 = model_last_used s ∧
                   trace s2 = trace s1).
  { unfold s2. by destruct (cuda_available env). }
  destruct Hbooks as (Hm2 & Hl2 & Ht2).
  assert (Hev : _evict_oldest_model env s2 = _) by
    (apply (evict_oldest_state env s2 victim); by rewrite ?Hm2, ?Hl2).
  rewrite run_bind. cbn [gets].
  destruct (models_in_memory s2) as [|entry models] eqn:E2.
  { by rewrite Hm2 in E2. }
  rewrite run_bind, Hev.
  set (s_ev := with_event (ERedis DELETE _) _).
  exists victim, s_ev. split; [done|]. split.
  { unfold s_ev. simpl. rewrite Ht2. unfold s1, s0. simpl.
    by rewrite <- !app_assoc. }
  split.
  { unfold s_ev. simpl. apply mem_del_same. }
  destruct (redis_up env (redis_i s2)); [|reflexivity].
  assert (Hrest : steps (loads_only model_name)
                    (pressure_loop settings env fuel ≫= K)).
  { apply (steps_bind (loads_only model_name)).
    - eapply steps_weaken; [apply shrinks_loads_only|].
      apply steps_shrinks_pressure_loop.
    - intros u. unfold K. apply (steps_bind (loads_only model_name)).
      + eapply steps_weaken; [apply shrinks_loads_only|].
        apply steps_shrinks_limit_loop.
      + intros _. apply steps_loads_only_loading. }
  apply (Hrest s_ev).
Qed.

Lemma get_model_redis_down (settings : Settings) (env : Env) (fuel : nat)
    (model_name : string) (s : State) :
  mem model_name (models_in_memory s) = false →
  redis_up env (redis_i s) = false →
  quiet s (get_model settings env fuel model_name s).2.
Proof.
  intros Hm Hdown. rewrite get_model_miss, run_bind by done.
  pose proof (steps_redis_call env GET (metadata_key model_name) s) as [_ Hq].
  revert Hq. unfold redis_call. by rewrite Hdown.
Qed.

Lemma get_model_no_fuel (settings : Settings) (env : Env)
    (model_name : string) (s : State) :
  mem model_name (models_in_memory s) = false →
  quiet s (get_model settings env 0 model_name s).2.
Proof.
  intros Hm. rewrite get_model_miss, run_bind by done.
  pose proof (steps_redis_call env GET (metadata_key model_name) s) as [_ Hq].
  destruct (redis_call env GET (metadata_key model_name) s) as [[b|e|] s0];
    cbn [snd] in *; [|done..].
  transitivity s0; [done|]. unfold _load_model. rewrite run_bind. simpl.
  by apply idle_event.
Qed.

(** C5. Let the GPU gauge read above the pressure threshold, let some model
    be resident and let [model_name] not be resident.  Then in the next
    [get_model] of [model_name] every loader call is preceded by the
    eviction ([EFree]) of a model that was resident; and as soon as the
    Redis lookup that opens the load path returns, such an eviction does
    take place: the victim is resident before the call and not after it.
    (Fuel 0 stands for a call cut before its first loop test.) *)
Theorem pressure_evicts_before_loading (settings : Settings) (env : Env)
    (fuel : nat) (model_name : string) (s : State) :
  consistent s →
  models_in_memory s ≠ [] →
  mem model_name (models_in_memory s) = false →
  (_check_memory_pressure settings env s).1 = Returned true →
  (∀ before loaded ok after,
      new_events s (get_model settings env fuel model_name s).2
        = (before ++ ELoader loaded ok :: after)%list →
      ∃ victim, mem victim (models_in_memory s) = true ∧
                EFree victim ∈ before) ∧
  (redis_up env (redis_i s) = true → (0 < fuel)%nat →
   ∃ victim,
     mem victim (models_in_memory s) = true ∧
     EFree victim ∈ new_events s (get_model settings env fuel model_name s).2 ∧
     mem victim
       (models_in_memory (get_model settings env fuel model_name s).2) = false).
Proof.
  intros Hc Hne Hm Hp.
  assert (Hquiet : ∀ s', quiet s s' →
            ∀ before loaded ok after,
              new_events s s' = (before ++ ELoader loaded ok :: after)%list →
              ∃ victim, mem victim (models_in_memory s) = true ∧
                        EFree victim ∈ before).
  { intros s' Hq before loaded ok after Heq. exfalso.
    apply (loader_event_not_quiet s s' (ELoader loaded ok) Hq eq_refl).
    rewrite Heq. apply elem_of_app. right. left. }
  destruct (redis_up env (redis_i s)) eqn:Hup.
  2: { split; [|discriminate]. by apply Hquiet, get_model_redis_down. }
  destruct fuel as [|fuel].
  { split; [|lia]. by apply Hquiet, get_model_no_fuel. }
  destruct (get_model_under_pressure settings env fuel model_name s
              Hc Hne Hm Hp Hup)
    as (victim & s_ev & Hvm & Htr & Hgone & [[more Hext] Hkeep]).
  rewrite Htr, <- app_assoc in Hext. apply new_events_app in Hext.
  rewrite Hext. split.
  - intros before loaded ok after Heq. exists victim. split; [done|].
    apply prefix_before_event in Heq as [rest ->].
    + apply elem_of_app. left. do 4 right. left.
    + intros Hin.
      repeat (apply elem_of_cons in Hin as [Hin|Hin]; [discriminate Hin|]).
      by apply elem_of_nil in Hin.
  - intros _ _. exists victim. split_and!; [done| |].
    + apply elem_of_app. left. do 4 right. left.
    + destruct (mem victim (models_in_memory (get_model _ _ _ _ _).2)) eqn:E;
        [|done].
      apply Hkeep in E; [congruence|]. intros ->. congruence.
Qed.

Lemma pressure_evicts_before_loading_witness :
  consistent two_resident ∧
  models_in_memory two_resident ≠ [] ∧
  mem "ANI1ccx" (models_in_memory two_resident) = false ∧
  (_check_memory_pressure default_settings env_pressure two_resident).1
    = Returned true ∧
  redis_up env_pressure (redis_i two_resident) = true ∧
  (0 < 3)%nat ∧
  ∃ victim,
    mem victim (models_in_memory two_resident) = true ∧
    EFree victim
      ∈ new_events two_resident
          (get_model default_settings env_pressure 3 "ANI1ccx" two_resident).2 ∧
    mem victim
      (models_in_memory
         (get_model default_settings env_pressure 3 "ANI1ccx" two_resident).2)
    = false.
Proof.
  assert (Hc : consistent two_resident).
  { intros k. unfold mem. cbn.
    by destruct (String.eqb k "ANI2x"), (String.eqb k "ANI1x"). }
  assert (Hne : models_in_memory two_resident ≠ []) by done.
  assert (Hm : mem "ANI1ccx" (models_in_memory two_resident) = false)
    by reflexivity.
  assert (Hp : (_check_memory_pressure default_settings env_pressure
                  two_resident).1 = Returned true) by reflexivity.
  assert (Hup : redis_up env_pressure (redis_i two_resident) = true)
    by reflexivity.
  assert (Hfuel : (0 < 3)%nat) by lia.
  split_and!; [done..|].
  exact (proj2 (pressure_evicts_before_loading default_settings env_pressure 3
                  "ANI1ccx" two_resident Hc Hne Hm Hp) Hup Hfuel).
Defined.

(** ** Fuel: when an acquire completes *)

Lemma evict_oldest_progress (env : Env) (s : State) :
  consistent s → models_in_memory s ≠ [] →
  (_evict_oldest_model env s).1 ≠ OutOfFuel ∧
  consistent (_evict_oldest_model env s).2 ∧
  (length (models_in_memory (_evict_oldest_model env s).2)
   < length (models_in_memory s))%nat.
Proof.
  intros Hc Hne.
  destruct (oldest_exists s Hc Hne) as (victim & t & Hmin & _ & _ & Hm & Hl).
  rewrite (evict_oldest_state env s victim Hne Hmin Hm Hl). simpl.
  split_and!.
  - by destruct (redis_up env (redis_i s)).
  - intros k. simpl. by rewrite !mem_del_eq, Hc.
  - by apply length_del_mem.
Qed.

Lemma pressure_loop_completes (settings : Settings) (env : Env) (fuel : nat)
    (s : State) :
  consistent s → (length (models_in_memory s) < fuel)%nat →
  (pressure_loop settings env fuel s).1 ≠ OutOfFuel.
Proof.
  revert s. induction fuel as [|fuel IH]; intros s Hc Hlen; [lia|].
  cbn [pressure_loop]. rewrite run_bind, check_memory_pressure_run.
  set (s1 := (if cuda_available env then tick_gauge else id) s).
  assert (H1 : consistent s1 ∧ models_in_memory s1 = models_in_memory s).
  { unfold s1. by destruct (cuda_available env). }
  destruct H1 as [Hc1 Hm1]. rewrite run_bind. cbn [gets].
  destruct (Qltb _ _); [|by destruct (models_in_memory s1)].
  destruct (models_in_memory s1) as [|entry models] eqn:E; [done|].
  rewrite run_bind.
  destruct (evict_oldest_progress env s1 Hc1) as (Hout & Hc2 & Hlen2).
  { by rewrite E. }
  destruct (_evict_oldest_model env s1) as [[[]|e|] s2]; cbn in *; [|done..].
  apply IH; [done|]. rewrite E, Hm1 in Hlen2. lia.
Qed.

Lemma limit_loop_completes (settings : Settings) (env : Env) (fuel : nat)
    (s : State) :
  (1 ≤ model_max_loaded settings)%Z →
  consistent s → (length (models_in_memory s) < fuel)%nat →
  (limit_loop settings env fuel s).1 ≠ OutOfFuel.
Proof.
  intros Hcap. revert s.
  induction fuel as [|fuel IH]; intros s Hc Hlen; [lia|].
  cbn [limit_loop]. rewrite run_bind. cbn [gets].
  destruct (Z.leb_spec (model_max_loaded settings) (len (models_in_memory s)))
    as [Hle|Hlt]; [|done].
  rewrite run_bind.
  destruct (evict_oldest_progress env s Hc) as (Hout & Hc2 & Hlen2).
  { intros E. rewrite E in Hle. unfold len in Hle. cbn in Hle. lia. }
  destruct (_evict_oldest_model env s) as [[[]|e|] s2]; cbn in *; [|done..].
  apply IH; [done | lia].
Qed.

(** With a capacity of at least one slot and fuel above the number of
    resident models, [get_model] completes: it returns or raises. *)
Lemma get_model_completes (settings : Settings) (env : Env) (fuel : nat)
    (model_name : string) (s : State) :
  (1 ≤ model_max_loaded settings)%Z →
  consistent s → (length (models_in_memory s) < fuel)%nat →
  (get_model settings env fuel model_name s).1 ≠ OutOfFuel.
Proof.
  intros Hcap Hc Hlen.
  pose proof (λ n s (_ : mem n (models_in_memory s) = true)
                (_ : mem n (model_last_used s) = true),
              keeps_consistent_del n s) as Hdel.
  destruct (mem model_name (models_in_memory s)) eqn:Hm.
  { rewrite get_model_hit by done. cbn [fst].
    by destruct (redis_up env (redis_i s)), (get model_name (models_in_memory s)). }
  rewrite get_model_miss, run_bind by done.
  pose proof (steps_redis_call env GET (metadata_key model_name) s)
    as [[Hm0 Hl0] _].
  destruct (redis_call env GET (metadata_key model_name) s) as [[b|e|] s0] eqn:E0;
    cbn [snd] in *; [|done|].
  2: { unfold redis_call in E0. by destruct (redis_up env (redis_i s)). }
  unfold _load_model. rewrite run_bind. cbn [emit modify].
  set (s1 := with_event _ s0).
  assert (Hc1 : consistent s1) by (intros k; simpl; by rewrite Hm0, Hl0).
  assert (Hlen1 : (length (models_in_memory s1) < fuel)%nat)
    by (simpl; by rewrite Hm0).
  rewrite run_bind.
  pose proof (pressure_loop_completes settings env fuel s1 Hc1 Hlen1) as Hp.
  pose proof (steps_pressure_loop settings env keeps_consistent
                idle_keeps_consistent Hdel keeps_consistent_del_untimed
                fuel s1 Hc1) as Hc2.
  pose proof (shrinks_no_growth _ _
                (steps_shrinks_pressure_loop settings env fuel s1)) as Hlen2.
  unfold no_growth in Hlen2.
  destruct (pressure_loop settings env fuel s1) as [[[]|e|] s2];
    cbn [fst snd] in *; [|done..].
  rewrite run_bind.
  pose proof (limit_loop_completes settings env fuel s2 Hcap Hc2) as Hl.
  destruct (limit_loop settings env fuel s2) as [[[]|e|] s3];
    cbn [fst snd] in *; [|done|exfalso; apply Hl; [lia|done]].
  rewrite loading_run.
  by destruct (registered model_name), (loader_ok env (loader_i s3)),
    (redis_up env (redis_i s3)).
Qed.

(** With no slot at all the limit loop spins on the empty dictionary:
    whatever the fuel, the call does not complete. *)
Lemma limit_loop_spins (settings : Settings) (env : Env) (fuel : nat)
    (s : State) :
  (model_max_loaded settings ≤ 0)%Z → models_in_memory s = [] →
  limit_loop settings env fuel s = (OutOfFuel, s).
Proof.
  intros Hcap Hs. induction fuel as [|fuel IH]; [reflexivity|].
  cbn [limit_loop]. rewrite run_bind. cbn [gets]. rewrite Hs.
  destruct (Z.leb_spec (model_max_loaded settings) (len (@nil (string * handle))))
    as [_|Hlt]; [|unfold len in Hlt; cbn in Hlt; lia].
  rewrite run_bind. unfold _evict_oldest_model at 1. rewrite run_bind.
  cbn [gets]. rewrite Hs. exact IH.
Qed.

(** * Further properties of the model manager *)

(** ** A host without CUDA *)

(** X1. On a host without CUDA the usage fraction is 0, so with a threshold
    that is not negative [_check_memory_pressure] answers [False] and the
    memory-pressure loop of [_load_model] returns at once, leaving the
    manager exactly as it was: only the slot limit can evict there. *)
Theorem no_cuda_no_pressure_eviction (settings : Settings) (env : Env)
    (fuel : nat) (s : State) :
  cuda_available env = false →
  (0 <= gpu_memory_threshold settings)%Q →
  _check_memory_pressure settings env s = (Returned false, s) ∧
  pressure_loop settings env (S fuel) s = (Returned tt, s).
Proof.
  intros Hcuda Hthr.
  assert (H : _check_memory_pressure settings env s = (Returned false, s)).
  { rewrite check_memory_pressure_run, Hcuda. unfold Qltb.
    apply Qle_bool_iff in Hthr. by rewrite Hthr. }
  split; [exact H|].
  cbn [pressure_loop]. rewrite run_bind, H, run_bind. cbn [gets].
  by destruct (models_in_memory s).
Qed.

Lemma no_cuda_no_pressure_eviction_witness :
  cuda_available env_steady = false ∧
  (0 <= gpu_memory_threshold default_settings)%Q ∧
  pressure_loop default_settings env_steady 1 two_resident
  = (Returned tt, two_resident).
Proof.
  assert (Hc : cuda_available env_steady = false) by reflexivity.
  assert (Ht : (0 <= gpu_memory_threshold default_settings)%Q) by done.
  split_and!; [exact Hc | exact Ht |].
  exact (proj2 (no_cuda_no_pressure_eviction default_settings env_steady 0
                  two_resident Hc Ht)).
Defined.

(** ** Loading into a free slot, and loading when every slot is taken *)

(** The state in which [_load_model] reaches its [try] statement when no
    eviction is called for. *)
Lemma load_model_no_eviction (settings : Settings) (env : Env) (fuel : nat)
    (model_name : string) (s : State) :
  (_check_memory_pressure settings env s).1 = Returned false →
  (len (models_in_memory s) < model_max_loaded settings)%Z →
  _load_model settings env (S fuel) model_name s =
  loading settings env model_name
    ((if cuda_available env then tick_gauge else id)
       (with_event
          (ELogInfo ("Loading model " ++ model_name ++ " into GPU memory")) s)).
Proof.
  intros Hp Hlt. rewrite check_memory_pressure_run in Hp. cbn [fst] in Hp.
  injection Hp as Hp.
  unfold _load_model. rewrite run_bind. cbn [emit modify].
  set (s1 := with_event _ s).
  rewrite run_bind. cbn [pressure_loop].
  rewrite run_bind, check_memory_pressure_run.
  change (gauge_i s1) with (gauge_i s). rewrite Hp.
  set (s2 := (if cuda_available env then tick_gauge else id) s1).
  assert (Hm2 : models_in_memory s2 = models_in_memory s)
    by (unfold s2; by destruct (cuda_available env)).
  rewrite run_bind. cbn [gets].
  unfold mret at 1, M_ret at 1. cbn iota.
  rewrite run_bind. cbn [limit_loop]. rewrite run_bind. cbn [gets].
  rewrite Hm2.
  destruct (Z.leb_spec (model_max_loaded settings) (len (models_in_memory s)))
    as [Hle|_]; [lia|].
  reflexivity.
Qed.

(** X2. When a slot is free, the gauge reads no pressure and Redis and the
    loader answer, [get_model] of a registered model that is not resident
    returns the fresh handle, evicts nothing and calls the loader once: the
    new entry is added to both dictionaries, stamped with the current
    time. *)
Theorem get_model_loads_into_free_slot (settings : Settings) (env : Env)
    (fuel : nat) (model_name : string) (s : State) :
  registered model_name = true →
  mem model_name (models_in_memory s) = false →
  (len (models_in_memory s) < model_max_loaded settings)%Z →
  (_check_memory_pressure settings env s).1 = Returned false →
  redis_up env (redis_i s) = true →
  redis_up env (S (redis_i s)) = true →
  loader_ok env (loader_i s) = true →
  (get_model settings env (S fuel) model_name s).1 = Returned (loader_i s) ∧
  models_in_memory (get_model settings env (S fuel) model_name s).2
    = set model_name (loader_i s) (models_in_memory s) ∧
  model_last_used (get_model settings env (S fuel) model_name s).2
    = set model_name (time_time env (clock_i s)) (model_last_used s) ∧
  new_events s (get_model settings env (S fuel) model_name s).2
    = [ERedis GET (metadata_key model_name);
       ELogInfo ("Loading model " ++ model_name ++ " into GPU memory");
       ELoader model_name true;
       ERedis (SETEX (redis_model_ttl settings)) (metadata_key model_name);
       ELogInfo ("Model " ++ model_name ++ " loaded successfully")].
Proof.
  intros Hreg Hm Hlt Hp Hup0 Hup1 Hok.
  set (s0 := with_event (ERedis GET (metadata_key model_name)) (tick_redis s)).
  assert (Hp0 : (_check_memory_pressure settings env s0).1 = Returned false)
    by (rewrite check_memory_pressure_run in Hp |- *; exact Hp).
  assert (E : get_model settings env (S fuel) model_name s =
              loading settings env model_name
                ((if cuda_available env then tick_gauge else id)
                   (with_event
                      (ELogInfo ("Loading model " ++ model_name
                                 ++ " into GPU memory")) s0))).
  { rewrite get_model_miss, run_bind by done. unfold redis_call. rewrite Hup0.
    exact (load_model_no_eviction settings env fuel model_name s0 Hp0 Hlt). }
  rewrite E, loading_run, Hreg.
  destruct (cuda_available env); simpl; rewrite Hok, Hup1; simpl.
  all: split_and!; try done.
  all: apply new_events_app; simpl; by rewrite <- !app_assoc.
Qed.

Lemma get_model_loads_into_free_slot_witness :
  registered "ANI2x" = true ∧
  mem "ANI2x" (models_in_memory init_state) = false ∧
  (len (models_in_memory init_state) < model_max_loaded default_settings)%Z ∧
  (_check_memory_pressure default_settings env_steady init_state).1
    = Returned false ∧
  redis_up env_steady (redis_i init_state) = true ∧
  redis_up env_steady (S (redis_i init_state)) = true ∧
  loader_ok env_steady (loader_i init_state) = true ∧
  models_in_memory (get_model default_settings env_steady 1 "ANI2x" init_state).2
    = set "ANI2x" (loader_i init_state) (models_in_memory init_state).
Proof.
  assert (H1 : registered "ANI2x" = true) by reflexivity.
  assert (H2 : mem "ANI2x" (models_in_memory init_state) = false) by reflexivity.
  assert (H3 : (len (models_in_memory init_state)
                < model_max_loaded default_settings)%Z) by done.
  assert (H4 : (_check_memory_pressure default_settings env_steady
                  init_state).1 = Returned false) by reflexivity.
  assert (H5 : redis_up env_steady (redis_i init_state) = true) by reflexivity.
  assert (H6 : redis_up env_steady (S (redis_i init_state)) = true)
    by reflexivity.
  assert (H7 : loader_ok env_steady (loader_i init_state) = true) by reflexivity.
  split_and!; [done..|].
  exact (proj1 (proj2 (get_model_loads_into_free_slot default_settings
                         env_steady 0 "ANI2x" init_state H1 H2 H3 H4 H5 H6 H7))).
Defined.

(** ** A loader that raises *)

Lemma freed_events (s s' : State) (evs : list event) :
  trace s' = (trace s ++ evs)%list →
  freed s s'
  = omap (λ e, match e with EFree k => Some k | _ => None end) evs.
Proof. intros H. unfold freed. by rewrite (new_events_app s s' evs). Qed.

Lemma freed_trans (s1 s2 s3 : State) :
  quiet s1 s2 → quiet s2 s3 →
  freed s1 s3 = (freed s1 s2 ++ freed s2 s3)%list.
Proof.
  intros [_ (e1 & T1 & _)] [_ (e2 & T2 & _)].
  rewrite (freed_events s1 s2 e1 T1), (freed_events s2 s3 e2 T2).
  rewrite (freed_events s1 s3 (e1 ++ e2)); [apply omap_app|].
  by rewrite T2, T1, app_assoc.
Qed.

Lemma del_all_app {V} (ks1 ks2 : list string) (d : dict V) :
  del_all (ks1 ++ ks2) d = del_all ks2 (del_all ks1 d).
Proof. apply foldl_app. Qed.

Lemma del_absent {V} (k : string) (d : dict V) : mem k d = false → del k d = d.
Proof.
  unfold mem. induction d as [|[k' v'] d IH]; cbn; [done|].
  destruct (String.eqb k k'); [done|]. intros H. by rewrite IH.
Qed.

Lemma length_del_NoDup {V} (k : string) (d : dict V) :
  NoDup (keys d) → mem k d = true → S (length (del k d)) = length d.
Proof.
  induction d as [|[k' v'] d IH]; [done|].
  rewrite keys_cons. intros [Hk' Hnd]%NoDup_cons. unfold mem. cbn.
  destruct (String.eqb_spec k k') as [->|Hne].
  - intros _. rewrite del_absent; [done|].
    destruct (mem k' d) eqn:E; [|done]. by apply mem_keys in E.
  - intros H. cbn. f_equal. by apply IH.
Qed.

Lemma mem_del_all {V} (k : string) (ks : list string) (d : dict V) :
  mem k (del_all ks d) = true → mem k d = true.
Proof.
  revert d. induction ks as [|k' ks IH]; intros d; [done|].
  cbn. intros H. apply IH in H. by apply mem_del in H.
Qed.

Global Instance evicts_preorder : PreOrder evicts.
Proof.
  split.
  - intros s Hc.
    assert (Hf : freed s s = []).
    { apply (freed_events s s []). by rewrite app_nil_r. }
    rewrite Hf. cbn. split_and!; [done | reflexivity | done | done | lia |].
    intros Hnd. split; [done | lia].
  - intros s1 s2 s3 H12 H23 Hc.
    destruct (H12 Hc) as (Hc2 & Q12 & M12 & L12 & N12 & U12).
    destruct (H23 Hc2) as (Hc3 & Q23 & M23 & L23 & N23 & U23).
    rewrite (freed_trans s1 s2 s3 Q12 Q23), !del_all_app, length_app.
    split_and!; [done | by transitivity s2 | by rewrite M23, M12
                | by rewrite L23, L12 | lia |].
    intros Hnd. destruct (U12 Hnd) as [Hnd2 E12].
    destruct (U23 Hnd2) as [Hnd3 E23]. split; [done | lia].
Qed.

Lemma evicts_idle (s s' : State) : idle s s' → freed s s' = [] → evicts s s'.
Proof.
  intros [[Hm Hl] Hq] Hf Hc. rewrite Hf. cbn.
  split_and!; [intros k; by rewrite Hm, Hl | done | done | done
              | rewrite Hm; lia |].
  intros Hnd. rewrite Hm. split; [done | lia].
Qed.

Lemma steps_evicts_unload (env : Env) (model_name : string) :
  steps evicts (_unload_model env model_name).
Proof.
  intros s. rewrite unload_run.
  destruct (mem model_name (models_in_memory s)) eqn:Hm; [|reflexivity].
  intros Hc.
  assert (Hl : mem model_name (model_last_used s) = true) by (by rewrite <- Hc).
  rewrite Hl. cbn [snd].
  set (s' := with_event (ERedis DELETE _) _).
  assert (Hf : freed s s' = [model_name]).
  { rewrite (freed_events s s'
      [ELogInfo ("Unloading model " ++ model_name ++ " from GPU memory");
       EFree model_name; ERedis DELETE (metadata_key model_name)]); [done|].
    unfold s'. cbn. by rewrite <- !app_assoc. }
  rewrite Hf. cbn.
  pose proof (length_del_mem model_name (models_in_memory s) Hm).
  split_and!; [| | done | done | lia |].
  - intros k. cbn. by rewrite !mem_del_eq, Hc.
  - split; [done|]. eexists. split; [unfold s'; cbn; by rewrite <- !app_assoc|].
    by repeat constructor.
  - intros Hnd. split; [by apply NoDup_keys_del|].
    pose proof (length_del_NoDup model_name (models_in_memory s) Hnd Hm). lia.
Qed.

Lemma steps_evicts_evict_oldest (env : Env) :
  steps evicts (_evict_oldest_model env).
Proof.
  unfold _evict_oldest_model.
  apply (steps_bind evicts); [apply (steps_gets evicts)|]. intros [|entry models].
  { apply (steps_ret evicts). }
  apply (steps_bind evicts); [apply (steps_gets evicts)|]. intros last_used.
  destruct (min_by_value last_used) as [oldest_model|].
  - apply (steps_bind evicts); [|intros _; apply steps_evicts_unload].
    intros s. apply evicts_idle; [by apply idle_event|].
    by apply (freed_events s _
                [ELogInfo ("Evicting model " ++ oldest_model
                           ++ " due to memory pressure")]).
  - apply (steps_throw evicts).
Qed.

Lemma evicts_check_memory_pressure (settings : Settings) (env : Env) :
  steps evicts (_check_memory_pressure settings env).
Proof.
  intros s. apply evicts_idle; [apply steps_check_memory_pressure|].
  rewrite check_memory_pressure_run. cbn [snd].
  apply (freed_events s _ []). rewrite app_nil_r.
  by destruct (cuda_available env).
Qed.

Lemma steps_evicts_pressure_loop (settings : Settings) (env : Env)
    (fuel : nat) :
  steps evicts (pressure_loop settings env fuel).
Proof.
  induction fuel as [|fuel IH]; cbn [pressure_loop].
  - apply (steps_out_of_fuel evicts).
  - apply (steps_bind evicts); [apply evicts_check_memory_pressure|].
    intros pressure. apply (steps_bind evicts); [apply (steps_gets evicts)|].
    intros [|entry models]; destruct pressure; try apply (steps_ret evicts).
    apply (steps_bind evicts);
      [apply steps_evicts_evict_oldest | intros _; exact IH].
Qed.

Lemma steps_evicts_limit_loop (settings : Settings) (env : Env) (fuel : nat) :
  steps evicts (limit_loop settings env fuel).
Proof.
  induction fuel as [|fuel IH]; cbn [limit_loop].
  - apply (steps_out_of_fuel evicts).
  - apply (steps_bind evicts); [apply (steps_gets evicts)|]. intros n.
    destruct (model_max_loaded settings <=? n)%Z; [|apply (steps_ret evicts)].
    apply (steps_bind evicts);
      [apply steps_evicts_evict_oldest | intros _; exact IH].
Qed.

(** [_load_model] first only evicts, reaching some state [s1]; either no
    loader call follows, or the rest of the call is [loading] run from
    [s1]. *)
Lemma load_model_run_evicts (settings : Settings) (env : Env) (fuel : nat)
    (model_name : string) (s : State) :
  ∃ s1, evicts s s1 ∧
    ((_load_model settings env fuel model_name s).2 = s1 ∨
     _load_model settings env fuel model_name s
     = loading settings env model_name s1).
Proof.
  unfold _load_model. rewrite run_bind. cbn [emit modify].
  set (s0 := with_event _ s).
  assert (H0 : evicts s s0).
  { apply evicts_idle; [by apply idle_event|].
    by apply (freed_events s _
                [ELogInfo ("Loading model " ++ model_name
                           ++ " into GPU memory")]). }
  rewrite run_bind.
  pose proof (steps_evicts_pressure_loop settings env fuel s0) as H1.
  destruct (pressure_loop settings env fuel s0) as [[[]|e|] s1] eqn:E1;
    cbn [snd] in H1.
  2,3: exists s1; split; [by transitivity s0|]; by left.
  rewrite run_bind.
  pose proof (steps_evicts_limit_loop settings env fuel s1) as H2.
  destruct (limit_loop settings env fuel s1) as [[[]|e|] s2] eqn:E2;
    cbn [snd] in H2.
  2,3: exists s2; split; [by transitivity s0; [|transitivity s1]|]; by left.
  exists s2. split; [by transitivity s0; [|transitivity s1]|]. by right.
Qed.

(** C8, as stated, fails: with both slots taken, acquiring the registered,
    non-resident ANI1ccx evicts ANI2x to make room, then the loader raises;
    the failed call has lowered the resident count from 2 to 1. *)
Lemma failed_load_lowers_resident_count :
  registered "ANI1ccx" = true ∧
  mem "ANI1ccx" (models_in_memory two_resident) = false ∧
  (get_model default_settings env_loader_fails 2 "ANI1ccx" two_resident).1
    = Raised (LoaderError "ANI1ccx") ∧
  len (models_in_memory two_resident) = 2%Z ∧
  len (models_in_memory
         (get_model default_settings env_loader_fails 2 "ANI1ccx" two_resident).2)
    = 1%Z.
Proof. by vm_compute. Qed.

(** C8, amended. If the loader is called and raises during [get_model] of a
    model that is not resident, then the call raises the loader's error and
    no entry for that name exists afterwards in either dictionary.  The
    evictions made before the loader ran are not undone: both dictionaries
    are exactly what they were before the call with the entries of the
    freed models deleted, and the resident count is lower than before by
    the number of models freed (the keys of a dictionary being pairwise
    distinct).  When no eviction was called for (the gauge reads no
    pressure and a slot is free) nothing is freed, and both dictionaries
    are unchanged by the failed call. *)
Theorem failed_load_takes_no_slot (settings : Settings) (env : Env)
    (fuel : nat) (model_name : string) (s : State) :
  consistent s →
  mem model_name (models_in_memory s) = false →
  ELoader model_name false
    ∈ new_events s (get_model settings env fuel model_name s).2 →
  (get_model settings env fuel model_name s).1
    = Raised (LoaderError model_name) ∧
  mem model_name
    (models_in_memory (get_model settings env fuel model_name s).2) = false ∧
  mem model_name
    (model_last_used (get_model settings env fuel model_name s).2) = false ∧
  models_in_memory (get_model settings env fuel model_name s).2
    = del_all (freed s (get_model settings env fuel model_name s).2)
        (models_in_memory s) ∧
  model_last_used (get_model settings env fuel model_name s).2
    = del_all (freed s (get_model settings env fuel model_name s).2)
        (model_last_used s) ∧
  (len (models_in_memory (get_model settings env fuel model_name s).2)
   ≤ len (models_in_memory s)
     - Z.of_nat (length (freed s (get_model settings env fuel model_name s).2)))%Z ∧
  (NoDup (keys (models_in_memory s)) →
   len (models_in_memory (get_model settings env fuel model_name s).2)
   = (len (models_in_memory s)
      - Z.of_nat (length (freed s (get_model settings env fuel model_name s).2)))%Z) ∧
  ((_check_memory_pressure settings env s).1 = Returned false →
   (len (models_in_memory s) < model_max_loaded settings)%Z →
   freed s (get_model settings env fuel model_name s).2 = [] ∧
   models_in_memory (get_model settings env fuel model_name s).2
     = models_in_memory s ∧
   model_last_used (get_model settings env fuel model_name s).2
     = model_last_used s).
Proof.
  intros Hc Hm Hev.
  assert (Hmain :
    (get_model settings env fuel model_name s).1
      = Raised (LoaderError model_name) ∧
    ∃ s1, evicts s s1 ∧
      models_in_memory (get_model settings env fuel model_name s).2
        = models_in_memory s1 ∧
      model_last_used (get_model settings env fuel model_name s).2
        = model_last_used s1 ∧
      freed s (get_model settings env fuel model_name s).2 = freed s s1).
  { revert Hev. rewrite get_model_miss, run_bind by done.
    pose proof (steps_redis_call env GET (metadata_key model_name) s) as Hr.
    assert (Hf0 : freed s (redis_call env GET (metadata_key model_name) s).2
                  = []).
    { apply (freed_events s _ [ERedis GET (metadata_key model_name)]).
      unfold redis_call. by destruct (redis_up env (redis_i s)). }
    destruct (redis_call env GET (metadata_key model_name) s) as [[b|e|] s0];
      cbn [snd] in Hr, Hf0.
    2,3: intros Hev; by apply loader_event_not_quiet in Hev; [|apply Hr|].
    assert (E0 : evicts s s0) by (by apply evicts_idle).
    destruct (load_model_run_evicts settings env fuel model_name s0)
      as (s1 & E1 & [Heq | ->]).
    { rewrite Heq. intros Hev.
      apply loader_event_not_quiet in Hev; [done| |done].
      transitivity s0; [apply Hr|]. apply E1. by apply E0. }
    assert (E : evicts s s1) by (by transitivity s0).
    assert (Hq : quiet s s1) by (by apply E).
    rewrite loading_run. destruct (registered model_name).
    2: { simpl. intros Hev. absurd_loader_event Hev s s1. }
    destruct (loader_ok env (loader_i s1)).
    { destruct (redis_up env (redis_i s1)), (cuda_available env); simpl;
        intros Hev; absurd_loader_event Hev s s1. }
    simpl. intros _. split; [done|]. exists s1. split_and!; [done..|].
    destruct Hq as [_ (evs & Ht & _)].
    rewrite (freed_events s s1 evs Ht).
    rewrite (freed_events s _
               (evs ++ [ELoader model_name false;
                        ELogError ("Failed to load model " ++ model_name)
                          (LoaderError model_name)])).
    - rewrite omap_app. cbn. by rewrite app_nil_r.
    - cbn. by rewrite Ht, <- !app_assoc. }
  destruct Hmain as (Hout & s1 & E & Hmim & Hmlu & Hfreed).
  destruct (E Hc) as (Hc1 & Hq & M & L & N & U).
  rewrite Hmim, Hmlu, Hfreed.
  assert (Hgone : mem model_name (models_in_memory s1) = false).
  { destruct (mem model_name (models_in_memory s1)) eqn:E1; [|done].
    rewrite M in E1. apply mem_del_all in E1. congruence. }
  split_and!; [done | done | by rewrite <- (Hc1 model_name) | done | done
              | unfold len; lia | |].
  - intros Hnd. destruct (U Hnd) as [_ Hlen]. unfold len. lia.
  - intros Hp Hlt.
    assert (Hnone : freed s s1 = []).
    { rewrite <- Hfreed. clear - Hm Hout Hp Hlt. revert Hout.
      rewrite get_model_miss, run_bind by done. unfold redis_call.
      destruct (redis_up env (redis_i s)); [|done].
      set (s0 := with_event _ (tick_redis s)).
      destruct fuel as [|fuel]; [done|].
      rewrite load_model_no_eviction; [|by rewrite check_memory_pressure_run in *
                                       |done].
      rewrite loading_run. destruct (registered model_name); [|done].
      destruct (loader_ok env (loader_i _)).
      { by destruct (redis_up env (redis_i _)). }
      intros _. cbn [snd].
      apply (freed_events s _
               [ERedis GET (metadata_key model_name);
                ELogInfo ("Loading model " ++ model_name
                          ++ " into GPU memory");
                ELoader model_name false;
                ELogError ("Failed to load model " ++ model_name)
                  (LoaderError model_name)]).
      destruct (cuda_available env); cbn; by rewrite <- !app_assoc. }
    rewrite Hnone in M, L. by rewrite Hnone.
Qed.

Lemma failed_load_takes_no_slot_witness :
  consistent two_resident ∧
  mem "ANI1ccx" (models_in_memory two_resident) = false ∧
  ELoader "ANI1ccx" false
    ∈ new_events two_resident
        (get_model default_settings env_loader_fails 2 "ANI1ccx" two_resident).2 ∧
  (get_model default_settings env_loader_fails 2 "ANI1ccx" two_resident).1
    = Raised (LoaderError "ANI1ccx") ∧
  freed two_resident
    (get_model default_settings env_loader_fails 2 "ANI1ccx" two_resident).2
    = ["ANI2x"] ∧
  models_in_memory
    (get_model default_settings env_loader_fails 2 "ANI1ccx" two_resident).2
    = del_all ["ANI2x"] (models_in_memory two_resident).
Proof.
  assert (Hc : consistent two_resident).
  { intros k. unfold mem. cbn.
    by destruct (String.eqb k "ANI2x"), (String.eqb k "ANI1x"). }
  assert (Hm : mem "ANI1ccx" (models_in_memory two_resident) = false)
    by reflexivity.
  assert (Hev : ELoader "ANI1ccx" false
    ∈ new_events two_resident
        (get_model default_settings env_loader_fails 2 "ANI1ccx" two_resident).2).
  { apply (list_elem_of_lookup_2 _ 6). by vm_compute. }
  assert (Hf : freed two_resident
                 (get_model default_settings env_loader_fails 2 "ANI1ccx"
                    two_resident).2 = ["ANI2x"]) by (by vm_compute).
  split_and!; [exact Hc | exact Hm | exact Hev | | exact Hf |].
  - exact (proj1 (failed_load_takes_no_slot default_settings env_loader_fails 2
                    "ANI1ccx" two_resident Hc Hm Hev)).
  - rewrite <- Hf.
    exact (proj1 (proj2 (proj2 (proj2
             (failed_load_takes_no_slot default_settings env_loader_fails 2
                "ANI1ccx" two_resident Hc Hm Hev))))).
Defined.

Lemma pressure_loop_no_pressure (settings : Settings) (env : Env) (fuel : nat)
    (s : State) :
  (_check_memory_pressure settings env s).1 = Returned false →
  pressure_loop settings env (S fuel) s
  = (Returned tt, (if cuda_available env then tick_gauge else id) s).
Proof.
  intros Hp. rewrite check_memory_pressure_run in Hp. cbn [fst] in Hp.
  injection Hp as Hp. cbn [pressure_loop].
  rewrite run_bind, check_memory_pressure_run, Hp, run_bind. cbn [gets].
  reflexivity.
Qed.

Lemma limit_loop_at_capacity (settings : Settings) (env : Env) (fuel : nat)
    (s : State) (victim : string) :
  len (models_in_memory s) = model_max_loaded settings →
  models_in_memory s ≠ [] →
  min_by_value (model_last_used s) = Some victim →
  mem victim (models_in_memory s) = true →
  mem victim (model_last_used s) = true →
  redis_up env (redis_i s) = true →
  limit_loop settings env (S (S fuel)) s =
  (Returned tt,
   with_event (ERedis DELETE (metadata_key victim))
     (tick_redis
        (with_event (EFree victim)
           (with_last_used (del victim)
              (with_models (del victim)
                 (with_event
                    (ELogInfo ("Unloading model " ++ victim ++ " from GPU memory"))
                    (with_event
                       (ELogInfo ("Evicting model " ++ victim
                                  ++ " due to memory pressure")) s))))))).
Proof.
  intros Hlen Hne Hmin Hm Hl Hup.
  cbn [limit_loop]. rewrite run_bind. cbn [gets].
  destruct (Z.leb_spec (model_max_loaded settings) (len (models_in_memory s)))
    as [_|Hlt]; [|lia].
  rewrite run_bind, (evict_oldest_state env s victim Hne Hmin Hm Hl), Hup.
  set (s_ev := with_event (ERedis DELETE _) _).
  cbn [limit_loop]. rewrite run_bind. cbn [gets].
  change (models_in_memory s_ev) with (del victim (models_in_memory s)).
  destruct (Z.leb_spec (model_max_loaded settings)
              (len (del victim (models_in_memory s)))) as [Hle|_];
    [|reflexivity].
  pose proof (length_del_mem victim (models_in_memory s) Hm).
  unfold len in *. lia.
Qed.

(** X3. When every slot is taken, the gauge reads no pressure and Redis and
    the loader answer, [get_model] of a registered model that is not
    resident evicts exactly the least recently used model and puts the new
    one in its place: the call returns the fresh handle, and both
    dictionaries are the old ones with the victim deleted and the new entry
    added. *)
Theorem get_model_replaces_least_recently_used (settings : Settings)
    (env : Env) (fuel : nat) (model_name : string) (s : State) :
  consistent s →
  models_in_memory s ≠ [] →
  len (models_in_memory s) = model_max_loaded settings →
  registered model_name = true →
  mem model_name (models_in_memory s) = false →
  (_check_memory_pressure settings env s).1 = Returned false →
  redis_up env (redis_i s) = true →
  redis_up env (S (redis_i s)) = true →
  redis_up env (S (S (redis_i s))) = true →
  loader_ok env (loader_i s) = true →
  ∃ victim t,
    (victim, t) ∈ model_last_used s ∧
    (∀ k' t', (k', t') ∈ model_last_used s → (t <= t')%Q) ∧
    (get_model settings env (S (S fuel)) model_name s).1
      = Returned (loader_i s) ∧
    models_in_memory (get_model settings env (S (S fuel)) model_name s).2
      = set model_name (loader_i s) (del victim (models_in_memory s)) ∧
    model_last_used (get_model settings env (S (S fuel)) model_name s).2
      = set model_name (time_time env (clock_i s))
          (del victim (model_last_used s)) ∧
    new_events s (get_model settings env (S (S fuel)) model_name s).2
      = [ERedis GET (metadata_key model_name);
         ELogInfo ("Loading model " ++ model_name ++ " into GPU memory");
         ELogInfo ("Evicting model " ++ victim ++ " due to memory pressure");
         ELogInfo ("Unloading model " ++ victim ++ " from GPU memory");
         EFree victim;
         ERedis DELETE (metadata_key victim);
         ELoader model_name true;
         ERedis (SETEX (redis_model_ttl settings)) (metadata_key model_name);
         ELogInfo ("Model " ++ model_name ++ " loaded successfully")].
Proof.
  intros Hc Hne Hlen Hreg Hm Hp Hup0 Hup1 Hup2 Hok.
  destruct (oldest_exists s Hc Hne) as (victim & t & Hmin & Hin & Hle & Hvm & Hvl).
  exists victim, t. split; [done|]. split; [done|].
  set (s0 := with_event (ERedis GET (metadata_key model_name)) (tick_redis s)).
  set (s1 := with_event
               (ELogInfo ("Loading model " ++ model_name ++ " into GPU memory"))
               s0).
  set (s2 := (if cuda_available env then tick_gauge else id) s1).
  assert (Hp1 : (_check_memory_pressure settings env s1).1 = Returned false)
    by (rewrite check_memory_pressure_run in Hp |- *; exact Hp).
  assert (H2 : models_in_memory s2 = models_in_memory s ∧
               model_last_used s2 = model_last_used s ∧
               redis_i s2 = S (redis_i s) ∧ loader_i s2 = loader_i s ∧
               clock_i s2 = clock_i s ∧
               trace s2 = (trace s ++ [ERedis GET (metadata_key model_name);
                 ELogInfo ("Loading model " ++ model_name
                           ++ " into GPU memory")])%list).
  { unfold s2. destruct (cuda_available env); simpl;
      by rewrite <- !app_assoc. }
  destruct H2 as (Hm2 & Hl2 & Hr2 & Hlo2 & Hcl2 & Ht2).
  pose proof (limit_loop_at_capacity settings env fuel s2 victim) as Hlim.
  rewrite Hm2, Hl2, Hr2 in Hlim. specialize (Hlim Hlen Hne Hmin Hvm Hvl Hup1).
  assert (E : get_model settings env (S (S fuel)) model_name s =
              loading settings env model_name (limit_loop settings env (S (S fuel)) s2).2).
  { rewrite get_model_miss, run_bind by done. unfold redis_call. rewrite Hup0.
    fold s0. unfold _load_model. rewrite run_bind. cbn [emit modify]. fold s1.
    rewrite run_bind, (pressure_loop_no_pressure settings env (S fuel) s1 Hp1).
    fold s2. rewrite run_bind, Hlim. reflexivity. }
  rewrite E, Hlim. clear E Hlim Hp1. clearbody s2.
  rewrite loading_run, Hreg. cbn [snd]. simpl loader_i. simpl redis_i.
  rewrite Hlo2, Hok, Hr2, Hup2.
  destruct (cuda_available env); simpl; rewrite Hm2, Hl2, Hcl2.
  all: split_and!; try done.
  all: apply new_events_app; simpl; rewrite Ht2; by rewrite <- !app_assoc.
Qed.

Lemma get_model_replaces_least_recently_used_witness :
  consistent two_resident ∧
  models_in_memory two_resident ≠ [] ∧
  len (models_in_memory two_resident) = model_max_loaded default_settings ∧
  registered "ANI1ccx" = true ∧
  mem "ANI1ccx" (models_in_memory two_resident) = false ∧
  (_check_memory_pressure default_settings env_steady two_resident).1
    = Returned false ∧
  redis_up env_steady (redis_i two_resident) = true ∧
  redis_up env_steady (S (redis_i two_resident)) = true ∧
  redis_up env_steady (S (S (redis_i two_resident))) = true ∧
  loader_ok env_steady (loader_i two_resident) = true ∧
  ∃ victim t,
    (victim, t) ∈ model_last_used two_resident ∧
    (∀ k' t', (k', t') ∈ model_last_used two_resident → (t <= t')%Q) ∧
    (get_model default_settings env_steady 2 "ANI1ccx" two_resident).1
      = Returned (loader_i two_resident) ∧
    models_in_memory
      (get_model default_settings env_steady 2 "ANI1ccx" two_resident).2
      = set "ANI1ccx" (loader_i two_resident)
          (del victim (models_in_memory two_resident)).
Proof.
  assert (Hc : consistent two_resident).
  { intros k. unfold mem. cbn.
    by destruct (String.eqb k "ANI2x"), (String.eqb k "ANI1x"). }
  assert (H1 : models_in_memory two_resident ≠ []) by done.
  assert (H2 : len (models_in_memory two_resident)
               = model_max_loaded default_settings) by reflexivity.
  assert (H3 : registered "ANI1ccx" = true) by reflexivity.
  assert (H4 : mem "ANI1ccx" (models_in_memory two_resident) = false)
    by reflexivity.
  assert (H5 : (_check_memory_pressure default_settings env_steady
                  two_resident).1 = Returned false) by reflexivity.
  assert (H6 : redis_up env_steady (redis_i two_resident) = true)
    by reflexivity.
  assert (H7 : redis_up env_steady (S (redis_i two_resident)) = true)
    by reflexivity.
  assert (H8 : redis_up env_steady (S (S (redis_i two_resident))) = true)
    by reflexivity.
  assert (H9 : loader_ok env_steady (loader_i two_resident) = true)
    by reflexivity.
  split_and!; [done..|].
  destruct (get_model_replaces_least_recently_used default_settings env_steady
              0 "ANI1ccx" two_resident Hc H1 H2 H3 H4 H5 H6 H7 H8 H9)
    as (victim & t & Hin & Hle & Hout & Hm & _).
  exists victim, t. by split_and!.
Defined.

(** ** A world in which Redis and the loader answer *)

Lemma evict_oldest_returns (env : Env) (s : State) :
  redis_up env (redis_i s) = true →
  consistent s → models_in_memory s ≠ [] →
  (_evict_oldest_model env s).1 = Returned tt.
Proof.
  intros Hup Hc Hne.
  destruct (oldest_exists s Hc Hne) as (victim & t & Hmin & _ & _ & Hm & Hl).
  by rewrite (evict_oldest_state env s victim Hne Hmin Hm Hl), Hup.
Qed.

Lemma pressure_loop_succeeds (settings : Settings) (env : Env) (fuel : nat)
    (s : State) :
  (∀ n, redis_up env n = true) →
  consistent s → (length (models_in_memory s) < fuel)%nat →
  (pressure_loop settings env fuel s).1 = Returned tt.
Proof.
  intros Hup. revert s. induction fuel as [|fuel IH]; intros s Hc Hlen; [lia|].
  cbn [pressure_loop]. rewrite run_bind, check_memory_pressure_run.
  set (s1 := (if cuda_available env then tick_gauge else id) s).
  assert (H1 : consistent s1 ∧ models_in_memory s1 = models_in_memory s).
  { unfold s1. by destruct (cuda_available env). }
  destruct H1 as [Hc1 Hm1]. rewrite run_bind. cbn [gets].
  destruct (Qltb _ _); [|by destruct (models_in_memory s1)].
  destruct (models_in_memory s1) as [|entry models] eqn:E; [done|].
  rewrite run_bind.
  destruct (evict_oldest_progress env s1 Hc1) as (_ & Hc2 & Hlen2).
  { by rewrite E. }
  pose proof (evict_oldest_returns env s1 (Hup _) Hc1) as Hret.
  rewrite E in Hret. specialize (Hret ltac:(done)).
  destruct (_evict_oldest_model env s1) as [[[]|e|] s2]; cbn in *;
    [|done..].
  apply IH; [done|]. rewrite E, Hm1 in Hlen2. lia.
Qed.

Lemma limit_loop_succeeds (settings : Settings) (env : Env) (fuel : nat)
    (s : State) :
  (∀ n, redis_up env n = true) →
  (1 ≤ model_max_loaded settings)%Z →
  consistent s → (length (models_in_memory s) < fuel)%nat →
  (limit_loop settings env fuel s).1 = Returned tt.
Proof.
  intros Hup Hcap. revert s.
  induction fuel as [|fuel IH]; intros s Hc Hlen; [lia|].
  cbn [limit_loop]. rewrite run_bind. cbn [gets].
  destruct (Z.leb_spec (model_max_loaded settings) (len (models_in_memory s)))
    as [Hle|Hlt]; [|done].
  rewrite run_bind.
  assert (Hne : models_in_memory s ≠ []).
  { intros E. rewrite E in Hle. unfold len in Hle. cbn in Hle. lia. }
  destruct (evict_oldest_progress env s Hc Hne) as (_ & Hc2 & Hlen2).
  pose proof (evict_oldest_returns env s (Hup _) Hc Hne) as Hret.
  destruct (_evict_oldest_model env s) as [[[]|e|] s2]; cbn in *; [|done..].
  apply IH; [done | lia].
Qed.

(** X4. In a world in which Redis and the loader always answer, with at
    least one slot configured and fuel above the resident count, [get_model]
    of a registered name always returns a handle, whatever the memory
    pressure; afterwards the model is resident under that handle and the
    two dictionaries still have the same keys. *)
Theorem get_model_succeeds_when_world_answers (settings : Settings)
    (env : Env) (fuel : nat) (model_name : string) (s : State) :
  answering env →
  registered model_name = true →
  (1 ≤ model_max_loaded settings)%Z →
  consistent s →
  (length (models_in_memory s) < fuel)%nat →
  ∃ model,
    (get_model settings env fuel model_name s).1 = Returned model ∧
    get model_name
      (models_in_memory (get_model settings env fuel model_name s).2)
    = Some model ∧
    consistent (get_model settings env fuel model_name s).2.
Proof.
  intros [Hup Hok] Hreg Hcap Hc Hlen.
  pose proof (λ n s (_ : mem n (models_in_memory s) = true)
                (_ : mem n (model_last_used s) = true),
              keeps_consistent_del n s) as Hdel.
  assert (Hcons : consistent (get_model settings env fuel model_name s).2).
  { by apply (steps_get_model settings env keeps_consistent
                idle_keeps_consistent Hdel keeps_consistent_del_untimed
                keeps_consistent_loader keeps_consistent_store
                keeps_consistent_touch). }
  cut (∃ model, (get_model settings env fuel model_name s).1 = Returned model).
  { intros [model Hret]. exists model. split_and!; [done | | done].
    by apply get_model_returned. }
  clear Hcons.
  destruct (mem model_name (models_in_memory s)) eqn:Hm.
  { rewrite get_model_hit, Hup by done. cbn [fst]. unfold mem in Hm.
    destruct (get model_name (models_in_memory s)) as [model|]; [|done].
    by exists model. }
  rewrite get_model_miss, run_bind by done.
  unfold redis_call. rewrite Hup.
  set (s0 := with_event _ (tick_redis s)).
  unfold _load_model. rewrite run_bind. cbn [emit modify].
  set (s1 := with_event _ s0).
  assert (Hc1 : consistent s1) by exact Hc.
  assert (Hlen1 : (length (models_in_memory s1) < fuel)%nat) by exact Hlen.
  rewrite run_bind.
  pose proof (pressure_loop_succeeds settings env fuel s1 Hup Hc1 Hlen1) as Hp.
  pose proof (steps_pressure_loop settings env keeps_consistent
                idle_keeps_consistent Hdel keeps_consistent_del_untimed
                fuel s1 Hc1) as Hc2.
  pose proof (shrinks_no_growth _ _
                (steps_shrinks_pressure_loop settings env fuel s1)) as Hlen2.
  unfold no_growth in Hlen2.
  destruct (pressure_loop settings env fuel s1) as [[[]|e|] s2];
    cbn [fst snd] in *; [|done..].
  rewrite run_bind.
  pose proof (limit_loop_succeeds settings env fuel s2 Hup Hcap Hc2) as Hl.
  destruct (limit_loop settings env fuel s2) as [[[]|e|] s3];
    cbn [fst snd] in *; [|by specialize (Hl ltac:(lia))..].
  rewrite loading_run, Hreg, Hok, Hup. by eexists.
Qed.

Lemma get_model_succeeds_when_world_answers_witness :
  answering env_pressure ∧
  registered "ANI1ccx" = true ∧
  (1 ≤ model_max_loaded default_settings)%Z ∧
  consistent two_resident ∧
  (length (models_in_memory two_resident) < 3)%nat ∧
  ∃ model,
    (get_model default_settings env_pressure 3 "ANI1ccx" two_resident).1
      = Returned model ∧
    get "ANI1ccx"
      (models_in_memory
         (get_model default_settings env_pressure 3 "ANI1ccx" two_resident).2)
    = Some model ∧
    consistent
      (get_model default_settings env_pressure 3 "ANI1ccx" two_resident).2.
Proof.
  assert (H1 : answering env_pressure) by (by split).
  assert (H2 : registered "ANI1ccx" = true) by reflexivity.
  assert (H3 : (1 ≤ model_max_loaded default_settings)%Z) by done.
  assert (H4 : consistent two_resident).
  { intros k. unfold mem. cbn.
    by destruct (String.eqb k "ANI2x"), (String.eqb k "ANI1x"). }
  assert (H5 : (length (models_in_memory two_resident) < 3)%nat)
    by (cbn; lia).
  split_and!; [done..|].
  exact (get_model_succeeds_when_world_answers default_settings env_pressure 3
           "ANI1ccx" two_resident H1 H2 H3 H4 H5).
Defined.

(** ** Recency protects from eviction *)

Lemma entry_key {V} (k : string) (v : V) (d : dict V) : (k, v) ∈ d → k ∈ keys d.
Proof. intros H. unfold keys. by apply (list_elem_of_fmap_2 fst) in H. Qed.

Lemma set_entries {V} (name : string) (t : V) (d : dict V) (k : string) (v : V) :
  NoDup (keys d) → (k, v) ∈ set name t d →
  (k = name ∧ v = t) ∨ (k ≠ name ∧ (k, v) ∈ d).
Proof.
  unfold keys. induction d as [|[k' v'] d IH]; cbn; intros Hnd Hin.
  - apply list_elem_of_singleton in Hin as [= -> ->]. by left.
  - apply NoDup_cons in Hnd as [Hk' Hnd].
    destruct (String.eqb_spec name k') as [->|Hne].
    + apply elem_of_cons in Hin as [[= -> ->]|Hin]; [by left|].
      right. split; [|by right]. intros ->. apply Hk'.
      by apply (entry_key _ v).
    + apply elem_of_cons in Hin as [[= -> ->]|Hin].
      * right. split; [done | left].
      * destruct (IH Hnd Hin) as [?|[? ?]]; [by left|].
        right. split; [done | by right].
Qed.

Lemma set_keeps_entry {V} (name : string) (t : V) (d : dict V)
    (k : string) (v : V) :
  k ≠ name → (k, v) ∈ d → (k, v) ∈ set name t d.
Proof.
  intros Hne. induction d as [|[k' v'] d IH]; cbn; intros Hin.
  - by apply elem_of_nil in Hin.
  - apply elem_of_cons in Hin as [[= <- <-]|Hin].
    + destruct (String.eqb_spec name k) as [->|_]; [done | left].
    + destruct (String.eqb name k'); right; auto.
Qed.

(** After the last-used time of [name] has been set to [now], later than the
    last use of some other resident model, the next eviction takes another
    model than [name]. *)
Lemma fresh_entry_survives_eviction (env : Env) (s1 : State)
    (name other : string) (now t' : Q) (d : dict Q) :
  consistent s1 → NoDup (keys d) →
  model_last_used s1 = set name now d →
  mem name (models_in_memory s1) = true →
  (other, t') ∈ d → other ≠ name → (t' < now)%Q →
  mem name (models_in_memory (_evict_oldest_model env s1).2) = true ∧
  ∃ victim, victim ≠ name ∧
            EFree victim ∈ new_events s1 (_evict_oldest_model env s1).2.
Proof.
  intros Hc Hnd Hl Hm Hother Hne Hlt.
  assert (Hnonempty : models_in_memory s1 ≠ []) by (by eapply mem_nonempty).
  destruct (oldest_exists s1 Hc Hnonempty)
    as (victim & t & Hmin & Hin & Hle & Hvm & Hvl).
  assert (Hvictim : victim ≠ name).
  { intros ->. rewrite Hl in Hin, Hle.
    apply set_entries in Hin as [[_ ->]|[? _]]; [|done..].
    specialize (Hle other t' (set_keeps_entry name now d other t' Hne Hother)).
    by apply Qlt_not_le in Hlt. }
  rewrite (evict_oldest_state env s1 victim Hnonempty Hmin Hvm Hvl).
  split.
  - simpl. rewrite mem_del_eq.
    by destruct (String.eqb_spec victim name) as [->|_].
  - exists victim. split; [done|]. unfold new_events. simpl.
    rewrite <- !app_assoc, drop_app_length. simpl. do 2 right. left.
Qed.

(** X5. A model that has just been released, or acquired while resident, at
    a time later than the last use of some other resident model is not the
    victim of the next eviction: [_evict_oldest_model] evicts another
    model. *)
Theorem recently_used_model_is_not_evicted (settings : Settings) (env : Env)
    (fuel : nat) (model_name other : string) (t' : Q) (s : State) :
  consistent s →
  NoDup (keys (model_last_used s)) →
  mem model_name (models_in_memory s) = true →
  (other, t') ∈ model_last_used s →
  other ≠ model_name →
  (t' < time_time env (clock_i s))%Q →
  (mem model_name
     (models_in_memory
        (_evict_oldest_model env (release env model_name s).2).2) = true ∧
   ∃ victim, victim ≠ model_name ∧
     EFree victim
       ∈ new_events (release env model_name s).2
           (_evict_oldest_model env (release env model_name s).2).2) ∧
  (mem model_name
     (models_in_memory
        (_evict_oldest_model env
           (get_model settings env fuel model_name s).2).2) = true ∧
   ∃ victim, victim ≠ model_name ∧
     EFree victim
       ∈ new_events (get_model settings env fuel model_name s).2
           (_evict_oldest_model env
              (get_model settings env fuel model_name s).2).2).
Proof.
  intros Hc Hnd Hm Hother Hne Hlt. split.
  - apply (fresh_entry_survives_eviction env _ model_name other
             (time_time env (clock_i s)) t' (model_last_used s));
      try done; rewrite release_run, Hm; try done.
    by apply keeps_consistent_touch.
  - apply (fresh_entry_survives_eviction env _ model_name other
             (time_time env (clock_i s)) t' (model_last_used s));
      try done; rewrite get_model_hit by done; try done.
    by apply keeps_consistent_touch.
Qed.

Lemma recently_used_model_is_not_evicted_witness :
  consistent two_resident ∧
  NoDup (keys (model_last_used two_resident)) ∧
  mem "ANI2x" (models_in_memory two_resident) = true ∧
  ("ANI1x", 2%Q) ∈ model_last_used two_resident ∧
  "ANI1x" ≠ "ANI2x" ∧
  (2 < time_time env_steady (clock_i two_resident))%Q ∧
  mem "ANI2x"
    (models_in_memory
       (_evict_oldest_model env_steady
          (release env_steady "ANI2x" two_resident).2).2) = true.
Proof.
  assert (H1 : consistent two_resident).
  { intros k. unfold mem. cbn.
    by destruct (String.eqb k "ANI2x"), (String.eqb k "ANI1x"). }
  assert (H2 : NoDup (keys (model_last_used two_resident))).
  { apply (bool_decide_unpack _). by vm_compute. }
  assert (H3 : mem "ANI2x" (models_in_memory two_resident) = true)
    by reflexivity.
  assert (H4 : ("ANI1x", 2%Q) ∈ model_last_used two_resident)
    by (right; left).
  assert (H5 : "ANI1x" ≠ "ANI2x") by done.
  assert (H6 : (2 < time_time env_steady (clock_i two_resident))%Q) by done.
  split_and!; [done..|].
  exact (proj1 (proj1 (recently_used_model_is_not_evicted default_settings
                         env_steady 1 "ANI2x" "ANI1x" 2%Q two_resident
                         H1 H2 H3 H4 H5 H6))).
Defined.

(** ** Scoped acquisition *)

(** X6. [get_model_context] releases on every exit path of its body and
    only there.  When [get_model] raises, the context raises the same error
    and neither the body nor the release runs.  When [get_model] returns and
    the body returns or raises, the context ends with the body's outcome
    (the release never raises), and the last-used time of the model is set
    to the time of exit if the model is still resident; if the body evicted
    it, the exit changes nothing. *)
Theorem get_model_context_releases_on_exit {A} (settings : Settings)
    (env : Env) (fuel : nat) (model_name : string) (body : handle → M A)
    (s : State) :
  (∀ e, (get_model settings env fuel model_name s).1 = Raised e →
        get_model_context settings env fuel model_name body s
        = (Raised e, (get_model settings env fuel model_name s).2)) ∧
  (∀ model,
      (get_model settings env fuel model_name s).1 = Returned model →
      let s1 := (get_model settings env fuel model_name s).2 in
      let s2 := (body model s1).2 in
      (body model s1).1 ≠ OutOfFuel →
      (get_model_context settings env fuel model_name body s).1
        = (body model s1).1 ∧
      (get_model_context settings env fuel model_name body s).2
        = (if mem model_name (models_in_memory s2)
           then with_last_used
                  (set model_name (time_time env (clock_i s2))) (tick_clock s2)
           else s2)).
Proof.
  unfold get_model_context. rewrite run_bind. split.
  - intros e He. destruct (get_model settings env fuel model_name s)
      as [[model|e'|] s1]; cbn in *; congruence.
  - intros model Hret.
    destruct (get_model settings env fuel model_name s) as [[model'|e'|] s1];
      cbn in *; try discriminate.
    injection Hret as ->. intros Hbody. unfold try_finally.
    destruct (body model s1) as [[a|e|] s2]; cbn in *; try done.
    all: rewrite release_run.
    all: by destruct (mem model_name (models_in_memory s2)).
Qed.

Lemma get_model_context_releases_on_exit_witness :
  (get_model default_settings env_steady 1 "ANI2x" two_resident).1
    = Returned 0%nat ∧
  (failing_body 0%nat
     (get_model default_settings env_steady 1 "ANI2x" two_resident).2).1
    ≠ OutOfFuel ∧
  (get_model_context default_settings env_steady 1 "ANI2x" failing_body
     two_resident).1
  = Raised (ValueError "Unknown optimizer: SGD").
Proof.
  assert (H1 : (get_model default_settings env_steady 1 "ANI2x"
                  two_resident).1 = Returned 0%nat) by reflexivity.
  assert (H2 : (failing_body 0%nat
     (get_model default_settings env_steady 1 "ANI2x" two_resident).2).1
    ≠ OutOfFuel) by done.
  split_and!; [done..|].
  exact (proj1 (proj2 (get_model_context_releases_on_exit default_settings
                         env_steady 1 "ANI2x" failing_body two_resident)
                  0%nat H1 H2)).
Defined.

(** ** Shutdown *)

Lemma unload_resident_run (env : Env) (model_name : string) (s : State) :
  consistent s → redis_up env (redis_i s) = true →
  mem model_name (models_in_memory s) = true →
  (_unload_model env model_name s).1 = Returned tt ∧
  models_in_memory (_unload_model env model_name s).2
    = del model_name (models_in_memory s) ∧
  model_last_used (_unload_model env model_name s).2
    = del model_name (model_last_used s) ∧
  ∃ evs, trace (_unload_model env model_name s).2 = (trace s ++ evs)%list ∧
         EFree model_name ∈ evs.
Proof.
  intros Hc Hup Hm. rewrite unload_run, Hm, <- (Hc model_name), Hm, Hup.
  split_and!; try done. eexists. split.
  - simpl. rewrite <- !app_assoc. reflexivity.
  - right. left.
Qed.

Lemma unload_all_run (env : Env) (names : list string) (s : State) :
  (∀ n, redis_up env n = true) →
  consistent s →
  (∀ k, mem k (models_in_memory s) = true → k ∈ names) →
  (for_each names (_unload_model env) s).1 = Returned tt ∧
  models_in_memory (for_each names (_unload_model env) s).2 = [] ∧
  model_last_used (for_each names (_unload_model env) s).2 = [] ∧
  ∃ evs, trace (for_each names (_unload_model env) s).2 = (trace s ++ evs)%list ∧
         ∀ k, mem k (models_in_memory s) = true → EFree k ∈ evs.
Proof.
  intros Hup. revert s. induction names as [|x names IH]; intros s Hc Hall.
  - cbn. assert (Hm : models_in_memory s = []).
    { destruct (models_in_memory s) as [|[k v] d] eqn:E; [done|].
      exfalso. specialize (Hall k). rewrite ?E in Hall.
      unfold mem in Hall. cbn in Hall. rewrite String.eqb_refl in Hall.
      specialize (Hall eq_refl). by apply elem_of_nil in Hall. }
    assert (Hl : model_last_used s = []).
    { destruct (model_last_used s) as [|[k v] d] eqn:E; [done|].
      exfalso. specialize (Hc k). rewrite ?Hm, ?E in Hc.
      unfold mem in Hc. cbn in Hc. by rewrite String.eqb_refl in Hc. }
    split_and!; try done. exists []. split; [by rewrite app_nil_r|].
    intros k Hk. by rewrite Hm in Hk.
  - cbn [for_each]. rewrite run_bind.
    destruct (mem x (models_in_memory s)) eqn:Hx.
    + destruct (unload_resident_run env x s Hc (Hup _) Hx)
        as (Hret & Hm1 & Hl1 & evs1 & Ht1 & Hfree).
      destruct (_unload_model env x s) as [[[]|e|] s1]; cbn in *;
        try discriminate.
      destruct (IH s1) as (Hret2 & Hm2 & Hl2 & evs2 & Ht2 & Hfree2).
      { intros k. by rewrite Hm1, Hl1, !mem_del_eq, Hc. }
      { intros k. rewrite Hm1, mem_del_eq.
        destruct (String.eqb_spec x k) as [->|Hne]; [done|].
        intros Hk. apply Hall in Hk.
        apply elem_of_cons in Hk as [->|Hk]; done. }
      split_and!; try done. exists (evs1 ++ evs2)%list.
      split; [by rewrite Ht2, Ht1, app_assoc|].
      intros k Hk. apply elem_of_app.
      destruct (String.eqb_spec x k) as [<-|Hne]; [by left|].
      right. apply Hfree2. by rewrite Hm1, mem_del_eq, (proj2 (String.eqb_neq _ _) Hne).
    + rewrite unload_run, Hx. apply IH; [done|].
      intros k Hk. pose proof (Hall k Hk) as Hin.
      apply elem_of_cons in Hin as [->|Hin]; [congruence | done].
Qed.

(** X7. [close] closes the Redis client before it unloads anything.  If
    that raises, [close] raises at once and every model stays resident.  If
    Redis answers every command, [close] returns with both dictionaries
    empty and every model that was resident freed. *)
Theorem close_unloads_everything (env : Env) (s : State) :
  consistent s →
  (redis_up env (redis_i s) = false →
   close env s
   = (Raised RedisError, with_event (ERedis CLOSE "") (tick_redis s))) ∧
  ((∀ n, redis_up env n = true) →
   (close env s).1 = Returned tt ∧
   models_in_memory (close env s).2 = [] ∧
   model_last_used (close env s).2 = [] ∧
   ∀ k, mem k (models_in_memory s) = true →
        EFree k ∈ new_events s (close env s).2).
Proof.
  intros Hc. unfold close. rewrite run_bind. unfold redis_call. split.
  - by intros ->.
  - intros Hup. rewrite Hup, run_bind. cbn [gets].
    set (s0 := with_event _ (tick_redis s)).
    destruct (unload_all_run env (keys (models_in_memory s0)) s0 Hup)
      as (Hret & Hm & Hl & evs & Ht & Hfree); [done | |].
    { intros k Hk. by apply mem_keys. }
    split_and!; try done. intros k Hk.
    rewrite (new_events_app s _ (ERedis CLOSE "" :: evs)).
    + right. by apply Hfree.
    + rewrite Ht. simpl. by rewrite <- app_assoc.
Qed.

Lemma close_unloads_everything_witness :
  consistent two_resident ∧
  (∀ n, redis_up env_steady n = true) ∧
  (close env_steady two_resident).1 = Returned tt ∧
  models_in_memory (close env_steady two_resident).2 = [].
Proof.
  assert (H1 : consistent two_resident).
  { intros k. unfold mem. cbn.
    by destruct (String.eqb k "ANI2x"), (String.eqb k "ANI1x"). }
  assert (H2 : ∀ n, redis_up env_steady n = true) by done.
  split_and!; [done..| |].
  - exact (proj1 (proj2 (close_unloads_everything env_steady two_resident H1) H2)).
  - exact (proj1 (proj2 (proj2 (close_unloads_everything env_steady
                                  two_resident H1) H2))).
Defined.

(** ** Startup *)

Lemma preload_one_run (settings : Settings) (env : Env) (fuel : nat)
    (model_name : string) (s : State) :
  try_except
    (get_model settings env fuel model_name;;
     emit (ELogInfo ("Preloaded model: " ++ model_name)))
    (λ e, emit (ELogError ("Failed to preload model " ++ model_name) e)) s =
  match get_model settings env fuel model_name s with
  | (Returned _, s1) =>
      (Returned tt, with_event (ELogInfo ("Preloaded model: " ++ model_name)) s1)
  | (Raised e, s1) =>
      (Returned tt,
       with_event (ELogError ("Failed to preload model " ++ model_name) e) s1)
  | (OutOfFuel, s1) => (OutOfFuel, s1)
  end.
Proof.
  unfold try_except. rewrite run_bind.
  by destruct (get_model settings env fuel model_name s) as [[model|e|] s1].
Qed.

Lemma initialize_cons (settings : Settings) (env : Env) (fuel : nat)
    (model_name : string) (rest : list string) (s : State) :
  initialize settings env fuel (model_name :: rest) s =
  match get_model settings env fuel model_name s with
  | (Returned _, s1) =>
      initialize settings env fuel rest
        (with_event (ELogInfo ("Preloaded model: " ++ model_name)) s1)
  | (Raised e, s1) =>
      initialize settings env fuel rest
        (with_event (ELogError ("Failed to preload model " ++ model_name) e) s1)
  | (OutOfFuel, s1) => (OutOfFuel, s1)
  end.
Proof.
  unfold initialize at 1. cbn [for_each]. rewrite run_bind, preload_one_run.
  by destruct (get_model settings env fuel model_name s) as [[model|e|] s1].
Qed.

(** X8. The preload loop of [initialize] never raises: a model that fails
    to load (unknown name, loader or Redis error) is logged and skipped.  The
    loop keeps the key sets of the two dictionaries equal and the resident
    count within the capacity, and with at least one slot and fuel above
    the capacity it runs to its end and returns. *)
Theorem initialize_never_raises (settings : Settings) (env : Env)
    (fuel : nat) (model_preload : list string) (s : State) :
  consistent s →
  within_capacity settings s →
  (∀ e, (initialize settings env fuel model_preload s).1 ≠ Raised e) ∧
  consistent (initialize settings env fuel model_preload s).2 ∧
  within_capacity settings (initialize settings env fuel model_preload s).2 ∧
  ((1 ≤ model_max_loaded settings)%Z →
   (model_max_loaded settings < Z.of_nat fuel)%Z →
   (initialize settings env fuel model_preload s).1 = Returned tt).
Proof.
  revert s. induction model_preload as [|model_name rest IH]; intros s Hc Hw.
  { by split_and!. }
  rewrite initialize_cons.
  pose proof (λ n s (_ : mem n (models_in_memory s) = true)
                (_ : mem n (model_last_used s) = true),
              keeps_consistent_del n s) as Hdel.
  pose proof (steps_get_model settings env keeps_consistent
                idle_keeps_consistent Hdel keeps_consistent_del_untimed
                keeps_consistent_loader keeps_consistent_store
                keeps_consistent_touch fuel model_name s Hc) as Hc1.
  pose proof (within_capacity_get_model settings env fuel model_name s Hw)
    as Hw1.
  pose proof (get_model_completes settings env fuel model_name s) as Hdone.
  destruct (get_model settings env fuel model_name s) as [[model|e|] s1];
    cbn [fst snd] in *.
  1,2: apply IH; done.
  split_and!; try done. intros Hcap Hfuel. exfalso.
  apply Hdone; try done. unfold within_capacity, len in Hw. lia.
Qed.

Lemma initialize_never_raises_witness :
  consistent init_state ∧
  within_capacity default_settings init_state ∧
  (1 ≤ model_max_loaded default_settings)%Z ∧
  (model_max_loaded default_settings < Z.of_nat 3)%Z ∧
  (initialize default_settings env_loader_fails 3 ["ANI2x"; "foo"] init_state).1
  = Returned tt.
Proof.
  assert (H1 : consistent init_state) by (by intros k).
  assert (H2 : within_capacity default_settings init_state) by done.
  assert (H3 : (1 ≤ model_max_loaded default_settings)%Z) by done.
  assert (H4 : (model_max_loaded default_settings < Z.of_nat 3)%Z) by done.
  split_and!; [done..|].
  exact (proj2 (proj2 (proj2 (initialize_never_raises default_settings
                                env_loader_fails 3 ["ANI2x"; "foo"]
                                init_state H1 H2))) H3 H4).
Defined.

(** ** Only registered models are resident, each once *)

Global Instance keeps_unique_preorder : PreOrder keeps_unique.
Proof. split; unfold keeps_unique; [by intros s | intros s1 s2 s3; auto]. Qed.

Lemma idle_keeps_unique (s s' : State) : idle s s' → keeps_unique s s'.
Proof. intros [[Hm _] _] H. unfold unique_keys. by rewrite Hm. Qed.

Lemma unique_keys_get_model (settings : Settings) (env : Env) (fuel : nat)
    (model_name : string) (s : State) :
  unique_keys s → unique_keys (get_model settings env fuel model_name s).2.
Proof.
  apply (steps_get_model settings env keeps_unique idle_keeps_unique).
  - intros n s0 _ _ H. by apply NoDup_keys_del.
  - intros n s0 _ _ H. by apply NoDup_keys_del.
  - by intros n ok s0 H.
  - intros n h t s0 H. by apply NoDup_keys_set.
  - by intros n t s0 _ H.
Qed.

Lemma unique_keys_unload_model (env : Env) (model_name : string) (s : State) :
  unique_keys s → unique_keys (_unload_model env model_name s).2.
Proof.
  apply (steps_unload_model env keeps_unique idle_keeps_unique).
  - intros n s0 _ _ H. by apply NoDup_keys_del.
  - intros n s0 _ _ H. by apply NoDup_keys_del.
Qed.

Lemma unique_keys_release (env : Env) (model_name : string) (s : State) :
  unique_keys s → unique_keys (release env model_name s).2.
Proof.
  rewrite release_run. by destruct (mem model_name (models_in_memory s)).
Qed.

Global Instance keeps_unique_times_preorder : PreOrder keeps_unique_times.
Proof.
  split; unfold keeps_unique_times; [by intros s | intros s1 s2 s3; auto].
Qed.

Lemma idle_keeps_unique_times (s s' : State) :
  idle s s' → keeps_unique_times s s'.
Proof. intros [[_ Hl] _] H. unfold unique_times. by rewrite Hl. Qed.

Lemma unique_times_get_model (settings : Settings) (env : Env) (fuel : nat)
    (model_name : string) (s : State) :
  unique_times s → unique_times (get_model settings env fuel model_name s).2.
Proof.
  apply (steps_get_model settings env keeps_unique_times
           idle_keeps_unique_times).
  - intros n s0 _ _ H. by apply NoDup_keys_del.
  - by intros n s0 _ _ H.
  - by intros n ok s0 H.
  - intros n h t s0 H. by apply NoDup_keys_set.
  - intros n t s0 _ H. by apply NoDup_keys_set.
Qed.

Lemma unique_times_unload_model (env : Env) (model_name : string) (s : State) :
  unique_times s → unique_times (_unload_model env model_name s).2.
Proof.
  apply (steps_unload_model env keeps_unique_times idle_keeps_unique_times).
  - intros n s0 _ _ H. by apply NoDup_keys_del.
  - by intros n s0 _ _ H.
Qed.

Lemma unique_times_release (env : Env) (model_name : string) (s : State) :
  unique_times s → unique_times (release env model_name s).2.
Proof.
  apply (steps_release env keeps_unique_times idle_keeps_unique_times).
  intros n t s0 _ H. by apply NoDup_keys_set.
Qed.

Lemma only_registered_shrinks (s s' : State) :
  shrinks s s' → only_registered s → only_registered s'.
Proof. intros (Hmem & _) H k Hk. by apply H, Hmem. Qed.

Lemma only_registered_loading (settings : Settings) (env : Env)
    (model_name : string) (s : State) :
  only_registered s → only_registered (loading settings env model_name s).2.
Proof.
  intros H. rewrite loading_run.
  destruct (registered model_name) eqn:Hreg; [|exact H].
  destruct (loader_ok env (loader_i s)); [|exact H].
  destruct (redis_up env (redis_i s)), (cuda_available env); simpl.
  all: intros k; simpl; rewrite mem_set_eq.
  all: destruct (String.eqb_spec model_name k) as [<-|_]; [done | apply H].
Qed.

Lemma only_registered_get_model (settings : Settings) (env : Env)
    (fuel : nat) (model_name : string) (s : State) :
  only_registered s →
  only_registered (get_model settings env fuel model_name s).2.
Proof.
  intros H. destruct (mem model_name (models_in_memory s)) eqn:Hm.
  { by rewrite get_model_hit. }
  rewrite get_model_miss, run_bind by done.
  pose proof (steps_redis_call env GET (metadata_key model_name) s) as Hr.
  destruct (redis_call env GET (metadata_key model_name) s) as [[b|e|] s0];
    cbn [snd] in Hr.
  2,3: by eapply only_registered_shrinks; [apply idle_shrinks|].
  assert (H0 : only_registered s0)
    by (by eapply only_registered_shrinks; [apply idle_shrinks|]).
  destruct (load_model_run settings env fuel model_name s0)
    as (s1 & Hshr & [[-> _] | [_ ->]]).
  - by eapply only_registered_shrinks.
  - apply only_registered_loading. by eapply only_registered_shrinks.
Qed.

Lemma registered_elem (k : string) :
  registered k = true ↔ k ∈ ["ANI1ccx"; "ANI2x"; "ANI1x"].
Proof.
  split.
  - intros [-> | [-> | ->]]%registered_cases;
      [left | right; left | do 2 right; left].
  - intros H. repeat (apply elem_of_cons in H as [->|H]; [done|]).
    by apply elem_of_nil in H.
Qed.

(** X9. Starting from a fresh manager, after any sequence of [get_model],
    release and [_unload_model] calls every resident model is one of the
    three the loader knows, and each key occurs once in [models_in_memory]
    and once in [model_last_used]; so at most three models are resident
    whatever the configured capacity. *)
Theorem only_registered_models_are_resident (settings : Settings)
    (env : Env) (calls : list call) :
  let s := run_calls settings env calls init_state in
  only_registered s ∧ unique_keys s ∧ unique_times s ∧
  (len (models_in_memory s) ≤ 3)%Z.
Proof.
  cut (∀ s0, only_registered s0 ∧ unique_keys s0 ∧ unique_times s0 →
             only_registered (run_calls settings env calls s0) ∧
             unique_keys (run_calls settings env calls s0) ∧
             unique_times (run_calls settings env calls s0)).
  { intros Hrun. cbn zeta.
    destruct (Hrun init_state) as (Hreg & Huniq & Htimes).
    { split_and!; [by intros k | apply NoDup_nil_2 | apply NoDup_nil_2]. }
    split_and!; [done..|].
    assert (Hsub : keys (models_in_memory (run_calls settings env calls init_state))
                   ⊆+ ["ANI1ccx"; "ANI2x"; "ANI1x"]).
    { apply NoDup_submseteq; [done|]. intros k Hk.
      by apply registered_elem, Hreg, mem_keys. }
    apply submseteq_length in Hsub. unfold keys in Hsub.
    rewrite length_fmap in Hsub. unfold len. cbn in Hsub. lia. }
  induction calls as [|c calls IH]; intros s0 (Hreg & Huniq & Htimes); [done|].
  cbn. apply IH. destruct c; cbn.
  - split_and!; [by apply only_registered_get_model
                | by apply unique_keys_get_model
                | by apply unique_times_get_model].
  - split_and!; [|by apply unique_keys_release | by apply unique_times_release].
    rewrite release_run. by destruct (mem model_name (models_in_memory s0)).
  - split_and!; [|by apply unique_keys_unload_model
                 | by apply unique_times_unload_model].
    eapply only_registered_shrinks; [apply steps_shrinks_unload | done].
Qed.

(** ** Listing the models *)

Lemma steps_list_models_loop (env : Env) (names : list string)
    (result : dict ModelInfo) :
  steps idle (list_models_loop env names result).
Proof.
  revert result. induction names as [|n names IH]; intros result;
    cbn [list_models_loop].
  - apply (steps_ret idle).
  - apply (steps_bind idle); [apply (steps_gets idle)|]. intros i.
    apply (steps_bind idle); [apply steps_redis_call|]. intros reply.
    apply (steps_bind idle); [apply (steps_gets idle)|]. intros is_loaded.
    apply (steps_bind idle); [apply (steps_gets idle)|]. intros used.
    apply IH.
Qed.

Lemma steps_list_models (settings : Settings) (env : Env) (gpu_device : string) :
  steps idle (list_models settings env gpu_device).
Proof.
  unfold list_models.
  apply (steps_bind idle); [apply steps_list_models_loop|]. intros result.
  apply (steps_bind idle); [apply steps_gpu_memory_usage|]. intros usage.
  apply (steps_bind idle); [apply (steps_gets idle)|]. intros n.
  apply (steps_ret idle).
Qed.

(** The entry [list_models] builds for [model_name] from the reply to the
    GET of index [i]. *)
Lemma list_models_run (settings : Settings) (env : Env) (gpu_device : string)
    (s : State) :
  let info i model_name :=
    {| available := true;
       loaded := mem model_name (models_in_memory s);
       last_used := get model_name (model_last_used s);
       metadata := if redis_truthy env i then Some i else None |} in
  (list_models settings env gpu_device s).1 =
  if redis_up env (redis_i s) && redis_up env (S (redis_i s))
     && redis_up env (S (S (redis_i s)))
  then Returned
         ([("ANI1ccx", info (redis_i s) "ANI1ccx");
           ("ANI2x", info (S (redis_i s)) "ANI2x");
           ("ANI1x", info (S (S (redis_i s))) "ANI1x")],
          {| device := if cuda_available env then gpu_device else "cpu";
             memory_usage :=
               if cuda_available env then gpu_fraction env (gauge_i s) else 0%Q;
             memory_threshold := gpu_memory_threshold settings;
             models_loaded := len (models_in_memory s);
             max_models := model_max_loaded settings |})
  else Raised RedisError.
Proof.
  unfold list_models, list_models_loop, _get_gpu_memory_usage, redis_call,
    mbind, M_bind, gets, mret, M_ret. cbn.
  destruct (redis_up env (redis_i s)); [|reflexivity]. cbn.
  destruct (redis_up env (S (redis_i s))); [|reflexivity]. cbn.
  destruct (redis_up env (S (S (redis_i s)))); [|reflexivity]. cbn.
  by destruct (cuda_available env).
Qed.

(** X10. [list_models] is read-only: whatever its outcome it leaves both
    dictionaries as they were and calls no loader.  It sends three GETs to
    Redis and raises the Redis error exactly when one of them raises;
    otherwise it returns. *)
Theorem list_models_is_read_only (settings : Settings) (env : Env)
    (gpu_device : string) (s : State) :
  models_in_memory (list_models settings env gpu_device s).2
    = models_in_memory s ∧
  model_last_used (list_models settings env gpu_device s).2
    = model_last_used s ∧
  loader_i (list_models settings env gpu_device s).2 = loader_i s ∧
  ((list_models settings env gpu_device s).1 = Raised RedisError ↔
   redis_up env (redis_i s) = false ∨ redis_up env (S (redis_i s)) = false ∨
   redis_up env (S (S (redis_i s))) = false) ∧
  ((∃ answer, (list_models settings env gpu_device s).1 = Returned answer) ↔
   redis_up env (redis_i s) = true ∧ redis_up env (S (redis_i s)) = true ∧
   redis_up env (S (S (redis_i s))) = true).
Proof.
  destruct (steps_list_models settings env gpu_device s) as [[Hm Hl] [Hlo _]].
  split_and!; [done..| |]; rewrite list_models_run.
  - destruct (redis_up env (redis_i s)), (redis_up env (S (redis_i s))),
      (redis_up env (S (S (redis_i s)))); cbn; intuition discriminate.
  - destruct (redis_up env (redis_i s)), (redis_up env (S (redis_i s))),
      (redis_up env (S (S (redis_i s)))); cbn;
      (split; [intros [answer H]; by try discriminate H
              | intros (H1 & H2 & H3); try discriminate; by eexists]).
Qed.

Lemma count_resident (s : State) :
  only_registered s → unique_keys s →
  length (models_in_memory s)
  = length (List.filter (λ n, mem n (models_in_memory s))
              ["ANI1ccx"; "ANI2x"; "ANI1x"]).
Proof.
  intros Hreg Huniq.
  assert (Hperm : keys (models_in_memory s)
                  ≡ₚ List.filter (λ n, mem n (models_in_memory s))
                       ["ANI1ccx"; "ANI2x"; "ANI1x"]).
  { apply NoDup_Permutation; [done | |].
    - apply NoDup_ListNoDup, List.NoDup_filter, NoDup_ListNoDup.
      apply (bool_decide_unpack _). by vm_compute.
    - intros k. rewrite (list_elem_of_In (List.filter _ _) k), List.filter_In,
        <- list_elem_of_In.
      rewrite <- mem_keys, <- registered_elem. split; [|tauto].
      intros Hk. split; [by apply Hreg | done]. }
  apply Permutation_length in Hperm. unfold keys in Hperm.
  by rewrite length_fmap in Hperm.
Qed.

(** X11. What [list_models] reports agrees with the manager.  It lists
    ANI1ccx, ANI2x and ANI1x in this order; an entry's [loaded] flag says
    whether the model is resident and its [last_used] is the model's entry
    in [model_last_used]; when the key sets of the two dictionaries are
    equal, a model is reported as loaded exactly when a last-used time is
    reported for it.  [models_loaded] is the resident count; in a state
    reached by the manager's own calls (registered models only, each once)
    it equals the number of entries reported as loaded. *)
Theorem list_models_reports_the_state (settings : Settings) (env : Env)
    (gpu_device : string) (s : State) (models : dict ModelInfo)
    (stats : GpuStats) :
  (list_models settings env gpu_device s).1 = Returned (models, stats) →
  keys models = ["ANI1ccx"; "ANI2x"; "ANI1x"] ∧
  (∀ model_name info,
      get model_name models = Some info →
      available info = true ∧
      loaded info = mem model_name (models_in_memory s) ∧
      last_used info = get model_name (model_last_used s) ∧
      (consistent s → (loaded info = true ↔ last_used info ≠ None))) ∧
  models_loaded stats = len (models_in_memory s) ∧
  max_models stats = model_max_loaded settings ∧
  (only_registered s → unique_keys s →
   models_loaded stats = count_loaded models).
Proof.
  rewrite list_models_run. cbn zeta.
  destruct (redis_up env (redis_i s) && redis_up env (S (redis_i s))
            && redis_up env (S (S (redis_i s)))); [|discriminate].
  intros [= <- <-]. split_and!; try done.
  - intros model_name info. cbn.
    assert (Hiff : ∀ n, consistent s →
              mem n (models_in_memory s) = true
              ↔ get n (model_last_used s) ≠ None).
    { intros n Hc. rewrite (Hc n). unfold mem.
      by destruct (get n (model_last_used s)). }
    destruct (String.eqb_spec model_name "ANI1ccx") as [->|_];
      [intros [= <-]; cbn; split_and!; try done; apply Hiff|].
    destruct (String.eqb_spec model_name "ANI2x") as [->|_];
      [intros [= <-]; cbn; split_and!; try done; apply Hiff|].
    destruct (String.eqb_spec model_name "ANI1x") as [->|_];
      [intros [= <-]; cbn; split_and!; try done; apply Hiff|].
    discriminate.
  - intros Hreg Huniq. cbn [models_loaded]. unfold count_loaded, len.
    f_equal. rewrite (count_resident s Hreg Huniq). cbn.
    by destruct (mem "ANI1ccx" (models_in_memory s)),
      (mem "ANI2x" (models_in_memory s)), (mem "ANI1x" (models_in_memory s)).
Qed.

Lemma list_models_reports_the_state_witness :
  ∃ models stats,
    (list_models default_settings env_steady "cuda:0" two_resident).1
      = Returned (models, stats) ∧
    keys models = ["ANI1ccx"; "ANI2x"; "ANI1x"] ∧
    models_loaded stats = len (models_in_memory two_resident).
Proof.
  eexists _, _.
  assert (H : (list_models default_settings env_steady "cuda:0"
                 two_resident).1 = Returned _) by reflexivity.
  split; [exact H|].
  destruct (list_models_reports_the_state default_settings env_steady "cuda:0"
              two_resident _ _ H) as (Hk & _ & Hn & _).
  by split.
Defined.

(** * Properties of the optimizer *)

(** ** Outcomes of composed methods *)

Lemma bind_returned {A B} (m : M A) (k : A → M B) (s : State) (b : B) :
  ((m ≫= k) s).1 = Returned b →
  ∃ a, (m s).1 = Returned a ∧ (k a (m s).2).1 = Returned b.
Proof.
  rewrite run_bind. destruct (m s) as [[a|e|] s1]; cbn; try discriminate.
  intros H. by exists a.
Qed.

Lemma try_reraise_returned {A} (body : M A) (log : exn → M unit) (s : State)
    (a : A) :
  (try_except body (λ e, log e;; mthrow e) s).1 = Returned a →
  (body s).1 = Returned a.
Proof.
  unfold try_except. destruct (body s) as [[a'|e|] s1]; cbn; try done.
  rewrite run_bind. by destruct (log e s1) as [[[]|e'|] s2].
Qed.

Lemma try_finally_returned {A} (body : M A) (final : M unit) (s : State)
    (a : A) :
  (try_finally body final s).1 = Returned a → (body s).1 = Returned a.
Proof.
  unfold try_finally. destruct (body s) as [[a'|e|] s1]; cbn; try done.
  all: by destruct (final s1) as [[[]|e'|] s2].
Qed.

Lemma get_model_context_returned {A} (settings : Settings) (env : Env)
    (fuel : nat) (model_name : string) (body : handle → M A) (s : State)
    (a : A) :
  (get_model_context settings env fuel model_name body s).1 = Returned a →
  ∃ model,
    (get_model settings env fuel model_name s).1 = Returned model ∧
    (body model (get_model settings env fuel model_name s).2).1 = Returned a.
Proof.
  unfold get_model_context. intros (model & Hget & Hbody)%bind_returned.
  exists model. split; [done|]. by apply try_finally_returned in Hbody.
Qed.

(** ** The selector, seen from its callers *)

Lemma select_best_model_supported (elems : gset Z) :
  select_best_model elems
  = if bool_decide (elems ⊆ get_supported_elements "ANI2x")
    then Some "ANI2x" else None.
Proof.
  assert (H1 : get_supported_elements "ANI1ccx" ⊆ get_supported_elements "ANI2x")
    by (apply (bool_decide_unpack _); by vm_compute).
  assert (H2 : get_supported_elements "ANI1x" ⊆ get_supported_elements "ANI2x")
    by (apply (bool_decide_unpack _); by vm_compute).
  unfold select_best_model, model_preference, select_first.
  case_bool_decide as Ha; [done|].
  case_bool_decide as Hb; [exfalso; apply Ha; by transitivity
    (get_supported_elements "ANI1ccx")|].
  case_bool_decide as Hc; [exfalso; apply Ha; by transitivity
    (get_supported_elements "ANI1x")|].
  done.
Qed.

Lemma batch_item_run {Engine} (m : M (OptimizeResult Engine))
    (elems : list Z) (s : State) :
  try_except (result ← m; mret (BatchDone result))
    (λ e, emit (ELogError "Failed to optimize structure" e);;
          mret (BatchFailed e elems)) s =
  match m s with
  | (Returned result, s1) => (Returned (BatchDone result), s1)
  | (Raised e, s1) =>
      (Returned (BatchFailed e elems),
       with_event (ELogError "Failed to optimize structure" e) s1)
  | (OutOfFuel, s1) => (OutOfFuel, s1)
  end.
Proof.
  unfold try_except. rewrite run_bind. by destruct (m s) as [[result|e|] s1].
Qed.

Section OptimizerProperties.

Context (settings : Settings) (env : Env).
Context {Coordinates Molecule Engine : Type}.
Context (repr_set : gset Z → string).
Context (ase_atoms : handle → Coordinates → list Z → M Molecule).
Context (ase_optimize : string → Z → Q → Molecule → M Engine).
Context (ase_energy : Molecule → M Engine).

Local Abbreviation optimize := (optimize_structure settings env Coordinates Molecule
                        Engine repr_set ase_atoms ase_optimize).
Local Abbreviation energy := (calculate_energy settings env Coordinates Molecule
                      Engine repr_set ase_atoms ase_energy).
Local Abbreviation batch := (batch_optimize settings env Coordinates Molecule
                     Engine repr_set ase_atoms ase_optimize).

Lemma auto_select_unsupported (elems : list Z) (s : State) :
  (∃ z, z ∈ elems ∧ z ∉ get_supported_elements "ANI2x") →
  auto_select repr_set elems None s
  = (Raised (ValueError ("No model supports elements: "
                         ++ repr_set (list_to_set elems))), s).
Proof.
  intros (z & Hz & Hnot). unfold auto_select.
  rewrite select_best_model_supported. case_bool_decide as Hsub; [|done].
  exfalso. apply Hnot, Hsub. by apply elem_of_list_to_set.
Qed.

Lemma auto_select_supported (elems : list Z) :
  (∀ z, z ∈ elems → z ∈ get_supported_elements "ANI2x") →
  auto_select repr_set elems None = auto_select repr_set elems (Some "ANI2x").
Proof.
  intros Hall. unfold auto_select.
  rewrite select_best_model_supported. case_bool_decide as Hsub; [done|].
  exfalso. apply Hsub. intros z Hz. apply Hall.
  by apply elem_of_list_to_set in Hz.
Qed.

(** X12. When no model name is given and some element of the structure is
    outside the elements ANI2x supports, [optimize_structure] and
    [calculate_energy] raise [ValueError] before they reach the model
    manager: no Redis command is sent, no model is loaded or evicted, and
    the only trace of the call is the error it logs. *)
Theorem unsupported_elements_never_reach_the_cache (fuel : nat)
    (coordinates : Coordinates) (elems : list Z) (chg max_steps : Z)
    (fmax : Q) (optimizer : string) (s : State) :
  (∃ z, z ∈ elems ∧ z ∉ get_supported_elements "ANI2x") →
  let e := ValueError ("No model supports elements: "
                       ++ repr_set (list_to_set elems)) in
  optimize fuel coordinates elems None chg max_steps fmax optimizer s
    = (Raised e, with_event (ELogError "Optimization failed" e) s) ∧
  energy fuel coordinates elems None s
    = (Raised e, with_event (ELogError "Energy calculation failed" e) s).
Proof.
  intros Hz. cbn zeta.
  unfold optimize_structure, calculate_energy, try_except.
  by rewrite !run_bind, (auto_select_unsupported elems s Hz).
Qed.

(** What a returned result of [optimize_structure] says. *)
Lemma optimize_structure_returned (fuel : nat) (coordinates : Coordinates)
    (elems : list Z) (model_name : option string) (chg max_steps : Z)
    (fmax : Q) (optimizer : string) (s : State)
    (result : OptimizeResult Engine) :
  (optimize fuel coordinates elems model_name chg max_steps fmax optimizer s).1
    = Returned result →
  elements result = elems ∧ charge result = chg ∧
  optimizer ∈ ["LBFGS"; "BFGS"; "FIRE"] ∧
  match model_name with
  | Some name => model_used result = name
  | None => model_used result = "ANI2x"
  end.
Proof.
  unfold optimize_structure.
  intros (name & Hname & Hctx)%try_reraise_returned%bind_returned.
  apply get_model_context_returned in Hctx as (model & _ & Hbody).
  apply bind_returned in Hbody as (molecule & _ & Hbody).
  apply bind_returned in Hbody as ([] & Hopt & Hbody).
  apply bind_returned in Hbody as (output & _ & Hbody).
  injection Hbody as <-. cbn. split_and!; try done.
  - revert Hopt.
    destruct (String.eqb_spec optimizer "LBFGS") as [->|_]; [intros _; left|].
    destruct (String.eqb_spec optimizer "BFGS") as [->|_];
      [intros _; right; left|].
    destruct (String.eqb_spec optimizer "FIRE") as [->|_];
      [intros _; do 2 right; left | discriminate].
  - revert Hname. unfold auto_select. destruct model_name as [n|].
    + by intros [= ->].
    + rewrite select_best_model_supported. case_bool_decide; [|discriminate].
      by intros [= <-].
Qed.

(** X13. Automatic selection only ever picks ANI2x.  When every element of
    the structure is supported by ANI2x, a call without a model name behaves
    exactly as the call that names ANI2x; and whenever a call without a
    model name returns a result, its [model_used] is ANI2x.  ANI1x and
    ANI1ccx are used only when a caller asks for them by name. *)
Theorem automatic_selection_is_ANI2x (fuel : nat) (coordinates : Coordinates)
    (elems : list Z) (chg max_steps : Z) (fmax : Q) (optimizer : string)
    (s : State) :
  ((∀ z, z ∈ elems → z ∈ get_supported_elements "ANI2x") →
   optimize fuel coordinates elems None chg max_steps fmax optimizer s
     = optimize fuel coordinates elems (Some "ANI2x") chg max_steps fmax
         optimizer s ∧
   energy fuel coordinates elems None s
     = energy fuel coordinates elems (Some "ANI2x") s) ∧
  (∀ result,
      (optimize fuel coordinates elems None chg max_steps fmax optimizer s).1
        = Returned result →
      model_used result = "ANI2x").
Proof.
  split.
  - intros Hall. unfold optimize_structure, calculate_energy.
    by rewrite (auto_select_supported elems Hall).
  - intros result Hret.
    by destruct (optimize_structure_returned _ _ _ _ _ _ _ _ _ _ Hret)
      as (_ & _ & _ & ?).
Qed.

Lemma batch_loop_spec (fuel : nat) (structures : list (Coordinates * list Z))
    (model_name : option string) (chg max_steps : Z) (fmax : Q)
    (optimizer : string) (results : list (BatchItem Engine)) (s : State) :
  let run := batch_loop settings env Coordinates Molecule Engine repr_set
               ase_atoms ase_optimize fuel structures model_name chg
               max_steps fmax optimizer results s in
  (∀ e, run.1 ≠ Raised e) ∧
  ∀ items, run.1 = Returned items →
    ∃ new, items = (results ++ new)%list ∧ Forall2 item_matches structures new.
Proof.
  revert results s. induction structures as [|[coords elems] rest IH];
    intros results s; cbn zeta.
  - cbn. split; [done|]. intros items [= <-]. exists [].
    split; [by rewrite app_nil_r | constructor].
  - cbn [batch_loop]. rewrite run_bind, batch_item_run.
    pose proof (optimize_structure_returned fuel coords elems model_name chg
                  max_steps fmax optimizer s) as Hres.
    destruct (optimize fuel coords elems model_name chg max_steps fmax
                optimizer s) as [[result|e|] s1]; cbn in *.
    + destruct (IH (results ++ [BatchDone result])%list s1) as [Hno Hitems].
      split; [done|]. intros items Hret.
      destruct (Hitems items Hret) as (new & -> & Hall).
      exists (BatchDone result :: new). split; [by rewrite <- app_assoc|].
      constructor; [|done]. cbn. by destruct (Hres result eq_refl).
    + destruct (IH (results ++ [BatchFailed e elems])%list
                  (with_event (ELogError "Failed to optimize structure" e) s1))
        as [Hno Hitems].
      split; [done|]. intros items Hret.
      destruct (Hitems items Hret) as (new & -> & Hall).
      exists (BatchFailed e elems :: new). split; [by rewrite <- app_assoc|].
      by constructor.
    + split; [done|]. discriminate.
Qed.

(** X14. [batch_optimize] never raises: a structure whose optimization
    raises becomes a failure record and the loop goes on.  When it returns,
    the list has one item per input structure, in the order of the input,
    and each item, result or failure record, carries the atomic numbers of
    its structure. *)
Theorem batch_optimize_one_item_per_structure (fuel : nat)
    (structures : list (Coordinates * list Z)) (model_name : option string)
    (chg max_steps : Z) (fmax : Q) (optimizer : string) (s : State) :
  (∀ e, (batch fuel structures model_name chg max_steps fmax optimizer s).1
        ≠ Raised e) ∧
  ∀ items,
    (batch fuel structures model_name chg max_steps fmax optimizer s).1
      = Returned items →
    length items = length structures ∧
    Forall2 item_matches structures items.
Proof.
  unfold batch_optimize.
  destruct (batch_loop_spec fuel structures model_name chg max_steps fmax
              optimizer [] s) as [Hno Hitems].
  split; [done|]. intros items Hret.
  destruct (Hitems items Hret) as (new & -> & Hall). cbn.
  split; [|done]. symmetry. by eapply Forall2_length.
Qed.

End OptimizerProperties.

Lemma unsupported_elements_never_reach_the_cache_witness :
  (∃ z, z ∈ [6; 35]%Z ∧ z ∉ get_supported_elements "ANI2x") ∧
  (optimize_structure default_settings env_steady unit unit unit
     sample_repr_set sample_atoms sample_optimize 1 tt [6; 35]%Z None 0 1000
     (1 # 1000000) "LBFGS" two_resident).1
  = Raised (ValueError "No model supports elements: {...}").
Proof.
  assert (H : ∃ z, z ∈ [6; 35]%Z ∧ z ∉ get_supported_elements "ANI2x").
  { exists 35%Z. split; [right; left|].
    apply (bool_decide_unpack _). by vm_compute. }
  split; [exact H|].
  exact (f_equal fst
           (proj1 (unsupported_elements_never_reach_the_cache default_settings
                     env_steady sample_repr_set sample_atoms sample_optimize
                     sample_energy 1 tt [6; 35]%Z 0 1000 (1 # 1000000)
                     "LBFGS" two_resident H))).
Defined.

Lemma automatic_selection_is_ANI2x_witness :
  ∃ result,
    (optimize_structure default_settings env_steady unit unit unit
       sample_repr_set sample_atoms sample_optimize 5 tt [6; 1]%Z None 0 1000
       (1 # 1000000) "LBFGS" init_state).1 = Returned result ∧
    model_used result = "ANI2x".
Proof.
  assert (H : (optimize_structure default_settings env_steady unit unit unit
                 sample_repr_set sample_atoms sample_optimize 5 tt [6; 1]%Z
                 None 0 1000 (1 # 1000000) "LBFGS" init_state).1
              = Returned (mkOptimizeResult "ANI2x" tt 0 [6; 1]%Z))
    by (vm_compute; reflexivity).
  exists (mkOptimizeResult "ANI2x" tt 0 [6; 1]%Z). split; [exact H|].
  exact (proj2 (automatic_selection_is_ANI2x default_settings env_steady
                  sample_repr_set sample_atoms sample_optimize sample_energy
                  5 tt [6; 1]%Z 0 1000 (1 # 1000000) "LBFGS" init_state)
           _ H).
Defined.

Lemma batch_optimize_one_item_per_structure_witness :
  (batch_optimize default_settings env_steady unit unit unit sample_repr_set
     sample_atoms sample_optimize 5 [(tt, [6; 1]%Z); (tt, [35]%Z)] None 0
     1000 (1 # 1000000) "LBFGS" init_state).1
  = Returned [BatchDone (mkOptimizeResult "ANI2x" tt 0 [6; 1]%Z);
              BatchFailed (ValueError "No model supports elements: {...}")
                [35]%Z] ∧
  Forall2 item_matches [(tt, [6; 1]%Z); (tt, [35]%Z)]
    [BatchDone (mkOptimizeResult "ANI2x" tt 0 [6; 1]%Z);
     BatchFailed (ValueError "No model supports elements: {...}") [35]%Z].
Proof.
  assert (H : (batch_optimize default_settings env_steady unit unit unit
                 sample_repr_set sample_atoms sample_optimize 5
                 [(tt, [6; 1]%Z); (tt, [35]%Z)] None 0 1000 (1 # 1000000)
                 "LBFGS" init_state).1
              = Returned
                  [BatchDone (mkOptimizeResult "ANI2x" tt 0 [6; 1]%Z);
                   BatchFailed
                     (ValueError "No model supports elements: {...}")
                     [35]%Z])
    by (vm_compute; reflexivity).
  split; [exact H|].
  exact (proj2 (proj2 (batch_optimize_one_item_per_structure default_settings
                         env_steady sample_repr_set sample_atoms
                         sample_optimize 5 [(tt, [6; 1]%Z); (tt, [35]%Z)]
                         None 0 1000 (1 # 1000000) "LBFGS" init_state)
                  _ H)).
Defined.

(** ** The XYZ writer *)

Lemma symbols_get_cases (elem : Z) :
  (symbols_get elem symbols = None ∧
   elem ≠ 1 ∧ elem ≠ 6 ∧ elem ≠ 7 ∧ elem ≠ 8 ∧ elem ≠ 9 ∧ elem ≠ 16 ∧
   elem ≠ 17)%Z ∨
  (elem, symbol_of elem) ∈ symbols ∧
  symbols_get elem symbols = Some (symbol_of elem).
Proof.
  destruct (Z.eqb_spec elem 1) as [->|?]; [right; split; [left | done]|].
  destruct (Z.eqb_spec elem 6) as [->|?];
    [right; split; [right; left | done]|].
  destruct (Z.eqb_spec elem 7) as [->|?];
    [right; split; [do 2 right; left | done]|].
  destruct (Z.eqb_spec elem 8) as [->|?];
    [right; split; [do 3 right; left | done]|].
  destruct (Z.eqb_spec elem 9) as [->|?];
    [right; split; [do 4 right; left | done]|].
  destruct (Z.eqb_spec elem 16) as [->|?];
    [right; split; [do 5 right; left | done]|].
  destruct (Z.eqb_spec elem 17) as [->|?];
    [right; split; [do 6 right; left | done]|].
  left. split_and!; try done. unfold symbols. cbn.
  by rewrite !(proj2 (Z.eqb_neq _ _)).
Qed.

Lemma placeholder_not_symbol (elem : Z) (digits : string) :
  (elem, "X" ++ digits) ∉ symbols.
Proof.
  unfold symbols. intros H.
  repeat (apply elem_of_cons in H as [H|H]; [discriminate H|]).
  by apply elem_of_nil in H.
Qed.

(** X15. The symbol table of [structure_to_xyz] covers exactly the
    elements ANI2x supports, so every structure that automatic selection
    accepts is written with real element symbols; any other atomic number
    is written as X followed by the number.  Distinct atomic numbers are
    never written with the same symbol: the symbol column of the file
    determines the atomic numbers. *)
Theorem xyz_symbols_identify_elements :
  (∀ elem, is_Some (symbols_get elem symbols)
           ↔ elem ∈ get_supported_elements "ANI2x") ∧
  (∀ elem, elem ∉ get_supported_elements "ANI2x" →
           symbol_of elem = "X" ++ pretty elem) ∧
  (∀ elem elem', symbol_of elem = symbol_of elem' → elem = elem').
Proof.
  assert (Hsupp : ∀ elem : Z, elem ∈ get_supported_elements "ANI2x" ↔
            (elem = 1 ∨ elem = 6 ∨ elem = 7 ∨ elem = 8 ∨ elem = 9 ∨
             elem = 16 ∨ elem = 17)%Z).
  { intros elem. cbn. rewrite !elem_of_union, !elem_of_singleton. tauto. }
  assert (Hcover : ∀ elem, is_Some (symbols_get elem symbols)
                           ↔ elem ∈ get_supported_elements "ANI2x").
  { intros elem. rewrite Hsupp.
    destruct (symbols_get_cases elem) as [(-> & H)|[Hin ->]].
    - split; [by intros [? ?]|]. intros Hor. exfalso. tauto.
    - split; [intros _|by eexists]. unfold symbols in Hin.
      repeat (apply elem_of_cons in Hin as [[= -> _]|Hin]; [tauto|]).
      by apply elem_of_nil in Hin. }
  split_and!; [exact Hcover | |].
  - intros elem Hnot. unfold symbol_of.
    destruct (symbols_get elem symbols) eqn:E; [|done].
    exfalso. apply Hnot, Hcover. by rewrite E.
  - intros elem elem' Heq.
    destruct (symbols_get_cases elem) as [(E & _)|[Hin _]],
      (symbols_get_cases elem') as [(E' & _)|[Hin' _]].
    + unfold symbol_of in Heq. rewrite E, E' in Heq.
      injection Heq as Heq. by apply (inj pretty).
    + rewrite <- Heq in Hin'. unfold symbol_of in Hin'. rewrite E in Hin'.
      by apply placeholder_not_symbol in Hin'.
    + rewrite Heq in Hin. unfold symbol_of in Hin. rewrite E' in Hin.
      by apply placeholder_not_symbol in Hin.
    + rewrite <- Heq in Hin'. unfold symbols in Hin, Hin'.
      repeat (apply elem_of_cons in Hin as [Hin|Hin];
              [repeat (apply elem_of_cons in Hin' as [Hin'|Hin'];
                       [congruence|]);
               by apply elem_of_nil in Hin'|]).
      by apply elem_of_nil in Hin.
Qed.

(** X16. [structure_to_xyz] writes the number of atomic numbers on its
    first line and the comment on its second, then one line per pair of
    [zip(elements, coordinates)]: with fewer coordinate rows than atomic
    numbers the atom lines stop at the last row, while the first line still
    announces all the atoms. *)
Theorem xyz_header_counts_elements {Coordinate : Type}
    (fmt_12_6f : Coordinate → string)
    (coordinates : list (Coordinate * Coordinate * Coordinate))
    (elems : list Z) (comment : string) :
  xyz_lines Coordinate fmt_12_6f coordinates elems comment !! 0%nat
    = Some (pretty (length elems)) ∧
  xyz_lines Coordinate fmt_12_6f coordinates elems comment !! 1%nat
    = Some comment ∧
  length (xyz_lines Coordinate fmt_12_6f coordinates elems comment)
    = (2 + length elems `min` length coordinates)%nat ∧
  ((length elems ≤ length coordinates)%nat →
   length (xyz_lines Coordinate fmt_12_6f coordinates elems comment)
     = (2 + length elems)%nat) ∧
  ((length coordinates < length elems)%nat →
   (length (xyz_lines Coordinate fmt_12_6f coordinates elems comment)
    < 2 + length elems)%nat).
Proof.
  unfold xyz_lines. cbn [app lookup list_lookup].
  rewrite !length_cons, length_map, length_zip_with.
  split_and!; try done; lia.
Qed.

Lemma xyz_header_counts_elements_witness :
  (length [(0, 0, 0)%Z] < length [8; 1; 1]%Z)%nat ∧
  (length (xyz_lines Z pretty [(0, 0, 0)%Z] [8; 1; 1]%Z "water")
   < 2 + length [8; 1; 1]%Z)%nat.
Proof.
  assert (H : (length [(0, 0, 0)%Z] < length [8; 1; 1]%Z)%nat)
    by (cbn; lia).
  split; [exact H|].
  exact (proj2 (proj2 (proj2 (proj2
           (xyz_header_counts_elements pretty [(0, 0, 0)%Z] [8; 1; 1]%Z
              "water")))) H).
Defined.

(** * Properties of the routes *)

(** ** The model routes *)

Lemma get_model_reaches_loading (settings : Settings) (env : Env)
    (fuel : nat) (model_name : string) (s : State) :
  (∀ n, redis_up env n = true) →
  (1 ≤ model_max_loaded settings)%Z →
  consistent s →
  (length (models_in_memory s) < fuel)%nat →
  mem model_name (models_in_memory s) = false →
  ∃ s3, get_model settings env fuel model_name s = loading settings env model_name s3.
Proof.
  intros Hup Hcap Hc Hlen Hm.
  pose proof (λ n s (_ : mem n (models_in_memory s) = true)
                (_ : mem n (model_last_used s) = true),
              keeps_consistent_del n s) as Hdel.
  rewrite get_model_miss, run_bind by done.
  unfold redis_call. rewrite Hup.
  set (s0 := with_event _ (tick_redis s)).
  unfold _load_model. rewrite run_bind. cbn [emit modify].
  set (s1 := with_event _ s0).
  assert (Hc1 : consistent s1) by exact Hc.
  assert (Hlen1 : (length (models_in_memory s1) < fuel)%nat) by exact Hlen.
  rewrite run_bind.
  pose proof (pressure_loop_succeeds settings env fuel s1 Hup Hc1 Hlen1) as Hp.
  pose proof (steps_pressure_loop settings env keeps_consistent
                idle_keeps_consistent Hdel keeps_consistent_del_untimed
                fuel s1 Hc1) as Hc2.
  pose proof (shrinks_no_growth _ _
                (steps_shrinks_pressure_loop settings env fuel s1)) as Hlen2.
  unfold no_growth in Hlen2.
  destruct (pressure_loop settings env fuel s1) as [[[]|e|] s2];
    cbn [fst snd] in *; [|done..].
  rewrite run_bind.
  pose proof (limit_loop_succeeds settings env fuel s2 Hup Hcap Hc2) as Hl.
  destruct (limit_loop settings env fuel s2) as [[[]|e|] s3];
    cbn [fst snd] in *; [|by specialize (Hl ltac:(lia))..].
  by exists s3.
Qed.

(** X17. [POST /models/{name}/load] never lets an exception through: it
    answers with a message or with an HTTP error.  When the first Redis
    command of the call raises it answers 500.  When Redis answers every
    command, at least one slot is configured and the manager holds
    registered models only, an unknown name is answered with 400 and the
    text of the [ValueError], and a registered name whose load succeeds is
    answered with the success message. *)
Theorem load_route_answers (settings : Settings) (env : Env)
    (loader_value_error : bool) (loader_error_text : string → string)
    (fuel : nat) (model_name : string) (s : State) :
  let answer := (load_model settings env loader_value_error loader_error_text
                   fuel model_name s).1 in
  (∀ e, answer ≠ Raised e) ∧
  (redis_up env (redis_i s) = false →
   answer = Returned (HTTPException 500 "Failed to load model")) ∧
  ((∀ n, redis_up env n = true) →
   (1 ≤ model_max_loaded settings)%Z →
   consistent s → only_registered s →
   (length (models_in_memory s) < fuel)%nat →
   (registered model_name = false →
    answer = Returned (HTTPException 400 ("Unknown model: " ++ model_name))) ∧
   (registered model_name = true → (∀ n, loader_ok env n = true) →
    answer = Returned (Reply ("Model " ++ model_name
                              ++ " loaded successfully")))).
Proof.
  cbn zeta. unfold load_model, try_except. rewrite run_bind. split_and!.
  - intros e.
    destruct (get_model settings env fuel model_name s) as [[model|e'|] s1];
      cbn; try done.
    destruct e' as [msg|key|name|]; cbn; try done.
    by destruct loader_value_error.
  - intros Hdown. destruct (mem model_name (models_in_memory s)) eqn:Hm.
    + by rewrite get_model_hit, Hdown.
    + rewrite get_model_miss, run_bind by done. unfold redis_call.
      by rewrite Hdown.
  - intros Hup Hcap Hc Honly Hlen.
    destruct (mem model_name (models_in_memory s)) eqn:Hm.
    + split; [intros Hreg; apply Honly in Hm; congruence|].
      intros _ _. rewrite get_model_hit, Hup by done. cbn. unfold mem in Hm.
      by destruct (get model_name (models_in_memory s)).
    + destruct (get_model_reaches_loading settings env fuel model_name s
                  Hup Hcap Hc Hlen Hm) as [s3 ->].
      rewrite loading_run. split.
      * by intros ->.
      * intros -> Hok. by rewrite Hok, Hup.
Qed.

Lemma load_route_answers_witness :
  redis_up env_redis_down (redis_i two_resident) = false ∧
  (load_model default_settings env_redis_down false (λ name, name) 2
     "ANI1ccx" two_resident).1
  = Returned (HTTPException 500 "Failed to load model").
Proof.
  assert (H : redis_up env_redis_down (redis_i two_resident) = false)
    by reflexivity.
  split; [exact H|].
  exact (proj1 (proj2 (load_route_answers default_settings env_redis_down
                         false (λ name, name) 2 "ANI1ccx" two_resident)) H).
Defined.

(** X18. [DELETE /models/{name}/unload] never lets an exception through.
    For a model that is not resident, known or not, it changes nothing and
    reports that the model was unloaded.  For a resident model it answers
    500 exactly when the Redis DELETE raises, and in that case too the model
    has been removed from both dictionaries. *)
Theorem unload_route_answers (env : Env) (model_name : string) (s : State) :
  consistent s →
  (∀ e, (unload_model env model_name s).1 ≠ Raised e) ∧
  (mem model_name (models_in_memory s) = false →
   unload_model env model_name s
   = (Returned (Reply ("Model " ++ model_name ++ " unloaded successfully")),
      s)) ∧
  (mem model_name (models_in_memory s) = true →
   (unload_model env model_name s).1
     = Returned
         (if redis_up env (redis_i s)
          then Reply ("Model " ++ model_name ++ " unloaded successfully")
          else HTTPException 500 "Failed to unload model") ∧
   mem model_name (models_in_memory (unload_model env model_name s).2)
     = false ∧
   mem model_name (model_last_used (unload_model env model_name s).2)
     = false).
Proof.
  intros Hc. unfold unload_model, try_except.
  rewrite run_bind, unload_run, <- (Hc model_name).
  destruct (mem model_name (models_in_memory s)) eqn:Hm.
  - destruct (redis_up env (redis_i s)); cbn.
    all: split_and!; try done; intros _; split_and!; try done.
    all: apply mem_del_same.
  - by split_and!.
Qed.

Lemma unload_route_answers_witness :
  consistent two_resident ∧
  mem "ANI2x" (models_in_memory two_resident) = true ∧
  (unload_model env_redis_down "ANI2x" two_resident).1
    = Returned (HTTPException 500 "Failed to unload model") ∧
  mem "ANI2x"
    (models_in_memory (unload_model env_redis_down "ANI2x" two_resident).2)
    = false.
Proof.
  assert (H1 : consistent two_resident).
  { intros k. unfold mem. cbn.
    by destruct (String.eqb k "ANI2x"), (String.eqb k "ANI1x"). }
  assert (H2 : mem "ANI2x" (models_in_memory two_resident) = true)
    by reflexivity.
  split_and!; [done..| |].
  - exact (proj1 (proj2 (proj2 (unload_route_answers env_redis_down "ANI2x"
                                  two_resident H1)) H2)).
  - exact (proj1 (proj2 (proj2 (proj2 (unload_route_answers env_redis_down
                                         "ANI2x" two_resident H1)) H2))).
Defined.

(** ** The job status route *)

(** X19. [get_job_status] reports a result exactly for the Celery state
    SUCCESS and an error exactly for FAILURE, and it reads progress from the
    task's meta only in state STARTED: in every other state but SUCCESS the
    progress it reports is 0.  The tasks publish their progress under the
    state PROGRESS, which is not in the status map: such a job is reported
    with status "unknown" and progress 0, whatever progress it published. *)
Theorem job_status_ignores_published_progress {Payload} (id : string)
    (r : AsyncResult Payload) :
  let response := get_job_status id r in
  (is_Some (result response) ↔ state r = "SUCCESS") ∧
  (is_Some (error response) ↔ state r = "FAILURE") ∧
  (state r = "SUCCESS" → progress response = 100%Q) ∧
  (state r ≠ "SUCCESS" → state r ≠ "STARTED" → progress response = 0%Q) ∧
  (state r = task_progress_state →
   status response = "unknown" ∧ progress response = 0%Q ∧
   result response = None ∧ error response = None).
Proof.
  cbn zeta. unfold get_job_status, status_map_get, task_progress_state.
  destruct (String.eqb_spec (state r) "PENDING") as [->|?];
    [|destruct (String.eqb_spec (state r) "STARTED") as [->|?];
      [|destruct (String.eqb_spec (state r) "SUCCESS") as [->|?];
        [|destruct (String.eqb_spec (state r) "FAILURE") as [->|?];
          [|destruct (String.eqb_spec (state r) "RETRY") as [->|?];
            [|destruct (String.eqb_spec (state r) "REVOKED") as [->|?]]]]]].
  all: cbn; repeat split; intros; try done; try congruence; try (by eexists).
  all: exfalso; by eapply is_Some_None.
Qed.

Lemma job_status_ignores_published_progress_witness :
  state (mkAsyncResult unit "PROGRESS" tt true (Some (50 # 1)) "")
  = task_progress_state ∧
  status (get_job_status "job"
            (mkAsyncResult unit "PROGRESS" tt true (Some (50 # 1)) ""))
  = "unknown" ∧
  progress (get_job_status "job"
              (mkAsyncResult unit "PROGRESS" tt true (Some (50 # 1)) ""))
  = 0%Q.
Proof.
  assert (H : state (mkAsyncResult unit "PROGRESS" tt true (Some (50 # 1)) "")
              = task_progress_state) by reflexivity.
  split; [exact H|].
  pose proof (proj2 (proj2 (proj2 (proj2
                (job_status_ignores_published_progress "job"
                   (mkAsyncResult unit "PROGRESS" tt true (Some (50 # 1))
                      "")))))
                H) as (Hs & Hp & _).
  split; [exact Hs | exact Hp].
Defined.

(** * More on eviction and on the slot limit *)

(** X20. After [_unload_model] of a name, whatever its outcome, no entry for
    that name is left in either dictionary, and unloading the same name
    again returns at once: it changes nothing and sends nothing to Redis. *)
Theorem unload_model_twice (env env' : Env) (model_name : string) (s : State) :
  consistent s →
  mem model_name (models_in_memory (_unload_model env model_name s).2) = false ∧
  mem model_name (model_last_used (_unload_model env model_name s).2) = false ∧
  _unload_model env' model_name (_unload_model env model_name s).2
  = (Returned tt, (_unload_model env model_name s).2).
Proof.
  intros Hc.
  assert (Hgone : mem model_name
            (models_in_memory (_unload_model env model_name s).2) = false).
  { rewrite unload_run, <- (Hc model_name).
    destruct (mem model_name (models_in_memory s)) eqn:Hm; [|done].
    cbn. apply mem_del_same. }
  split_and!; [done | |].
  - assert (Hc' : consistent (_unload_model env model_name s).2).
    { apply (steps_unload_model env keeps_consistent idle_keeps_consistent);
        [|apply keeps_consistent_del_untimed|done].
      intros n s0 _ _. apply keeps_consistent_del. }
    by rewrite <- (Hc' model_name).
  - by rewrite (unload_run env'), Hgone.
Qed.

Lemma unload_model_twice_witness :
  consistent two_resident ∧
  _unload_model env_redis_down "ANI2x"
    (_unload_model env_steady "ANI2x" two_resident).2
  = (Returned tt, (_unload_model env_steady "ANI2x" two_resident).2).
Proof.
  assert (H : consistent two_resident).
  { intros k. unfold mem. cbn.
    by destruct (String.eqb k "ANI2x"), (String.eqb k "ANI1x"). }
  split; [exact H|].
  exact (proj2 (proj2 (unload_model_twice env_steady env_redis_down "ANI2x"
                         two_resident H))).
Defined.

Lemma pressure_loop_never_raises (settings : Settings) (env : Env)
    (fuel : nat) (s : State) :
  (∀ n, redis_up env n = true) → consistent s →
  ∀ e, (pressure_loop settings env fuel s).1 ≠ Raised e.
Proof.
  intros Hup. revert s. induction fuel as [|fuel IH]; intros s Hc e; [done|].
  cbn [pressure_loop]. rewrite run_bind, check_memory_pressure_run.
  set (s1 := (if cuda_available env then tick_gauge else id) s).
  assert (Hc1 : consistent s1) by (unfold s1; by destruct (cuda_available env)).
  rewrite run_bind. cbn [gets].
  destruct (Qltb _ _); [|by destruct (models_in_memory s1)].
  destruct (models_in_memory s1) as [|entry models] eqn:E; [done|].
  rewrite run_bind.
  destruct (evict_oldest_progress env s1 Hc1) as (_ & Hc2 & _).
  { by rewrite E. }
  pose proof (evict_oldest_returns env s1 (Hup _) Hc1) as Hret.
  rewrite E in Hret. specialize (Hret ltac:(done)).
  destruct (_evict_oldest_model env s1) as [[[]|e'|] s2]; cbn in *;
    [|done..].
  by apply IH.
Qed.

Lemma limit_loop_without_slots (settings : Settings) (env : Env)
    (fuel : nat) (s : State) :
  (model_max_loaded settings ≤ 0)%Z →
  (∀ n, redis_up env n = true) → consistent s →
  (limit_loop settings env fuel s).1 = OutOfFuel ∧
  loader_i (limit_loop settings env fuel s).2 = loader_i s.
Proof.
  intros Hcap Hup. revert s. induction fuel as [|fuel IH]; intros s Hc; [done|].
  cbn [limit_loop]. rewrite run_bind. cbn [gets].
  destruct (Z.leb_spec (model_max_loaded settings) (len (models_in_memory s)))
    as [_|Hlt]; [|unfold len in Hlt; lia].
  rewrite run_bind.
  destruct (models_in_memory s) as [|entry models] eqn:E.
  - unfold _evict_oldest_model at 1 2. rewrite run_bind. cbn [gets].
    rewrite E. unfold mret at 1 2, M_ret at 1 2. by apply IH.
  - assert (Hne : models_in_memory s ≠ []) by (by rewrite E).
    destruct (evict_oldest_progress env s Hc Hne) as (_ & Hc2 & _).
    pose proof (evict_oldest_returns env s (Hup _) Hc Hne) as Hret.
    destruct (steps_evict_oldest_model env shrinks idle_shrinks
                (λ n s0 _ _, shrinks_del n s0)
                (λ n s0 _ _, shrinks_del_untimed n s0) s)
      as (_ & _ & _ & Hlo & _).
    destruct (_evict_oldest_model env s) as [[[]|e'|] s2]; cbn in *;
      try done.
    destruct (IH s2 Hc2) as [-> Hlo2]. split; [done | congruence].
Qed.

(** X21. With [model_max_loaded] set to 0 or less no model can ever be
    loaded: the slot-limit loop of [_load_model] never finds a free slot and
    goes on evicting from what ends as an empty dictionary.  In a world in
    which Redis answers, [get_model] of a model that is not resident does
    not complete whatever the fuel, and it never reaches the loader. *)
Theorem get_model_hangs_without_slots (settings : Settings) (env : Env)
    (fuel : nat) (model_name : string) (s : State) :
  (model_max_loaded settings ≤ 0)%Z →
  (∀ n, redis_up env n = true) →
  consistent s →
  mem model_name (models_in_memory s) = false →
  (get_model settings env fuel model_name s).1 = OutOfFuel ∧
  loader_i (get_model settings env fuel model_name s).2 = loader_i s.
Proof.
  intros Hcap Hup Hc Hm.
  pose proof (λ n s (_ : mem n (models_in_memory s) = true)
                (_ : mem n (model_last_used s) = true),
              keeps_consistent_del n s) as Hdel.
  rewrite get_model_miss, run_bind by done. unfold redis_call. rewrite Hup.
  set (s0 := with_event _ (tick_redis s)).
  unfold _load_model. rewrite run_bind. cbn [emit modify].
  set (s1 := with_event _ s0).
  assert (Hc1 : consistent s1) by exact Hc.
  rewrite run_bind.
  pose proof (pressure_loop_never_raises settings env fuel s1 Hup Hc1) as Hp.
  pose proof (steps_pressure_loop settings env keeps_consistent
                idle_keeps_consistent Hdel keeps_consistent_del_untimed
                fuel s1 Hc1) as Hc2.
  destruct (steps_shrinks_pressure_loop settings env fuel s1)
    as (_ & _ & _ & Hlo & _).
  destruct (pressure_loop settings env fuel s1) as [[[]|e|] s2];
    cbn [fst snd] in *; [|by destruct (Hp e)|done].
  rewrite run_bind.
  destruct (limit_loop_without_slots settings env fuel s2 Hcap Hup Hc2)
    as [Hout Hlo2].
  destruct (limit_loop settings env fuel s2) as [[[]|e|] s3];
    cbn [fst snd] in *; try discriminate.
  split; [done|]. rewrite Hlo2, Hlo. reflexivity.
Qed.

Lemma get_model_hangs_without_slots_witness :
  (model_max_loaded (mkSettings 300 (7 # 10) 0) ≤ 0)%Z ∧
  (∀ n, redis_up env_steady n = true) ∧
  consistent init_state ∧
  mem "ANI2x" (models_in_memory init_state) = false ∧
  (get_model (mkSettings 300 (7 # 10) 0) env_steady 1000 "ANI2x" init_state).1
  = OutOfFuel.
Proof.
  assert (H1 : (model_max_loaded (mkSettings 300 (7 # 10) 0) ≤ 0)%Z) by done.
  assert (H2 : ∀ n, redis_up env_steady n = true) by done.
  assert (H3 : consistent init_state) by (by intros k).
  assert (H4 : mem "ANI2x" (models_in_memory init_state) = false)
    by reflexivity.
  split_and!; [done..|].
  exact (proj1 (get_model_hangs_without_slots (mkSettings 300 (7 # 10) 0)
                  env_steady 1000 "ANI2x" init_state H1 H2 H3 H4)).
Defined.
